(** * sync_amex: reconciliation of additional-card transactions

    A shallow embedding of [sync_amex.py] and the properties of its
    matching key, label resolver, paginated fetcher and reconciliation
    loop.

    Conventions of the embedding.
    - A Python [str] is a [string]; its characters are read as code points
      below 256 (Latin-1), on which [str.lower] and [str.strip] are the
      functions [lower] and [strip] below.
    - A JSON object with optional fields is a record with [option] fields;
      [x or d] on such a field is [or_str], [or_int] or [or_opt].
    - The amount of a transaction is a JSON number, of which the script
      only uses equality and hashing (as part of a dict key); it is the
      rational value of the number, a [Qc] (a NaN, which JSON has not, is
      left out).
    - The remote service is a state of an arbitrary type with the answers
      to the four GraphQL operations the script sends ([Gql]); a request
      returns data or raises, and leaves the service in a new state. A run
      threads the service, the requests sent and the lines printed. *)

From Stdlib Require Import ZArith NArith QArith Qcanon Ascii String List Bool Lia Sorted.
From Stdlib Require Import DecimalString.
From stdpp Require Import base option list gmap strings.

Local Open Scope string_scope.
Local Open Scope list_scope.

(** ** Python strings *)

Module PyStr.

(** [str.isspace] on one code point below 256: TAB..CR, FS..US and
    space, NEL (0x85) and NBSP (0xA0). *)
Definition isspace (c : ascii) : bool :=
  let n := N_of_ascii c in
  ((9 <=? n) && (n <=? 13) || (28 <=? n) && (n <=? 32)
   || (n =? 133) || (n =? 160))%N.

(** Upper-case letters below 256: A..Z, and 0xC0..0xDE but the
    multiplication sign 0xD7. *)
Definition isupper (c : ascii) : bool :=
  let n := N_of_ascii c in
  ((65 <=? n) && (n <=? 90)
   || (192 <=? n) && (n <=? 222) && negb (n =? 215))%N.

Definition lower_char (c : ascii) : ascii :=
  if isupper c then ascii_of_N (N_of_ascii c + 32) else c.

(** [s.lower()] *)
Fixpoint lower (s : string) : string :=
  match s with
  | EmptyString => EmptyString
  | String c s' => String (lower_char c) (lower s')
  end.

(** [s.upper()], on the ASCII letters: the script applies it to the
    owner field only, which [fetch_transactions] sets to one of two
    ASCII constants. *)
Definition upper_char (c : ascii) : ascii :=
  let n := N_of_ascii c in
  if ((97 <=? n) && (n <=? 122))%N then ascii_of_N (n - 32) else c.

Fixpoint upper (s : string) : string :=
  match s with
  | EmptyString => EmptyString
  | String c s' => String (upper_char c) (upper s')
  end.

Definition is_empty (s : string) : bool :=
  match s with EmptyString => true | _ => false end.

(** [s.lstrip()], [s.rstrip()] and [s.strip()] without argument *)
Fixpoint lstrip (s : string) : string :=
  match s with
  | EmptyString => EmptyString
  | String c s' => if isspace c then lstrip s' else s
  end.

Fixpoint rstrip (s : string) : string :=
  match s with
  | EmptyString => EmptyString
  | String c s' =>
      let r := rstrip s' in
      if isspace c && is_empty r then EmptyString else String c r
  end.

Definition strip (s : string) : string := rstrip (lstrip s).

(** A string of white space only *)
Fixpoint all_space (s : string) : bool :=
  match s with
  | EmptyString => true
  | String c s' => isspace c && all_space s'
  end.

(** Two characters that differ at most in letter case: equal, or one is
    an upper-case letter and the other the letter 32 code points above
    it. *)
Definition same_letter (x y : ascii) : bool :=
  (N_of_ascii x =? N_of_ascii y)%N
  || isupper x && (N_of_ascii y =? N_of_ascii x + 32)%N
  || isupper y && (N_of_ascii x =? N_of_ascii y + 32)%N.

(** Two strings that differ at most in letter case *)
Fixpoint same_letters (a b : string) : bool :=
  match a, b with
  | EmptyString, EmptyString => true
  | String x a', String y b' => same_letter x y && same_letters a' b'
  | _, _ => false
  end.

(** Two strings equal up to leading and trailing white space and letter
    case: each is a core between two runs of white space, and the cores
    differ at most in letter case. *)
Definition equal_up_to_space_and_case (a b : string) : Prop :=
  exists la ca ra lb cb rb,
    a = la +:+ ca +:+ ra /\ b = lb +:+ cb +:+ rb /\
    all_space la = true /\ all_space ra = true /\
    all_space lb = true /\ all_space rb = true /\
    same_letters ca cb = true.

(** All 256 characters, to settle facts on pairs of them by evaluation. *)
Definition all_chars : list ascii := map ascii_of_nat (seq 0 256).

End PyStr.

(** ** Data *)

(** [x or d] on an optional string: [None] and the empty string are
    falsy. *)
Definition or_str (x : option string) (d : string) : string :=
  match x with
  | Some s => if PyStr.is_empty s then d else s
  | None => d
  end.

(** [x or d] on an optional integer: [None] and [0] are falsy. *)
Definition or_int (x : option Z) (d : Z) : Z :=
  match x with
  | Some n => if (n =? 0)%Z then d else n
  | None => d
  end.

(** [x or y] on two optional strings *)
Definition or_opt (x y : option string) : option string :=
  match x with
  | Some s => if PyStr.is_empty s then y else Some s
  | None => y
  end.

(** [not l] on a list *)
Definition is_nil {A} (l : list A) : bool :=
  match l with [] => true | _ => false end.

(** The two values [fetch_transactions] gives the ["owner"] field. *)
Inductive owner := SHARED | INDIVIDUAL.

Definition owner_str (o : owner) : string :=
  match o with SHARED => "SHARED" | INDIVIDUAL => "INDIVIDUAL" end.

(** A tag of a transaction or of the household: [{id, name, ...}] *)
Record tag := { tg_id : string; tg_name : string }.

(** The merchant of a transaction: [{name, ...}], the name nullable *)
Record merchant := { m_name : option string }.

(** The owning user of a transaction: [{id, ...}] *)
Record user := { u_id : string }.

(** A transaction as [Web_GetTransactionsList] returns it. The amount is
    the rational value of the JSON number. *)
Record raw_txn := {
  r_id : string;
  r_date : string;
  r_amount : Qc;
  r_plaidName : option string;
  r_notes : option string;
  r_ownedByUser : option user;
  r_merchant : option merchant;
  r_tags : option (list tag)
}.

(** A transaction as [fetch_transactions] normalises it. *)
Record txn := {
  t_id : string;
  t_date : string;
  t_amount : Qc;
  t_description : string;
  t_owner : owner;
  t_merchant : option merchant;
  t_tags : list tag
}.

(** The body of the [for t in batch] loop of [fetch_transactions] *)
Definition normalized (t : raw_txn) : txn :=
  {| t_id := r_id t;
     t_date := r_date t;
     t_amount := r_amount t;
     t_description := or_str (r_plaidName t) (or_str (r_notes t) "");
     t_owner := match r_ownedByUser t with
                | None => SHARED
                | Some _ => INDIVIDUAL
                end;
     t_merchant := r_merchant t;
     t_tags := default [] (r_tags t) |}.

(** One page of [allTransactions] *)
Record page := {
  results : list raw_txn;
  totalSelectableCount : option Z;
  totalCount : option Z
}.

(** ** Matching key *)

Abbreviation key := (string * Qc * string)%type.

(** [(txn.get("merchant") or {}).get("name") or ""] *)
Definition merchant_name (t : txn) : string :=
  or_str (m ← t_merchant t; m_name m) "".

Definition key_for (t : txn) : key :=
  (t_date t, t_amount t, PyStr.lower (PyStr.strip (merchant_name t))).

Definition has_sync_tag (t : txn) (sync_tag_name : string) : bool :=
  existsb (fun g => String.eqb (PyStr.lower (tg_name g))
                               (PyStr.lower sync_tag_name))
          (t_tags t).

(** ** Configuration *)

Record config := {
  MAIN_ACCOUNT_ID : option string;
  ADDL_ACCOUNT_ID : option string;
  API_TOKEN : option string;
  SYNC_TAG_NAME : string;
  DRY_RUN : bool
}.

(** The value of [DRY_RUN] from the environment variable of that name *)
Definition dry_run_flag (v : option string) : bool :=
  negb (String.eqb (PyStr.lower (default "true" v)) "false").

(** The module-level constants, from [os.environ] (after [load_dotenv]) *)
Definition load_config (environ : gmap string string) : config :=
  {| MAIN_ACCOUNT_ID := environ !! "MAIN_ACCOUNT_ID";
     ADDL_ACCOUNT_ID := environ !! "ADDL_ACCOUNT_ID";
     API_TOKEN := or_opt (environ !! "MONARCH_API_TOKEN")
                         (environ !! "MONARCH_BEARER_TOKEN");
     SYNC_TAG_NAME := default "synced" (environ !! "SYNC_TAG_NAME");
     DRY_RUN := dry_run_flag (environ !! "DRY_RUN") |}.

(** [cfg] with the run mode set *)
Definition with_dry_run (dry_run : bool) (cfg : config) : config :=
  {| MAIN_ACCOUNT_ID := MAIN_ACCOUNT_ID cfg;
     ADDL_ACCOUNT_ID := ADDL_ACCOUNT_ID cfg;
     API_TOKEN := API_TOKEN cfg;
     SYNC_TAG_NAME := SYNC_TAG_NAME cfg;
     DRY_RUN := dry_run |}.

(** ** Remote service, requests and output *)

Inductive error :=
| HTTPError (status_code : Z)
| RuntimeError (message : string)
| SystemExit (message : string).

Inductive result (A : Type) :=
| Ok (a : A)
| Raise (e : error).
Arguments Ok {A} a.
Arguments Raise {A} e.

(** The GraphQL operations the script sends, by operation name, with the
    variables that vary. *)
Inductive request :=
| Web_GetTransactionsList (account_id : string) (offset limit : Z)
| GetHouseholdTransactionTags (limit : Z)
| Web_UpdateTransactionOverview (txn_id : string)
| Web_SetTransactionTags (txn_id : string) (tag_ids : list string).

Definition is_mutation (r : request) : bool :=
  match r with
  | Web_UpdateTransactionOverview _ | Web_SetTransactionTags _ _ => true
  | _ => false
  end.

(** What the remote service answers to each operation: the data of the
    response or the exception [gql] raises, and the state of the service
    after the request. *)
Class Gql (Remote : Type) := {
  allTransactions : string -> Z -> Z -> Remote -> result page * Remote;
  householdTransactionTags : Z -> Remote -> result (option (list tag)) * Remote;
  updateTransaction : string -> Remote -> result unit * Remote;
  setTransactionTags : string -> list string -> Remote -> result unit * Remote
}.

Inductive classification := NO_MATCH | EXISTING_SHARED | NEW_SHARED.

(** The lines the script prints *)
Inductive line :=
| Fetching
| Candidates (sync_tag_name : string) (n : nat)
| Classified (c : classification) (date : string) (amount : Qc)
             (merchant_name desc : string)
| DryRunWould (c : classification)
| Updated (c : classification)
| Summary
| SummaryExisting (n : nat)
| SummaryNew (n : nat)
| SummaryNoMatch (n : nat)
| DryRunWasEnabled.

Definition classification_of (l : line) : option classification :=
  match l with Classified c _ _ _ _ => Some c | _ => None end.

(** The classifications logged, in order *)
Definition classifications (out : list line) : list classification :=
  omap classification_of out.

(** The state a run threads: the remote service, the requests sent so far
    and the lines printed so far. *)
Record world (Remote : Type) := {
  remote : Remote;
  requests : list request;
  stdout : list line
}.
Arguments remote {Remote} w.
Arguments requests {Remote} w.
Arguments stdout {Remote} w.

(** The mutations sent so far *)
Definition mutations {Remote} (w : world Remote) : list request :=
  List.filter is_mutation (requests w).

(** A computation with these effects that returns or raises *)
Definition M (Remote A : Type) : Type := world Remote -> result A * world Remote.

Definition ret {Remote A} (a : A) : M Remote A := fun w => (Ok a, w).

Definition bind {Remote A B} (c : M Remote A) (k : A -> M Remote B) : M Remote B :=
  fun w => match c w with
           | (Ok a, w') => k a w'
           | (Raise e, w') => (Raise e, w')
           end.

Notation "'do' x <- c ; k" := (bind c (fun x => k))
  (at level 10, x name, c at level 100, k at level 200).

Definition raise {Remote A} (e : error) : M Remote A := fun w => (Raise e, w).

Definition print {Remote} (l : line) : M Remote unit :=
  fun w => (Ok tt, {| remote := remote w; requests := requests w;
                      stdout := stdout w ++ [l] |}).

(** [gql]: sends one request, which is recorded, and returns the data or
    raises. The lines it prints about a failed request before it raises
    are not part of [line]. *)
Definition gql {Remote A} (r : request)
    (answer : Remote -> result A * Remote) : M Remote A :=
  fun w => let '(a, s) := answer (remote w) in
           (a, {| remote := s; requests := requests w ++ [r];
                  stdout := stdout w |}).

(** [for x in l: body] with a value threaded through *)
Fixpoint for_each {Remote A S} (body : A -> S -> M Remote S) (l : list A)
    (s : S) : M Remote S :=
  match l with
  | [] => ret s
  | x :: l' => do s' <- body x s; for_each body l' s'
  end.

(** ** The script's functions *)

Section Script.
Context {Remote : Type} `{!Gql Remote}.

(** [fetch_transactions]. The [while True] loop takes [fuel] iterations at
    most; [None] is a loop that has not ended by then. *)
Fixpoint fetch_loop (fuel : nat) (account_id : string) (offset : Z)
    (acc : list txn) (w : world Remote)
  : option (result (list txn) * world Remote) :=
  match fuel with
  | O => None
  | S fuel' =>
      let limit := 200%Z in
      match gql (Web_GetTransactionsList account_id offset limit)
                (allTransactions account_id offset limit) w with
      | (Raise e, w') => Some (Raise e, w')
      | (Ok data, w') =>
          let batch := results data in
          let acc' := acc ++ map normalized batch in
          let total := or_int (totalSelectableCount data)
                              (or_int (totalCount data) 0) in
          let offset' := (offset + Z.of_nat (length batch))%Z in
          if (total <=? offset')%Z || is_nil batch
          then Some (Ok acc', w')
          else fetch_loop fuel' account_id offset' acc' w'
      end
  end.

Definition fetch_transactions (fuel : nat) (account_id : string)
    (w : world Remote) : option (result (list txn) * world Remote) :=
  fetch_loop fuel account_id 0 [] w.

Definition tag_not_found (name : string) : string :=
  "Tag '" +:+ name +:+ "' not found in householdTransactionTags. "
  +:+ "Please create it in Monarch first (e.g. as a transaction tag) and rerun.".

Definition ensure_tag_id (name : string) : M Remote string :=
  do data <- gql (GetHouseholdTransactionTags 500) (householdTransactionTags 500);
  let tags := default [] data in
  match find (fun t => String.eqb (PyStr.lower (tg_name t)) (PyStr.lower name))
             tags with
  | Some t => ret (tg_id t)
  | None => raise (RuntimeError (tag_not_found name))
  end.

Definition set_owner_shared (txn_id : string) : M Remote unit :=
  gql (Web_UpdateTransactionOverview txn_id) (updateTransaction txn_id).

Definition update_tags_replace (txn_id : string) (tag_ids : list string)
  : M Remote unit :=
  gql (Web_SetTransactionTags txn_id tag_ids) (setTransactionTags txn_id tag_ids).

(** The lookup [main] builds: each key to the main-card transactions that
    have it, in the order of the list. *)
Definition main_index (main_txns : list txn) : gmap key (list txn) :=
  fold_left (fun idx t => <[key_for t := default [] (idx !! key_for t) ++ [t]]> idx)
            main_txns ∅.

Definition addl_candidates (sync_tag_name : string) (addl_txns : list txn)
  : list txn :=
  List.filter (fun t => negb (has_sync_tag t sync_tag_name)) addl_txns.

Record counters := {
  count_synced_existing_shared : nat;
  count_synced_new_shared : nat;
  count_no_match : nat
}.

(** [(m.get("owner") or "").upper() == "SHARED"] *)
Definition is_shared (m : txn) : bool :=
  String.eqb (PyStr.upper (or_str (Some (owner_str (t_owner m))) "")) "SHARED".

(** The two statements that tag the additional-card transaction *)
Definition tag_as_synced (tag_id : string) (addl : txn) : M Remote unit :=
  let existing_tag_ids := map tg_id (t_tags addl) in
  if negb (bool_decide (tag_id ∈ existing_tag_ids))
  then update_tags_replace (t_id addl) (existing_tag_ids ++ [tag_id])
  else ret tt.

(** The body of the loop [for addl in addl_candidates] of [main] *)
Definition process (cfg : config) (tag_id : string)
    (index : gmap key (list txn)) (addl : txn) (c : counters)
  : M Remote counters :=
  let k := key_for addl in
  let mains := default [] (index !! k) in
  let merchant_name := merchant_name addl in
  let desc := or_str (Some (t_description addl)) "" in
  if is_nil mains then
    do _ <- print (Classified NO_MATCH (t_date addl) (t_amount addl) merchant_name desc);
    ret {| count_synced_existing_shared := count_synced_existing_shared c;
           count_synced_new_shared := count_synced_new_shared c;
           count_no_match := count_no_match c + 1 |}
  else
    let shared_mains := List.filter is_shared mains in
    if negb (is_nil shared_mains) then
      do _ <- print (Classified EXISTING_SHARED (t_date addl) (t_amount addl)
                           merchant_name desc);
      do _ <- (if DRY_RUN cfg then print (DryRunWould EXISTING_SHARED)
          else do _ <- tag_as_synced tag_id addl; print (Updated EXISTING_SHARED));
      ret {| count_synced_existing_shared := count_synced_existing_shared c + 1;
             count_synced_new_shared := count_synced_new_shared c;
             count_no_match := count_no_match c |}
    else
      do _ <- print (Classified NEW_SHARED (t_date addl) (t_amount addl)
                           merchant_name desc);
      do _ <- (if DRY_RUN cfg then print (DryRunWould NEW_SHARED)
          else
            do _ <- for_each (fun m _ => set_owner_shared (t_id m)) mains tt;
            do _ <- tag_as_synced tag_id addl;
            print (Updated NEW_SHARED));
      ret {| count_synced_existing_shared := count_synced_existing_shared c;
             count_synced_new_shared := count_synced_new_shared c + 1;
             count_no_match := count_no_match c |}.

(** [main] from the building of the lookup to its end: the reconciliation
    of the two fetched lists. *)
Definition reconcile (cfg : config) (tag_id : string)
    (main_txns addl_txns : list txn) : M Remote counters :=
  let index := main_index main_txns in
  let candidates := addl_candidates (SYNC_TAG_NAME cfg) addl_txns in
  do _ <- print (Candidates (SYNC_TAG_NAME cfg) (length candidates));
  do c <- for_each (process cfg tag_id index) candidates
            {| count_synced_existing_shared := 0;
               count_synced_new_shared := 0;
               count_no_match := 0 |};
  do _ <- print Summary;
  do _ <- print (SummaryExisting (count_synced_existing_shared c));
  do _ <- print (SummaryNew (count_synced_new_shared c));
  do _ <- print (SummaryNoMatch (count_no_match c));
  do _ <- (if DRY_RUN cfg then print DryRunWasEnabled else ret tt);
  ret c.

(** [', '.join(l)] *)
Fixpoint join_comma (l : list string) : string :=
  match l with
  | [] => ""
  | [x] => x
  | x :: l' => x +:+ ", " +:+ join_comma l'
  end.

Definition missing (cfg : config) : list string :=
  map fst
    (List.filter (fun nv => PyStr.is_empty (or_str (snd nv) ""))
       [("MAIN_ACCOUNT_ID", MAIN_ACCOUNT_ID cfg);
        ("ADDL_ACCOUNT_ID", ADDL_ACCOUNT_ID cfg);
        ("MONARCH_API_TOKEN (or MONARCH_BEARER_TOKEN)", API_TOKEN cfg)]).

(** [main], with the fuel of the two fetches *)
Definition main (fuel : nat) (cfg : config) (w : world Remote)
  : option (result counters * world Remote) :=
  if negb (is_nil (missing cfg)) then
    Some (Raise (SystemExit ("Missing required environment variables: "
                             +:+ join_comma (missing cfg))), w)
  else
    let '(_, w0) := print Fetching w in
    match fetch_transactions fuel (or_str (MAIN_ACCOUNT_ID cfg) "") w0 with
    | None => None
    | Some (Raise e, w1) => Some (Raise e, w1)
    | Some (Ok main_txns, w1) =>
        match fetch_transactions fuel (or_str (ADDL_ACCOUNT_ID cfg) "") w1 with
        | None => None
        | Some (Raise e, w2) => Some (Raise e, w2)
        | Some (Ok addl_txns, w2) =>
            Some ((do tag_id <- ensure_tag_id (SYNC_TAG_NAME cfg);
                   reconcile cfg tag_id main_txns addl_txns) w2)
        end
    end.

End Script.

(** ** The pages a fetch reads *)

(** [data.get("totalSelectableCount") or data.get("totalCount") or 0] *)
Definition reported_total (data : page) : Z :=
  or_int (totalSelectableCount data) (or_int (totalCount data) 0).

(** [offset >= total or not batch], with the offset already advanced *)
Definition last_page (data : page) (offset : Z) : bool :=
  (reported_total data <=? offset + Z.of_nat (length (results data)))%Z
  || is_nil (results data).

(** [fetches account_id offset w pages w']: from offset [offset] in world
    [w], the requests for successive pages, each at the offset advanced by
    the records of the page before, are answered by [pages], of which the
    last one, and no earlier one, ends the loop; [w'] is the world after
    them. *)
Inductive fetches {Remote} `{!Gql Remote} (account_id : string)
  : Z -> world Remote -> list page -> world Remote -> Prop :=
| fetches_last offset w data w' :
    gql (Web_GetTransactionsList account_id offset 200)
        (allTransactions account_id offset 200) w = (Ok data, w') ->
    last_page data offset = true ->
    fetches account_id offset w [data] w'
| fetches_next offset w data w' pages w'' :
    gql (Web_GetTransactionsList account_id offset 200)
        (allTransactions account_id offset 200) w = (Ok data, w') ->
    last_page data offset = false ->
    fetches account_id (offset + Z.of_nat (length (results data))) w' pages w'' ->
    fetches account_id offset w (data :: pages) w''.

(** The records of a list of pages, normalised, in order *)
Definition records (pages : list page) : list txn :=
  concat (map (fun data => map normalized (results data)) pages).

(** ** What the engine decides for a candidate *)

(** The transactions of the main card with the key of [addl] *)
Definition bucket (main_txns : list txn) (addl : txn) : list txn :=
  List.filter (fun m => bool_decide (key_for m = key_for addl)) main_txns.

Definition classify (main_txns : list txn) (addl : txn) : classification :=
  if is_nil (bucket main_txns addl) then NO_MATCH
  else if existsb is_shared (bucket main_txns addl) then EXISTING_SHARED
  else NEW_SHARED.

(** The request that sets the tags of [addl] to its tags and the sync tag *)
Definition add_sync_tag (tag_id : string) (addl : txn) : request :=
  Web_SetTransactionTags (t_id addl) (map tg_id (t_tags addl) ++ [tag_id]).

(** The tagging request of a matched candidate: none when the identifier
    of the sync tag is already among those of its tags. *)
Definition tagging (tag_id : string) (addl : txn) : list request :=
  if bool_decide (tag_id ∈ map tg_id (t_tags addl)) then []
  else [add_sync_tag tag_id addl].

(** The mutations of a live run for a candidate, in order *)
Definition plan (tag_id : string) (main_txns : list txn) (addl : txn)
  : list request :=
  match classify main_txns addl with
  | NO_MATCH => []
  | EXISTING_SHARED => tagging tag_id addl
  | NEW_SHARED =>
      map (fun m => Web_UpdateTransactionOverview (t_id m)) (bucket main_txns addl)
      ++ tagging tag_id addl
  end.

Definition count (c : classification) (n : counters) : counters :=
  match c with
  | NO_MATCH =>
      {| count_synced_existing_shared := count_synced_existing_shared n;
         count_synced_new_shared := count_synced_new_shared n;
         count_no_match := count_no_match n + 1 |}
  | EXISTING_SHARED =>
      {| count_synced_existing_shared := count_synced_existing_shared n + 1;
         count_synced_new_shared := count_synced_new_shared n;
         count_no_match := count_no_match n |}
  | NEW_SHARED =>
      {| count_synced_existing_shared := count_synced_existing_shared n;
         count_synced_new_shared := count_synced_new_shared n + 1;
         count_no_match := count_no_match n |}
  end.

(** ** The loop of [main] in terms of decisions *)

Section Decisions.
Context {Remote : Type} `{!Gql Remote}.

(** The state of the remote service after a request *)
Definition apply (r : request) (s : Remote) : Remote :=
  match r with
  | Web_GetTransactionsList account_id offset limit =>
      snd (allTransactions account_id offset limit s)
  | GetHouseholdTransactionTags limit => snd (householdTransactionTags limit s)
  | Web_UpdateTransactionOverview txn_id => snd (updateTransaction txn_id s)
  | Web_SetTransactionTags txn_id tag_ids =>
      snd (setTransactionTags txn_id tag_ids s)
  end.

Definition apply_all (rs : list request) (s : Remote) : Remote :=
  fold_left (fun s r => apply r s) rs s.

(** Sends a mutation *)
Definition send (r : request) : M Remote unit :=
  match r with
  | Web_UpdateTransactionOverview txn_id => set_owner_shared txn_id
  | Web_SetTransactionTags txn_id tag_ids => update_tags_replace txn_id tag_ids
  | _ => ret tt
  end.

(** Sends mutations in order, up to the first that raises *)
Definition send_all (rs : list request) : M Remote unit :=
  for_each (fun r _ => send r) rs tt.

(** The body of the loop: logs the classification, sends the planned
    mutations in a live run, and counts. *)
Definition decide_and_apply (cfg : config) (tag_id : string)
    (main_txns : list txn) (addl : txn) (c : counters) : M Remote counters :=
  let cls := classify main_txns addl in
  do _ <- print (Classified cls (t_date addl) (t_amount addl)
                            (merchant_name addl) (t_description addl));
  do _ <- match cls with
          | NO_MATCH => ret tt
          | _ => if DRY_RUN cfg then print (DryRunWould cls)
                 else do _ <- send_all (plan tag_id main_txns addl);
                      print (Updated cls)
          end;
  ret (count cls c).

End Decisions.

Definition zero : counters :=
  {| count_synced_existing_shared := 0;
     count_synced_new_shared := 0;
     count_no_match := 0 |}.

(** The counters after the candidates [candidates], from [c] *)
Definition tally (main_txns candidates : list txn) (c : counters) : counters :=
  fold_left (fun c addl => count (classify main_txns addl) c) candidates c.

Definition total (c : counters) : nat :=
  count_synced_existing_shared c + count_synced_new_shared c + count_no_match c.

(** The mutations of a live run over the candidates, in order *)
Definition plans (tag_id : string) (main_txns candidates : list txn)
  : list request :=
  concat (map (plan tag_id main_txns) candidates).

(** The requests a run may send for a candidate *)
Definition planned (cfg : config) (tag_id : string) (main_txns : list txn)
    (addl : txn) : list request :=
  if DRY_RUN cfg then [] else plan tag_id main_txns addl.

(** The requests a run may send for the candidates *)
Definition all_planned (cfg : config) (tag_id : string)
    (main_txns candidates : list txn) : list request :=
  concat (map (planned cfg tag_id main_txns) candidates).

(** The lines printed after the loop *)
Definition summary (cfg : config) (c : counters) : list line :=
  [Summary; SummaryExisting (count_synced_existing_shared c);
   SummaryNew (count_synced_new_shared c); SummaryNoMatch (count_no_match c)]
  ++ (if DRY_RUN cfg then [DryRunWasEnabled] else []).

Definition is_ok {A} (r : result A) : bool :=
  match r with Ok _ => true | Raise _ => false end.

(** A remote service that accepts every mutation *)
Definition accepts_mutations (Remote : Type) `{!Gql Remote} : Prop :=
  forall s : Remote,
    (forall txn_id, fst (updateTransaction txn_id s) = Ok tt) /\
    (forall txn_id tag_ids, fst (setTransactionTags txn_id tag_ids s) = Ok tt).

(** ** A ledger

    A remote service that holds the transactions of the accounts and the
    tags of the household, answers the queries from them and applies the
    two mutations as the docstrings of [set_owner_shared] and
    [update_tags_replace] say: the first clears the owning user of the
    transaction with the identifier, the second replaces its tags by those
    with the identifiers given. A query returns [limit] entries at most. *)

Module Ledger.

Record ledger := {
  transactions : list (string * raw_txn);
  household_tags : list tag
}.

(** The transactions of an account, in order *)
Definition account (L : ledger) (account_id : string) : list raw_txn :=
  map snd (List.filter (fun p => String.eqb (fst p) account_id) (transactions L)).

(** What [fetch_transactions] returns for an account of a ledger at rest *)
Definition snapshot (L : ledger) (account_id : string) : list txn :=
  map normalized (account L account_id).

Definition tag_of_id (catalog : list tag) (tag_id : string) : option tag :=
  find (fun g => String.eqb (tg_id g) tag_id) catalog.

Definition tags_of_ids (catalog : list tag) (tag_ids : list string) : list tag :=
  omap (tag_of_id catalog) tag_ids.

Definition clear_owner (t : raw_txn) : raw_txn :=
  {| r_id := r_id t; r_date := r_date t; r_amount := r_amount t;
     r_plaidName := r_plaidName t; r_notes := r_notes t;
     r_ownedByUser := None;
     r_merchant := r_merchant t; r_tags := r_tags t |}.

Definition replace_tags (tags : list tag) (t : raw_txn) : raw_txn :=
  {| r_id := r_id t; r_date := r_date t; r_amount := r_amount t;
     r_plaidName := r_plaidName t; r_notes := r_notes t;
     r_ownedByUser := r_ownedByUser t;
     r_merchant := r_merchant t; r_tags := Some tags |}.

(** Applies [f] to the transaction(s) with identifier [txn_id] *)
Definition update (txn_id : string) (f : raw_txn -> raw_txn) (L : ledger)
  : ledger :=
  {| transactions :=
       map (fun p => if String.eqb (r_id (snd p)) txn_id
                     then (fst p, f (snd p)) else p)
           (transactions L);
     household_tags := household_tags L |}.

(** The effect of a request on one transaction of a ledger whose tags
    are [catalog] *)
Definition step (catalog : list tag) (r : request) (t : raw_txn) : raw_txn :=
  match r with
  | Web_UpdateTransactionOverview txn_id =>
      if String.eqb (r_id t) txn_id then clear_owner t else t
  | Web_SetTransactionTags txn_id tag_ids =>
      if String.eqb (r_id t) txn_id
      then replace_tags (tags_of_ids catalog tag_ids) t else t
  | _ => t
  end.

Definition steps (catalog : list tag) (rs : list request) (t : raw_txn)
  : raw_txn :=
  fold_left (fun t r => step catalog r t) rs t.

Definition page_of (l : list raw_txn) (offset limit : Z) : page :=
  {| results := take (Z.to_nat limit) (drop (Z.to_nat offset) l);
     totalSelectableCount := Some (Z.of_nat (length l));
     totalCount := Some (Z.of_nat (length l)) |}.

#[global] Instance ledger_gql : Gql ledger := {|
  allTransactions account_id offset limit L :=
    (Ok (page_of (account L account_id) offset limit), L);
  householdTransactionTags limit L :=
    (Ok (Some (take (Z.to_nat limit) (household_tags L))), L);
  updateTransaction txn_id L := (Ok tt, update txn_id clear_owner L);
  setTransactionTags txn_id tag_ids L :=
    (Ok tt, update txn_id (replace_tags (tags_of_ids (household_tags L) tag_ids)) L)
|}.

(** A run starts with no request sent and nothing printed. *)
Definition start (L : ledger) : world ledger :=
  {| remote := L; requests := []; stdout := [] |}.

End Ledger.

(** ** A source whose total stays ahead

    Every page of this source holds one record and reports a total two
    above the offset requested. *)

Module Ahead.

Inductive source := Source.

Definition record : raw_txn :=
  {| r_id := "t"; r_date := "2024-01-01"; r_amount := Q2Qc 1;
     r_plaidName := None; r_notes := None; r_ownedByUser := None;
     r_merchant := None; r_tags := None |}.

#[global] Instance source_gql : Gql source := {|
  allTransactions account_id offset limit s :=
    (Ok {| results := [record];
           totalSelectableCount := Some (offset + 2)%Z;
           totalCount := None |}, s);
  householdTransactionTags limit s := (Ok None, s);
  updateTransaction txn_id s := (Ok tt, s);
  setTransactionTags txn_id tag_ids s := (Ok tt, s)
|}.

Definition start : world source :=
  {| remote := Source; requests := []; stdout := [] |}.

End Ahead.

(** ** Examples *)

Module Example.
Import Ledger.

Definition food : tag := {| tg_id := "F"; tg_name := "Food" |}.
Definition synced : tag := {| tg_id := "T"; tg_name := "Synced" |}.

(** A tag with the identifier of the sync tag under an earlier name *)
Definition renamed : tag := {| tg_id := "T"; tg_name := "Travel" |}.

Definition alice : user := {| u_id := "u1" |}.

(** A purchase of 12.34 at one merchant on one day *)
Definition purchase (txn_id name : string) (owned_by : option user)
    (tags : list tag) : raw_txn :=
  {| r_id := txn_id; r_date := "2024-05-01"; r_amount := Q2Qc (-1234 # 100);
     r_plaidName := Some "AMZN Mktp"; r_notes := None;
     r_ownedByUser := owned_by;
     r_merchant := Some {| m_name := Some name |};
     r_tags := Some tags |}.

Definition m1 : raw_txn := purchase "m1" "Amazon" (Some alice) [].
Definition m2 : raw_txn := purchase "m2" " amazon " (Some alice) [].
Definition m3 : raw_txn := purchase "m3" "Amazon" None [].
Definition a1 : raw_txn := purchase "a1" "AMAZON" (Some alice) [food].
Definition a2 : raw_txn := purchase "a2" "AMAZON" (Some alice) [renamed].
Definition a3 : raw_txn := purchase "a3" "Amazon" (Some alice) [synced].

(** A purchase without merchant *)
Definition cash (txn_id : string) : raw_txn :=
  {| r_id := txn_id; r_date := "2024-05-02"; r_amount := Q2Qc (-5 # 1);
     r_plaidName := None; r_notes := Some "cash"; r_ownedByUser := Some alice;
     r_merchant := None; r_tags := None |}.

Definition ledger_of (main_txns addl_txns : list raw_txn) : ledger :=
  {| transactions := map (pair "main") main_txns ++ map (pair "addl") addl_txns;
     household_tags := [food; synced] |}.

(** Two individually owned postings of the purchase on the main card *)
Definition two_individual : ledger := ledger_of [m1; m2] [a1].

(** A shared posting of the purchase on the main card *)
Definition one_shared : ledger := ledger_of [m3] [a1].

(** The same with a candidate that carries the sync tag's identifier *)
Definition two_individual_renamed : ledger := ledger_of [m1; m2] [a2].
Definition one_shared_renamed : ledger := ledger_of [m3] [a2].

(** The [i]-th of the tags that come before the sync tag in a large
    household *)
Definition filler (i : nat) : tag :=
  {| tg_id := "F" +:+ NilEmpty.string_of_uint (Nat.to_uint i);
     tg_name := "Filler " +:+ NilEmpty.string_of_uint (Nat.to_uint i) |}.

(** A household of 501 tags, the sync tag the last of them *)
Definition many_tags : ledger :=
  {| transactions := transactions one_shared;
     household_tags := map filler (seq 0 500) ++ [synced] |}.

Definition cfg (dry_run : bool) : config :=
  {| MAIN_ACCOUNT_ID := Some "main"; ADDL_ACCOUNT_ID := Some "addl";
     API_TOKEN := Some "token"; SYNC_TAG_NAME := "synced";
     DRY_RUN := dry_run |}.

(** The reconciliation of the two accounts of a ledger, as fetched *)
Definition run (dry_run : bool) (L : ledger)
  : result counters * world ledger :=
  reconcile (cfg dry_run) "T" (snapshot L "main") (snapshot L "addl") (start L).

End Example.

(** ** A service that refuses the tags

    It accepts the request that clears an owner and answers the request
    that sets tags with an HTTP error. *)

Module Refusing.

Inductive service := Service.

#[global] Instance service_gql : Gql service := {|
  allTransactions account_id offset limit s :=
    (Ok {| results := []; totalSelectableCount := None; totalCount := None |}, s);
  householdTransactionTags limit s := (Ok None, s);
  updateTransaction txn_id s := (Ok tt, s);
  setTransactionTags txn_id tag_ids s := (Raise (HTTPError 500), s)
|}.

Definition start : world service :=
  {| remote := Service; requests := []; stdout := [] |}.

End Refusing.

(** ** Further notions *)

(** The lines a run that returns prints for a candidate *)
Definition log (cfg : config) (main_txns : list txn) (addl : txn) : list line :=
  Classified (classify main_txns addl) (t_date addl) (t_amount addl)
             (merchant_name addl) (t_description addl)
  :: match classify main_txns addl with
     | NO_MATCH => []
     | cls => [if DRY_RUN cfg then DryRunWould cls else Updated cls]
     end.

(** What the remote service answers to a mutation *)
Definition answer {Remote : Type} `{!Gql Remote} (r : request) (s : Remote)
  : result unit :=
  match r with
  | Web_UpdateTransactionOverview txn_id => fst (updateTransaction txn_id s)
  | Web_SetTransactionTags txn_id tag_ids =>
      fst (setTransactionTags txn_id tag_ids s)
  | _ => Ok tt
  end.

(** The query of the page of an account at an offset *)
Definition page_query (account_id : string) (offset : Z) : request :=
  Web_GetTransactionsList account_id offset 200.

(** The number of pages of 200 records that hold [n] records, one at
    least *)
Definition pages_of (n : nat) : nat := S ((n - 1) / 200).

(** An environment variable that is set and not empty *)
Definition is_set (environ : gmap string string) (name : string) : bool :=
  negb (PyStr.is_empty (default "" (environ !! name))).

(** * Properties *)

(** ** Facts on Python strings *)

Module PyStrFacts.
Import PyStr.

Ltac each_char c :=
  destruct c as [[] [] [] [] [] [] [] []]; try reflexivity; try discriminate.

Lemma isspace_lower_char c : isspace (lower_char c) = isspace c.
Proof. each_char c. Qed.

Lemma in_all_chars c : In c all_chars.
Proof.
  rewrite <- (ascii_nat_embedding c). apply in_map, in_seq.
  pose proof (nat_ascii_bounded c). lia.
Qed.

Lemma same_letter_lower x y :
  same_letter x y = true -> lower_char x = lower_char y.
Proof.
  assert (Hall : forallb (fun a => forallb (fun b =>
            implb (same_letter a b)
                  (Ascii.eqb (lower_char a) (lower_char b)))
            all_chars) all_chars = true) by (vm_compute; reflexivity).
  intros Hxy.
  pose proof (proj1 (forallb_forall _ _) Hall x (in_all_chars x)) as Hx.
  pose proof (proj1 (forallb_forall _ _) Hx y (in_all_chars y)) as Hy.
  simpl in Hy. rewrite Hxy in Hy. now apply Ascii.eqb_eq.
Qed.

Lemma same_letters_lower a : forall b,
  same_letters a b = true -> lower a = lower b.
Proof.
  induction a as [|x a IH]; intros [|y b]; simpl; try discriminate; auto.
  intros H. apply andb_true_iff in H as [Hxy Hab].
  f_equal; [apply same_letter_lower, Hxy | apply IH, Hab].
Qed.

Lemma is_empty_lower s : is_empty (lower s) = is_empty s.
Proof. destruct s; reflexivity. Qed.

Lemma lower_lstrip s : lower (lstrip s) = lstrip (lower s).
Proof.
  induction s as [|c s IH]; simpl; [reflexivity|].
  rewrite isspace_lower_char. destruct (isspace c); [apply IH | reflexivity].
Qed.

Lemma lower_rstrip s : lower (rstrip s) = rstrip (lower s).
Proof.
  induction s as [|c s IH]; simpl; [reflexivity|].
  rewrite isspace_lower_char, <- IH, is_empty_lower.
  destruct (isspace c && is_empty (rstrip s)); reflexivity.
Qed.

Lemma lower_strip s : lower (strip s) = strip (lower s).
Proof. unfold strip. now rewrite lower_rstrip, lower_lstrip. Qed.

Lemma lstrip_all_space w : all_space w = true -> lstrip w = "".
Proof.
  induction w as [|c w IH]; simpl; [reflexivity|].
  intros H. apply andb_true_iff in H as [-> Hw]. auto.
Qed.

Lemma rstrip_all_space w : all_space w = true -> rstrip w = "".
Proof.
  induction w as [|c w IH]; simpl; [reflexivity|].
  intros H. apply andb_true_iff in H as [-> Hw]. now rewrite IH.
Qed.

Lemma lstrip_app_space w s : all_space w = true -> lstrip (w +:+ s) = lstrip s.
Proof.
  induction w as [|c w IH]; simpl; [reflexivity|].
  intros H. apply andb_true_iff in H as [-> Hw]. auto.
Qed.

Lemma rstrip_app_space s w : all_space w = true -> rstrip (s +:+ w) = rstrip s.
Proof.
  intros Hw. induction s as [|c s IH]; simpl.
  - now apply rstrip_all_space.
  - now rewrite IH.
Qed.

Lemma strip_app_space_r s w : all_space w = true -> strip (s +:+ w) = strip s.
Proof.
  intros Hw. unfold strip. induction s as [|c s IH]; simpl.
  - now rewrite lstrip_all_space.
  - destruct (isspace c); [apply IH|].
    change (String c (s +:+ w)) with (String c s +:+ w).
    now apply rstrip_app_space.
Qed.

Lemma strip_core l c r :
  all_space l = true -> all_space r = true -> strip (l +:+ c +:+ r) = strip c.
Proof.
  intros Hl Hr. unfold strip. rewrite lstrip_app_space by assumption.
  now apply strip_app_space_r.
Qed.

(** Normalisation identifies names equal up to white space and case. *)
Lemma normalise_equal a b :
  equal_up_to_space_and_case a b -> lower (strip a) = lower (strip b).
Proof.
  intros (la & ca & ra & lb & cb & rb & -> & -> & Hla & Hra & Hlb & Hrb & Hc).
  rewrite !strip_core by assumption.
  rewrite !lower_strip. f_equal. now apply same_letters_lower.
Qed.

End PyStrFacts.

(** ** The lookup of main-card transactions *)

Lemma is_nil_filter {A} (f : A -> bool) (l : list A) :
  is_nil (List.filter f l) = negb (existsb f l).
Proof.
  induction l as [|x l IH]; simpl; [reflexivity|].
  destruct (f x); simpl; [reflexivity | exact IH].
Qed.

Lemma or_str_some (s : string) : or_str (Some s) "" = s.
Proof. destruct s; reflexivity. Qed.

Lemma index_fold_lookup (l : list txn) (k : key) :
  forall idx : gmap key (list txn),
    default [] (fold_left
        (fun idx t => <[key_for t := default [] (idx !! key_for t) ++ [t]]> idx)
        l idx !! k)
    = default [] (idx !! k)
      ++ List.filter (fun m => bool_decide (key_for m = k)) l.
Proof.
  induction l as [|t l IH]; intros idx; simpl.
  - now rewrite app_nil_r.
  - rewrite IH. destruct (decide (key_for t = k)) as [Heq|Hne].
    + rewrite bool_decide_eq_true_2 by exact Heq.
      rewrite Heq, lookup_insert_eq. simpl. now rewrite <- app_assoc.
    + rewrite bool_decide_eq_false_2 by exact Hne.
      now rewrite lookup_insert_ne.
Qed.

(** The bucket of a key holds the main-card transactions with that key,
    in the order of the list. *)
Lemma main_index_lookup (main_txns : list txn) (addl : txn) :
  default [] (main_index main_txns !! key_for addl) = bucket main_txns addl.
Proof.
  unfold main_index, bucket. rewrite index_fold_lookup.
  now rewrite lookup_empty.
Qed.

(** ** The loop body and the decisions *)

Section Runs.
Context {Remote : Type} `{!Gql Remote}.
Implicit Types (w : world Remote) (rs : list request).

Lemma bind_ret {A} (c : M Remote A) w :
  bind c (fun a => ret a) w = c w.
Proof. unfold bind, ret. destruct (c w) as [[a|e] w']; reflexivity. Qed.

Lemma set_owners_send_all (mains : list txn) w :
  for_each (fun m _ => set_owner_shared (t_id m)) mains tt w
  = send_all (map (fun m => Web_UpdateTransactionOverview (t_id m)) mains) w.
Proof.
  unfold send_all. revert w. induction mains as [|m mains IH]; intros w; simpl.
  - reflexivity.
  - unfold bind. destruct (set_owner_shared (t_id m) w) as [[[]|e] w']; auto.
Qed.

Lemma tag_as_synced_send_all (tag_id : string) (addl : txn) w :
  tag_as_synced tag_id addl w = send_all (tagging tag_id addl) w.
Proof.
  unfold tag_as_synced, tagging, send_all, add_sync_tag.
  destruct (bool_decide _); simpl; [reflexivity|].
  now rewrite bind_ret.
Qed.

Lemma send_all_app rs1 rs2 w :
  send_all (rs1 ++ rs2) w = bind (send_all rs1) (fun _ => send_all rs2) w.
Proof.
  unfold send_all, bind. revert w.
  induction rs1 as [|r rs1 IH]; intros w; simpl; [reflexivity|].
  unfold bind. destruct (send r w) as [[[]|e] w']; [apply IH | reflexivity].
Qed.

(** The loop body of the script is the decision followed by its
    mutations. *)
Lemma process_decide_and_apply (cfg : config) (tag_id : string)
    (main_txns : list txn) (addl : txn) (c : counters) w :
  process cfg tag_id (main_index main_txns) addl c w
  = decide_and_apply cfg tag_id main_txns addl c w.
Proof.
  unfold process, decide_and_apply, plan, classify.
  rewrite main_index_lookup, or_str_some, is_nil_filter, negb_involutive.
  destruct (is_nil (bucket main_txns addl)) eqn:Hnil; [reflexivity|].
  destruct (existsb is_shared (bucket main_txns addl)) eqn:Hsh;
    unfold bind; destruct (print _ w) as [[[]|e] w']; try reflexivity;
    destruct (DRY_RUN cfg); try reflexivity.
  - now rewrite tag_as_synced_send_all.
  - rewrite send_all_app, set_owners_send_all. unfold bind.
    destruct (send_all _ w') as [[[]|e] w'']; [|reflexivity].
    now rewrite tag_as_synced_send_all.
Qed.

Lemma apply_all_app rs1 rs2 (s : Remote) :
  apply_all (rs1 ++ rs2) s = apply_all rs2 (apply_all rs1 s).
Proof. unfold apply_all. apply fold_left_app. Qed.

(** A mutation sent is recorded and applied, whether it returns or raises;
    nothing is printed. *)
Lemma send_run r w :
  is_mutation r = true ->
  stdout (snd (send r w)) = stdout w /\
  requests (snd (send r w)) = requests w ++ [r] /\
  remote (snd (send r w)) = apply r (remote w).
Proof.
  destruct r as [a o l|l|txn_id|txn_id tag_ids]; simpl; try discriminate;
    intros _; unfold set_owner_shared, update_tags_replace, gql.
  - destruct (updateTransaction txn_id (remote w)); simpl; auto.
  - destruct (setTransactionTags txn_id tag_ids (remote w)); simpl; auto.
Qed.

(** Mutations are sent in order up to the first that raises. *)
Lemma send_all_run rs : forall w res w',
  Forall (fun r => is_mutation r = true) rs ->
  send_all rs w = (res, w') ->
  stdout w' = stdout w /\
  exists sent, sent `prefix_of` rs /\
    requests w' = requests w ++ sent /\
    remote w' = apply_all sent (remote w) /\
    (is_ok res = true -> sent = rs).
Proof.
  unfold send_all. induction rs as [|r rs IH]; intros w res w' Hmut Hrun.
  - simpl in Hrun. injection Hrun as <- <-. split; [reflexivity|].
    exists []. rewrite app_nil_r. auto using prefix_nil.
  - apply Forall_cons in Hmut as [Hr Hrs].
    destruct (send_run r w Hr) as (Hout & Hreq & Hrem).
    simpl in Hrun. unfold bind in Hrun.
    destruct (send r w) as [[[]|e] w1]; simpl in Hout, Hreq, Hrem.
    + destruct (IH w1 res w' Hrs Hrun) as (Hout' & sent & Hpre & Hreq' & Hrem' & Hok).
      split; [congruence|]. exists (r :: sent).
      split; [now apply prefix_cons|].
      split; [rewrite Hreq', Hreq, <- app_assoc; reflexivity|].
      split; [rewrite Hrem', Hrem; reflexivity|].
      intros H. f_equal. auto.
    + injection Hrun as <- <-. split; [exact Hout|].
      exists [r]. split; [apply prefix_cons, prefix_nil|].
      split; [exact Hreq|]. split; [simpl; now rewrite Hrem | discriminate].
Qed.

Lemma send_all_accepted rs : forall w,
  accepts_mutations Remote ->
  Forall (fun r => is_mutation r = true) rs ->
  is_ok (fst (send_all rs w)) = true.
Proof.
  unfold send_all. induction rs as [|r rs IH]; intros w Hacc Hmut; [reflexivity|].
  apply Forall_cons in Hmut as [Hr Hrs]. simpl. unfold bind.
  assert (Hsend : fst (send r w) = Ok tt).
  { destruct (Hacc (remote w)) as [Hu Hs].
    destruct r as [a o l|l|txn_id|txn_id tag_ids]; try discriminate; simpl;
      unfold set_owner_shared, update_tags_replace, gql.
    - specialize (Hu txn_id). now destruct (updateTransaction _ _).
    - specialize (Hs txn_id tag_ids). now destruct (setTransactionTags _ _ _). }
  destruct (send r w) as [res w1]. simpl in Hsend. subst res. now apply IH.
Qed.

Lemma tagging_mutations (tag_id : string) (addl : txn) :
  Forall (fun r => is_mutation r = true) (tagging tag_id addl).
Proof.
  unfold tagging. destruct (bool_decide _); repeat constructor.
Qed.

Lemma plan_mutations (tag_id : string) (main_txns : list txn) (addl : txn) :
  Forall (fun r => is_mutation r = true) (plan tag_id main_txns addl).
Proof.
  unfold plan. destruct (classify main_txns addl).
  - constructor.
  - apply tagging_mutations.
  - apply Forall_app. split; [|apply tagging_mutations].
    apply Forall_forall. intros r Hr. apply list_elem_of_In, in_map_iff in Hr as (m & <- & _).
    reflexivity.
Qed.

Lemma classifications_app (out1 out2 : list line) :
  classifications (out1 ++ out2) = classifications out1 ++ classifications out2.
Proof. apply omap_app. Qed.

(** One iteration of the loop: the classification is logged once; the
    requests sent are the first of those planned, all of them when the
    iteration returns, and then the classification is counted. *)
Lemma decide_and_apply_run (cfg : config) (tag_id : string)
    (main_txns : list txn) (addl : txn) (c : counters) w res w' :
  decide_and_apply cfg tag_id main_txns addl c w = (res, w') ->
  classifications (stdout w')
    = classifications (stdout w) ++ [classify main_txns addl] /\
  (exists sent, sent `prefix_of` planned cfg tag_id main_txns addl /\
     requests w' = requests w ++ sent /\
     remote w' = apply_all sent (remote w) /\
     (is_ok res = true -> sent = planned cfg tag_id main_txns addl)) /\
  (forall c', res = Ok c' -> c' = count (classify main_txns addl) c).
Proof.
  unfold decide_and_apply, planned. intros Hrun.
  pose proof (plan_mutations tag_id main_txns addl) as Hmut.
  unfold plan in *. unfold bind, print, ret in Hrun. simpl in Hrun.
  assert (Hnone : forall l, classification_of l = None ->
            classifications ((stdout w ++
              [Classified (classify main_txns addl) (t_date addl) (t_amount addl)
                 (merchant_name addl) (t_description addl)]) ++ [l])
            = classifications (stdout w) ++ [classify main_txns addl]).
  { intros l Hl. rewrite !classifications_app. unfold classifications. cbn.
    rewrite Hl. now rewrite app_nil_r. }
  assert (Hsame : classifications (stdout w ++
              [Classified (classify main_txns addl) (t_date addl) (t_amount addl)
                 (merchant_name addl) (t_description addl)])
            = classifications (stdout w) ++ [classify main_txns addl]).
  { now rewrite classifications_app. }
  destruct (classify main_txns addl) eqn:Hcls.
  - injection Hrun as <- <-. simpl. split; [exact Hsame|]. split.
    + exists []. rewrite app_nil_r.
      destruct (DRY_RUN cfg); auto using prefix_nil.
    + intros c' [= <-]. reflexivity.
  - destruct (DRY_RUN cfg).
    + injection Hrun as <- <-. simpl. split; [now apply Hnone|]. split.
      * exists []. rewrite app_nil_r. auto using prefix_nil.
      * intros c' [= <-]. reflexivity.
    + destruct (send_all _ _) as [[[]|e] w1] eqn:Hsend;
        apply send_all_run in Hsend as (Hout & sent & Hpre & Hreq & Hrem & Hok);
        try exact Hmut; simpl in Hout, Hreq, Hrem;
        injection Hrun as <- <-; simpl.
      * split; [rewrite Hout; now apply Hnone|]. split.
        -- exists sent. auto.
        -- intros c' [= <-]. reflexivity.
      * split; [rewrite Hout; exact Hsame|]. split.
        -- exists sent. split; [exact Hpre|]. split; [exact Hreq|].
           split; [exact Hrem | discriminate].
        -- discriminate.
  - destruct (DRY_RUN cfg).
    + injection Hrun as <- <-. simpl. split; [now apply Hnone|]. split.
      * exists []. rewrite app_nil_r. auto using prefix_nil.
      * intros c' [= <-]. reflexivity.
    + destruct (send_all _ _) as [[[]|e] w1] eqn:Hsend;
        apply send_all_run in Hsend as (Hout & sent & Hpre & Hreq & Hrem & Hok);
        try exact Hmut; simpl in Hout, Hreq, Hrem;
        injection Hrun as <- <-; simpl.
      * split; [rewrite Hout; now apply Hnone|]. split.
        -- exists sent. auto.
        -- intros c' [= <-]. reflexivity.
      * split; [rewrite Hout; exact Hsame|]. split.
        -- exists sent. split; [exact Hpre|]. split; [exact Hreq|].
           split; [exact Hrem | discriminate].
        -- discriminate.
Qed.

(** The loop over the candidates: the candidates seen are classified in
    order, the requests sent are the first of those planned, and when the
    loop returns every candidate has been seen, every planned request sent,
    and the counters are the tally. *)
Lemma loop_run (cfg : config) (tag_id : string) (main_txns : list txn)
    (candidates : list txn) : forall c w res w',
  for_each (process cfg tag_id (main_index main_txns)) candidates c w = (res, w') ->
  exists seen sent,
    seen `prefix_of` candidates /\
    classifications (stdout w')
      = classifications (stdout w) ++ map (classify main_txns) seen /\
    sent `prefix_of` all_planned cfg tag_id main_txns candidates /\
    requests w' = requests w ++ sent /\
    remote w' = apply_all sent (remote w) /\
    (forall c', res = Ok c' ->
       c' = tally main_txns candidates c /\ seen = candidates /\
       sent = all_planned cfg tag_id main_txns candidates).
Proof.
  unfold all_planned.
  induction candidates as [|a l IH]; intros c w res w' Hrun; simpl in Hrun.
  - injection Hrun as <- <-. exists [], []. rewrite !app_nil_r.
    split; [apply prefix_nil|]. split; [reflexivity|].
    split; [apply prefix_nil|]. split; [reflexivity|]. split; [reflexivity|].
    intros c' [= <-]. auto.
  - unfold bind in Hrun. rewrite process_decide_and_apply in Hrun.
    destruct (decide_and_apply cfg tag_id main_txns a c w) as [[c1|e] w1] eqn:Hone;
      apply decide_and_apply_run in Hone
        as (Hcls & (sent1 & Hpre1 & Hreq1 & Hrem1 & Hok1) & Hcount).
    + specialize (Hok1 eq_refl). specialize (Hcount c1 eq_refl). subst sent1 c1.
      destruct (IH _ _ _ _ Hrun) as (seen & sent & Hseen & Hcls' & Hpre & Hreq & Hrem & Hok).
      exists (a :: seen), (planned cfg tag_id main_txns a ++ sent).
      split; [now apply prefix_cons|].
      split; [rewrite Hcls', Hcls, <- app_assoc; reflexivity|].
      split; [simpl; now apply prefix_app|].
      split; [rewrite Hreq, Hreq1, <- app_assoc; reflexivity|].
      split; [rewrite Hrem, Hrem1, apply_all_app; reflexivity|].
      intros c' Hc'. destruct (Hok c' Hc') as (-> & -> & ->). auto.
    + injection Hrun as <- <-. exists [a], sent1.
      split; [apply prefix_cons, prefix_nil|]. split; [exact Hcls|].
      split; [simpl; now apply prefix_app_r|]. split; [exact Hreq1|].
      split; [exact Hrem1 | discriminate].
Qed.

Lemma all_planned_dry (cfg : config) (tag_id : string)
    (main_txns candidates : list txn) :
  DRY_RUN cfg = true -> all_planned cfg tag_id main_txns candidates = [].
Proof.
  intros Hdry. unfold all_planned, planned. rewrite Hdry.
  induction candidates; simpl; auto.
Qed.

Lemma all_planned_live (cfg : config) (tag_id : string)
    (main_txns candidates : list txn) :
  DRY_RUN cfg = false ->
  all_planned cfg tag_id main_txns candidates = plans tag_id main_txns candidates.
Proof. intros Hlive. unfold all_planned, planned, plans. now rewrite Hlive. Qed.

Lemma all_planned_mutations (cfg : config) (tag_id : string)
    (main_txns candidates : list txn) :
  Forall (fun r => is_mutation r = true)
         (all_planned cfg tag_id main_txns candidates).
Proof.
  unfold all_planned. induction candidates as [|a l IH]; simpl; [constructor|].
  apply Forall_app. split; [|exact IH].
  unfold planned. destruct (DRY_RUN cfg); [constructor | apply plan_mutations].
Qed.

(** An iteration returns in a dry run, and in a live run when the remote
    service accepts the mutations. *)
Lemma decide_and_apply_returns (cfg : config) (tag_id : string)
    (main_txns : list txn) (addl : txn) (c : counters) w :
  DRY_RUN cfg = true \/ accepts_mutations Remote ->
  is_ok (fst (decide_and_apply cfg tag_id main_txns addl c w)) = true.
Proof.
  intros Hmode. unfold decide_and_apply, bind, print, ret. simpl.
  destruct (classify main_txns addl) eqn:Hcls; [reflexivity| |];
    (destruct (DRY_RUN cfg); [reflexivity|]);
    (destruct Hmode as [Hdry|Hacc]; [discriminate|]);
    pose proof (send_all_accepted (plan tag_id main_txns addl)
                  {| remote := remote w; requests := requests w;
                     stdout := stdout w ++
                       [Classified (classify main_txns addl) (t_date addl)
                          (t_amount addl) (merchant_name addl)
                          (t_description addl)] |}
                  Hacc (plan_mutations _ _ _)) as Hsend;
    rewrite Hcls in Hsend;
    destruct (send_all _ _) as [[[]|e] w1]; [reflexivity|discriminate|reflexivity|discriminate].
Qed.

Lemma loop_returns (cfg : config) (tag_id : string) (main_txns : list txn)
    (candidates : list txn) : forall c w,
  DRY_RUN cfg = true \/ accepts_mutations Remote ->
  is_ok (fst (for_each (process cfg tag_id (main_index main_txns)) candidates c w))
  = true.
Proof.
  induction candidates as [|a l IH]; intros c w Hmode; simpl; [reflexivity|].
  unfold bind. rewrite process_decide_and_apply.
  pose proof (decide_and_apply_returns cfg tag_id main_txns a c w Hmode) as Hone.
  destruct (decide_and_apply _ _ _ _ _ _) as [[c1|e] w1]; [|discriminate].
  now apply IH.
Qed.

(** The reconciliation is the loop between the line that counts the
    candidates and the summary, which is printed when the loop returns. *)
Lemma reconcile_loop (cfg : config) (tag_id : string)
    (main_txns addl_txns : list txn) w :
  let candidates := addl_candidates (SYNC_TAG_NAME cfg) addl_txns in
  reconcile cfg tag_id main_txns addl_txns w
  = match for_each (process cfg tag_id (main_index main_txns)) candidates zero
            {| remote := remote w; requests := requests w;
               stdout := stdout w
                 ++ [Candidates (SYNC_TAG_NAME cfg) (length candidates)] |} with
    | (Ok c, w1) =>
        (Ok c, {| remote := remote w1; requests := requests w1;
                  stdout := stdout w1 ++ summary cfg c |})
    | (Raise e, w1) => (Raise e, w1)
    end.
Proof.
  unfold reconcile, summary, bind, print, ret, zero. simpl.
  destruct (for_each _ _ _ _) as [[c|e] w1]; [|reflexivity].
  destruct (DRY_RUN cfg); simpl; rewrite <- ?app_assoc; simpl;
    now rewrite ?app_nil_r.
Qed.

Lemma classifications_summary (cfg : config) (c : counters) :
  classifications (summary cfg c) = [].
Proof. unfold summary. now destruct (DRY_RUN cfg). Qed.

Lemma reconcile_run (cfg : config) (tag_id : string)
    (main_txns addl_txns : list txn) w res w' :
  reconcile cfg tag_id main_txns addl_txns w = (res, w') ->
  exists seen sent,
    seen `prefix_of` addl_candidates (SYNC_TAG_NAME cfg) addl_txns /\
    classifications (stdout w')
      = classifications (stdout w) ++ map (classify main_txns) seen /\
    sent `prefix_of` all_planned cfg tag_id main_txns
                       (addl_candidates (SYNC_TAG_NAME cfg) addl_txns) /\
    requests w' = requests w ++ sent /\
    remote w' = apply_all sent (remote w) /\
    (forall c', res = Ok c' ->
       c' = tally main_txns (addl_candidates (SYNC_TAG_NAME cfg) addl_txns) zero /\
       seen = addl_candidates (SYNC_TAG_NAME cfg) addl_txns /\
       sent = all_planned cfg tag_id main_txns
                (addl_candidates (SYNC_TAG_NAME cfg) addl_txns)).
Proof.
  rewrite reconcile_loop. cbv zeta.
  destruct (for_each _ _ _ _) as [r w1] eqn:Hloop.
  apply loop_run in Hloop
    as (seen & sent & Hseen & Hcls & Hpre & Hreq & Hrem & Hok).
  simpl in Hcls, Hreq, Hrem. rewrite classifications_app in Hcls.
  change (classifications [Candidates _ _]) with (@nil classification) in Hcls.
  rewrite app_nil_r in Hcls.
  intros Hrun. exists seen, sent.
  destruct r as [c|e]; injection Hrun as <- <-; simpl.
  - rewrite classifications_app, classifications_summary, app_nil_r.
    repeat (split; [assumption|]). intros c' [= <-]. now apply Hok.
  - repeat (split; [assumption|]). discriminate.
Qed.

Lemma reconcile_returns (cfg : config) (tag_id : string)
    (main_txns addl_txns : list txn) w :
  DRY_RUN cfg = true \/ accepts_mutations Remote ->
  is_ok (fst (reconcile cfg tag_id main_txns addl_txns w)) = true.
Proof.
  intros Hmode. rewrite reconcile_loop. cbv zeta.
  pose proof (loop_returns cfg tag_id main_txns
                (addl_candidates (SYNC_TAG_NAME cfg) addl_txns) zero
                {| remote := remote w; requests := requests w;
                   stdout := stdout w ++ [Candidates (SYNC_TAG_NAME cfg)
                     (length (addl_candidates (SYNC_TAG_NAME cfg) addl_txns))] |}
                Hmode) as Hloop.
  destruct (for_each _ _ _ _) as [[c|e] w1]; [reflexivity | discriminate].
Qed.

Lemma reconcile_ok (cfg : config) (tag_id : string)
    (main_txns addl_txns : list txn) w c w' :
  reconcile cfg tag_id main_txns addl_txns w = (Ok c, w') ->
  c = tally main_txns (addl_candidates (SYNC_TAG_NAME cfg) addl_txns) zero /\
  classifications (stdout w')
    = classifications (stdout w)
      ++ map (classify main_txns) (addl_candidates (SYNC_TAG_NAME cfg) addl_txns) /\
  requests w' = requests w
    ++ all_planned cfg tag_id main_txns
         (addl_candidates (SYNC_TAG_NAME cfg) addl_txns) /\
  remote w' = apply_all (all_planned cfg tag_id main_txns
                           (addl_candidates (SYNC_TAG_NAME cfg) addl_txns))
                        (remote w).
Proof.
  intros Hrun. apply reconcile_run in Hrun
    as (seen & sent & _ & Hcls & _ & Hreq & Hrem & Hok).
  destruct (Hok c eq_refl) as (-> & -> & ->). auto.
Qed.

Lemma reconcile_total (cfg : config) (tag_id : string)
    (main_txns addl_txns : list txn) w :
  DRY_RUN cfg = true \/ accepts_mutations Remote ->
  exists c w', reconcile cfg tag_id main_txns addl_txns w = (Ok c, w').
Proof.
  intros Hmode.
  pose proof (reconcile_returns cfg tag_id main_txns addl_txns w Hmode) as Hret.
  destruct (reconcile _ _ _ _ _) as [[c|e] w']; [eauto | discriminate].
Qed.

Lemma process_run (cfg : config) (tag_id : string)
    (main_txns : list txn) (addl : txn) (c : counters) w res w' :
  process cfg tag_id (main_index main_txns) addl c w = (res, w') ->
  classifications (stdout w')
    = classifications (stdout w) ++ [classify main_txns addl] /\
  (exists sent, sent `prefix_of` planned cfg tag_id main_txns addl /\
     requests w' = requests w ++ sent /\
     remote w' = apply_all sent (remote w) /\
     (is_ok res = true -> sent = planned cfg tag_id main_txns addl)) /\
  (forall c', res = Ok c' -> c' = count (classify main_txns addl) c).
Proof. rewrite process_decide_and_apply. apply decide_and_apply_run. Qed.

Lemma process_total (cfg : config) (tag_id : string)
    (main_txns : list txn) (addl : txn) (c : counters) w :
  DRY_RUN cfg = true \/ accepts_mutations Remote ->
  exists w',
    process cfg tag_id (main_index main_txns) addl c w
    = (Ok (count (classify main_txns addl) c), w') /\
    requests w' = requests w ++ planned cfg tag_id main_txns addl.
Proof.
  intros Hmode.
  pose proof (decide_and_apply_returns cfg tag_id main_txns addl c w Hmode) as Hret.
  rewrite <- process_decide_and_apply in Hret.
  destruct (process _ _ _ _ _ _) as [[c'|e] w'] eqn:Hrun; [|discriminate].
  apply process_run in Hrun as (_ & (sent & _ & Hreq & _ & Hok) & Hc).
  exists w'. rewrite (Hc c' eq_refl), Hreq, (Hok eq_refl). auto.
Qed.

End Runs.

(** ** The matching key *)

Lemma in_bucket (main_txns : list txn) (m addl : txn) :
  In m (bucket main_txns addl) <-> In m main_txns /\ key_for m = key_for addl.
Proof.
  unfold bucket. rewrite filter_In, bool_decide_eq_true. reflexivity.
Qed.

(** C4: the matching key of a transaction is the triple of its date, its
    amount and its merchant name stripped and lower-cased, so two
    transactions with the same date and amount whose merchant names are
    equal up to leading and trailing white space and letter case have the
    same key; and the lookup of the main-card list finds, for an
    additional-card transaction, the main-card transactions whose key,
    computed by the same [key_for], is its own. *)
Theorem key_for_normalised (a b : txn) (main_txns : list txn) :
  t_date a = t_date b ->
  t_amount a = t_amount b ->
  PyStr.equal_up_to_space_and_case (merchant_name a) (merchant_name b) ->
  key_for a = (t_date a, t_amount a, PyStr.lower (PyStr.strip (merchant_name a))) /\
  key_for a = key_for b /\
  default [] (main_index main_txns !! key_for b)
    = List.filter (fun m => bool_decide (key_for m = key_for b)) main_txns /\
  (In a main_txns -> In a (default [] (main_index main_txns !! key_for b))).
Proof.
  intros Hdate Hamount Hname.
  assert (Hkey : key_for a = key_for b).
  { unfold key_for. rewrite Hdate, Hamount.
    now rewrite (PyStrFacts.normalise_equal _ _ Hname). }
  split; [reflexivity|]. split; [exact Hkey|].
  rewrite main_index_lookup. split; [reflexivity|].
  intros Hin. apply in_bucket. auto.
Qed.

(** C9: a transaction with no merchant, or whose merchant has no name, has
    the empty string as the merchant part of its key; so an additional-card
    transaction and a main-card transaction that both lack a merchant name
    and have the same date and amount have the same key, the main-card one
    is in the bucket of the additional-card one, and the latter is not
    classified as without match. *)
Theorem key_for_without_merchant (a m : txn) (main_txns : list txn) :
  (t_merchant a = None \/ t_merchant a = Some {| m_name := None |}) ->
  (t_merchant m = None \/ t_merchant m = Some {| m_name := None |}) ->
  t_date a = t_date m ->
  t_amount a = t_amount m ->
  In m main_txns ->
  key_for a = (t_date a, t_amount a, "") /\
  key_for m = key_for a /\
  In m (default [] (main_index main_txns !! key_for a)) /\
  classify main_txns a <> NO_MATCH.
Proof.
  intros Ha Hm Hdate Hamount Hin.
  assert (Hna : merchant_name a = "").
  { unfold merchant_name. now destruct Ha as [-> | ->]. }
  assert (Hnm : merchant_name m = "").
  { unfold merchant_name. now destruct Hm as [-> | ->]. }
  assert (Hkey : key_for m = key_for a).
  { unfold key_for. now rewrite Hna, Hnm, Hdate, Hamount. }
  assert (Hb : In m (bucket main_txns a)) by (apply in_bucket; auto).
  split; [unfold key_for; now rewrite Hna|]. split; [exact Hkey|].
  split; [now rewrite main_index_lookup|].
  unfold classify. destruct (bucket main_txns a) as [|x l]; [destruct Hb|].
  simpl. now destruct (is_shared x || existsb is_shared l).
Qed.

(** ** The run mode *)

Lemma lower_false (s : string) :
  PyStr.lower s = "false" <->
  exists f a l s' e,
    s = String f (String a (String l (String s' (String e "")))) /\
    (f = "f" \/ f = "F")%char /\ (a = "a" \/ a = "A")%char /\
    (l = "l" \/ l = "L")%char /\ (s' = "s" \/ s' = "S")%char /\
    (e = "e" \/ e = "E")%char.
Proof.
  assert (Hchar : forall c x : ascii,
            In x ["f"; "a"; "l"; "s"; "e"]%char ->
            PyStr.lower_char c = x ->
            c = x \/ c = ascii_of_N (N_of_ascii x - 32)).
  { intros c x Hx Hc. simpl in Hx.
    destruct Hx as [<-|[<-|[<-|[<-|[<-|[]]]]]];
      destruct c as [[] [] [] [] [] [] [] []]; try discriminate Hc; auto. }
  split.
  - destruct s as [|f [|a [|l [|s' [|e [|x s]]]]]]; try discriminate.
    simpl. intros [= Hf Ha Hl Hs He].
    exists f, a, l, s', e. split; [reflexivity|].
    apply Hchar in Hf, Ha, Hl, Hs, He; simpl; auto 10.
  - intros (f & a & l & s' & e & -> & Hf & Ha & Hl & Hs & He).
    destruct Hf as [-> | ->], Ha as [-> | ->], Hl as [-> | ->],
             Hs as [-> | ->], He as [-> | ->]; reflexivity.
Qed.

(** C10: the run is a dry run for every value of the environment variable
    [DRY_RUN], unset and empty included, except the values that lower-case
    to ["false"], which are the five letters f, a, l, s, e each in either
    case; and a dry run sends no request, so only a run with such a value
    sends mutations. *)
Theorem dry_run_by_default (environ : gmap string string) :
  (DRY_RUN (load_config environ) = false <->
   exists v, environ !! "DRY_RUN" = Some v /\ PyStr.lower v = "false") /\
  (forall v, PyStr.lower v = "false" <->
     exists f a l s e,
       v = String f (String a (String l (String s (String e "")))) /\
       (f = "f" \/ f = "F")%char /\ (a = "a" \/ a = "A")%char /\
       (l = "l" \/ l = "L")%char /\ (s = "s" \/ s = "S")%char /\
       (e = "e" \/ e = "E")%char) /\
  dry_run_flag None = true /\
  dry_run_flag (Some "") = true /\
  dry_run_flag (Some "flase") = true /\
  dry_run_flag (Some "False") = false /\
  (DRY_RUN (load_config environ) = true ->
   forall (Remote : Type) (service : Gql Remote) (tag_id : string)
          (main_txns addl_txns : list txn) (w : world Remote),
     requests (snd (reconcile (load_config environ) tag_id main_txns addl_txns w))
     = requests w).
Proof.
  split; [|split; [exact lower_false | repeat split]].
  - unfold load_config, dry_run_flag. simpl.
    destruct (environ !! "DRY_RUN") as [v|]; simpl.
    + rewrite negb_false_iff, String.eqb_eq. split.
      * intros H. exists v. auto.
      * now intros (v' & [= <-] & H).
    + split; [discriminate | now intros (v & [=] & _)].
  - intros Hdry Remote HGql tag_id main_txns addl_txns w.
    destruct (reconcile_total (load_config environ) tag_id main_txns addl_txns w
                (or_introl Hdry)) as (c & w' & Hrun).
    rewrite Hrun. apply reconcile_ok in Hrun as (_ & _ & Hreq & _).
    rewrite all_planned_dry in Hreq by exact Hdry.
    simpl. now rewrite Hreq, app_nil_r.
Qed.

(** ** Classification of a candidate *)

Lemma is_shared_owner (m : txn) : is_shared m = true <-> t_owner m = SHARED.
Proof. unfold is_shared. destruct (t_owner m); simpl; split; congruence. Qed.

Lemma classify_new_shared (main_txns : list txn) (addl : txn) :
  bucket main_txns addl <> [] ->
  Forall (fun m => t_owner m = INDIVIDUAL) (bucket main_txns addl) ->
  classify main_txns addl = NEW_SHARED.
Proof.
  intros Hne Hind. unfold classify.
  destruct (bucket main_txns addl) as [|x l] eqn:Hb; [congruence|].
  cbn [is_nil].
  destruct (existsb is_shared (x :: l)) eqn:Hex; [|reflexivity].
  apply existsb_exists in Hex as (m & Hin & Hsh).
  apply is_shared_owner in Hsh.
  rewrite Forall_forall in Hind. apply list_elem_of_In, Hind in Hin. congruence.
Qed.

Lemma classify_existing_shared (main_txns : list txn) (addl m : txn) :
  In m (bucket main_txns addl) -> t_owner m = SHARED ->
  classify main_txns addl = EXISTING_SHARED.
Proof.
  intros Hin Hsh. unfold classify.
  assert (Hex : existsb is_shared (bucket main_txns addl) = true).
  { apply existsb_exists. exists m. split; [exact Hin|]. now apply is_shared_owner. }
  rewrite Hex. destruct (bucket main_txns addl); [destruct Hin | reflexivity].
Qed.

Lemma tally_total (main_txns candidates : list txn) : forall c,
  total (tally main_txns candidates c) = total c + length candidates.
Proof.
  induction candidates as [|a l IH]; intros c; simpl.
  - unfold total. lia.
  - rewrite IH. unfold total, count.
    destruct (classify main_txns a); simpl; lia.
Qed.

(** C1, as the script has it: for an additional-card transaction whose
    bucket is not empty and holds no shared transaction, the script logs
    NEW_SHARED, in either mode; in a live run on a service that accepts the
    mutations it counts it as such and sends one request that clears the
    owner for each transaction of the bucket, in the order of the bucket,
    and after them the request that sets the tags to the existing
    identifiers followed by that of the sync tag, unless that identifier is
    already among them, in which case no tag request is sent. In
    particular, with two individually owned main-card transactions of one
    key, a single candidate of that key and the sync identifier not among
    those of its tags, the live run sends exactly three requests: the two
    that clear the owner, then the one that sets the tags. *)
Theorem new_shared_mutations {Remote : Type} `{!Gql Remote}
    (cfg : config) (tag_id : string) (w : world Remote) :
  (forall (main_txns : list txn) (addl : txn) (c : counters),
     bucket main_txns addl <> [] ->
     Forall (fun m => t_owner m = INDIVIDUAL) (bucket main_txns addl) ->
     (forall res w',
        process cfg tag_id (main_index main_txns) addl c w = (res, w') ->
        classifications (stdout w') = classifications (stdout w) ++ [NEW_SHARED]) /\
     (DRY_RUN cfg = false -> accepts_mutations Remote ->
      exists w',
        process cfg tag_id (main_index main_txns) addl c w
        = (Ok (count NEW_SHARED c), w') /\
        requests w' = requests w
          ++ map (fun m => Web_UpdateTransactionOverview (t_id m))
                 (bucket main_txns addl)
          ++ (if bool_decide (tag_id ∈ map tg_id (t_tags addl)) then []
              else [Web_SetTransactionTags (t_id addl)
                      (map tg_id (t_tags addl) ++ [tag_id])]))) /\
  (forall m1 m2 addl : txn,
     key_for m1 = key_for addl -> key_for m2 = key_for addl ->
     t_owner m1 = INDIVIDUAL -> t_owner m2 = INDIVIDUAL ->
     has_sync_tag addl (SYNC_TAG_NAME cfg) = false ->
     ~ In tag_id (map tg_id (t_tags addl)) ->
     DRY_RUN cfg = false -> accepts_mutations Remote ->
     exists w',
       reconcile cfg tag_id [m1; m2] [addl] w = (Ok (count NEW_SHARED zero), w') /\
       requests w' = requests w
         ++ [Web_UpdateTransactionOverview (t_id m1);
             Web_UpdateTransactionOverview (t_id m2);
             Web_SetTransactionTags (t_id addl)
               (map tg_id (t_tags addl) ++ [tag_id])]).
Proof.
  split.
  - intros main_txns addl c Hne Hind.
    pose proof (classify_new_shared _ _ Hne Hind) as Hcls. split.
    + intros res w' Hrun. apply process_run in Hrun as (H & _).
      now rewrite Hcls in H.
    + intros Hlive Hacc.
      destruct (process_total cfg tag_id main_txns addl c w (or_intror Hacc))
        as (w' & Hrun & Hreq).
      exists w'. rewrite Hcls in Hrun. split; [exact Hrun|].
      rewrite Hreq. unfold planned, plan. now rewrite Hlive, Hcls.
  - intros m1 m2 addl Hk1 Hk2 Ho1 Ho2 Htag Hid Hlive Hacc.
    assert (Hb : bucket [m1; m2] addl = [m1; m2]).
    { unfold bucket. simpl. now rewrite !bool_decide_eq_true_2 by assumption. }
    assert (Hcls : classify [m1; m2] addl = NEW_SHARED).
    { apply classify_new_shared; rewrite Hb; [discriminate|].
      repeat constructor; assumption. }
    assert (Hcands : addl_candidates (SYNC_TAG_NAME cfg) [addl] = [addl]).
    { unfold addl_candidates. simpl. now rewrite Htag. }
    destruct (reconcile_total cfg tag_id [m1; m2] [addl] w (or_intror Hacc))
      as (c & w' & Hrun).
    destruct (reconcile_ok _ _ _ _ _ _ _ Hrun) as (Hc & _ & Hreq & _).
    rewrite Hcands in Hc, Hreq. simpl in Hc. rewrite Hcls in Hc. subst c.
    exists w'. split; [exact Hrun|]. rewrite Hreq. f_equal.
    unfold all_planned, planned, plan, tagging. rewrite Hlive.
    cbn [map concat]. rewrite Hcls, Hb, app_nil_r.
    rewrite bool_decide_eq_false_2 by now rewrite list_elem_of_In.
    reflexivity.
Qed.

(** C2, as the script has it: for an additional-card transaction whose
    bucket holds a shared transaction, the script logs EXISTING_SHARED, in
    either mode; in a live run on a service that accepts the mutations it
    counts it as such and sends a single request, which sets the tags of
    the transaction to the existing identifiers followed by that of the
    sync tag, unless that identifier is already among them, in which case
    it sends none; it sends no request that clears an owner. *)
Theorem existing_shared_mutations {Remote : Type} `{!Gql Remote}
    (cfg : config) (tag_id : string) (main_txns : list txn) (addl m : txn)
    (c : counters) (w : world Remote) :
  In m (bucket main_txns addl) ->
  t_owner m = SHARED ->
  (forall res w',
     process cfg tag_id (main_index main_txns) addl c w = (res, w') ->
     classifications (stdout w')
       = classifications (stdout w) ++ [EXISTING_SHARED]) /\
  (DRY_RUN cfg = false -> accepts_mutations Remote ->
   exists w',
     process cfg tag_id (main_index main_txns) addl c w
     = (Ok (count EXISTING_SHARED c), w') /\
     requests w' = requests w
       ++ (if bool_decide (tag_id ∈ map tg_id (t_tags addl)) then []
           else [Web_SetTransactionTags (t_id addl)
                   (map tg_id (t_tags addl) ++ [tag_id])])).
Proof.
  intros Hin Hsh.
  pose proof (classify_existing_shared _ _ _ Hin Hsh) as Hcls. split.
  - intros res w' Hrun. apply process_run in Hrun as (H & _).
    now rewrite Hcls in H.
  - intros Hlive Hacc.
    destruct (process_total cfg tag_id main_txns addl c w (or_intror Hacc))
      as (w' & Hrun & Hreq).
    exists w'. rewrite Hcls in Hrun. split; [exact Hrun|].
    rewrite Hreq. unfold planned, plan. now rewrite Hlive, Hcls.
Qed.

(** C5: whatever the lists, the sync tag and the remote service, the
    dry run returns, sends no request (so neither of the two mutations) and
    leaves the service as it is; a live run on the same input that returns
    has the same counters and logs the same classifications in the same
    order; and the live run returns when the service accepts the
    mutations. *)
Theorem dry_run_same_outcome {Remote : Type} `{!Gql Remote}
    (cfg : config) (tag_id : string) (main_txns addl_txns : list txn)
    (w : world Remote) :
  exists c wd,
    reconcile (with_dry_run true cfg) tag_id main_txns addl_txns w = (Ok c, wd) /\
    requests wd = requests w /\
    remote wd = remote w /\
    (forall c' wl,
       reconcile (with_dry_run false cfg) tag_id main_txns addl_txns w
       = (Ok c', wl) ->
       c' = c /\ classifications (stdout wl) = classifications (stdout wd)) /\
    (accepts_mutations Remote ->
     exists c' wl,
       reconcile (with_dry_run false cfg) tag_id main_txns addl_txns w
       = (Ok c', wl)).
Proof.
  destruct (reconcile_total (with_dry_run true cfg) tag_id main_txns addl_txns w
              (or_introl eq_refl)) as (c & wd & Hdry).
  exists c, wd. split; [exact Hdry|].
  apply reconcile_ok in Hdry as (Hc & Hcls & Hreq & Hrem).
  rewrite all_planned_dry in Hreq, Hrem by reflexivity.
  rewrite app_nil_r in Hreq. split; [exact Hreq|]. split; [exact Hrem|]. split.
  - intros c' wl Hlive.
    apply reconcile_ok in Hlive as (Hc' & Hcls' & _).
    cbn [SYNC_TAG_NAME with_dry_run] in *. split; congruence.
  - intros Hacc. apply reconcile_total. now right.
Qed.

(** C8: a dry run returns, and so does a live run on a service that
    accepts the mutations; and when a run returns, in either mode, the
    three counters add up to the number of candidates, and the run has
    logged one classification for each candidate, in order. *)
Theorem counters_add_up {Remote : Type} `{!Gql Remote}
    (cfg : config) (tag_id : string) (main_txns addl_txns : list txn)
    (w : world Remote) :
  (DRY_RUN cfg = true \/ accepts_mutations Remote ->
   exists c w', reconcile cfg tag_id main_txns addl_txns w = (Ok c, w')) /\
  (forall c w',
     reconcile cfg tag_id main_txns addl_txns w = (Ok c, w') ->
     count_synced_existing_shared c + count_synced_new_shared c + count_no_match c
     = length (addl_candidates (SYNC_TAG_NAME cfg) addl_txns) /\
     classifications (stdout w')
     = classifications (stdout w)
       ++ map (classify main_txns) (addl_candidates (SYNC_TAG_NAME cfg) addl_txns)).
Proof.
  split; [apply reconcile_total|].
  intros c w' Hrun. apply reconcile_ok in Hrun as (Hc & Hcls & _).
  split; [|exact Hcls].
  pose proof (tally_total main_txns
                (addl_candidates (SYNC_TAG_NAME cfg) addl_txns) zero) as Htot.
  rewrite <- Hc in Htot. exact Htot.
Qed.

(** ** The label resolver *)

Lemma same_letter_iff_lower (x y : ascii) :
  PyStr.same_letter x y = true <-> PyStr.lower_char x = PyStr.lower_char y.
Proof.
  assert (Hall : forallb (fun a => forallb (fun b =>
            Bool.eqb (PyStr.same_letter a b)
                     (Ascii.eqb (PyStr.lower_char a) (PyStr.lower_char b)))
            PyStr.all_chars) PyStr.all_chars = true) by (vm_compute; reflexivity).
  pose proof (proj1 (forallb_forall _ _) Hall x (PyStrFacts.in_all_chars x)) as Hx.
  pose proof (proj1 (forallb_forall _ _) Hx y (PyStrFacts.in_all_chars y)) as Hy.
  simpl in Hy. apply Bool.eqb_prop in Hy. rewrite Hy. apply Ascii.eqb_eq.
Qed.

(** Comparing the lower-cased strings is comparing up to letter case. *)
Lemma lower_eq_same_letters (a : string) : forall b,
  PyStr.lower a = PyStr.lower b <-> PyStr.same_letters a b = true.
Proof.
  induction a as [|x a IH]; intros [|y b]; simpl; split; try discriminate; auto.
  - intros [= Hxy Hab]. apply andb_true_iff. split.
    + now apply same_letter_iff_lower.
    + now apply IH.
  - intros H. apply andb_true_iff in H as [Hxy Hab].
    f_equal; [now apply same_letter_iff_lower | now apply IH].
Qed.

Lemma eqb_lower_same_letters (a b : string) :
  String.eqb (PyStr.lower a) (PyStr.lower b) = PyStr.same_letters a b.
Proof.
  destruct (PyStr.same_letters a b) eqn:H.
  - apply String.eqb_eq. now apply lower_eq_same_letters.
  - apply String.eqb_neq. intros Heq. apply lower_eq_same_letters in Heq. congruence.
Qed.

Lemma find_first {A} (f : A -> bool) (l : list A) :
  match find f l with
  | Some x => exists before after,
                l = before ++ x :: after /\ f x = true /\
                forall y, In y before -> f y = false
  | None => forall y, In y l -> f y = false
  end.
Proof.
  induction l as [|a l IH]; simpl.
  - intros y [].
  - destruct (f a) eqn:Hfa.
    + exists [], l. split; [reflexivity|]. split; [exact Hfa|]. intros y [].
    + destruct (find f l) as [x|].
      * destruct IH as (before & after & -> & Hfx & Hbefore).
        exists (a :: before), after. split; [reflexivity|]. split; [exact Hfx|].
        intros y [<-|Hy]; auto.
      * intros y [<-|Hy]; auto.
Qed.

(** C6: the resolver sends one request, the query of the household tags
    with limit 500, prints nothing and sends no mutation; when the query
    raises so does the resolver; otherwise, in the list of tags the query
    returns, it returns the identifier of the first tag whose name equals
    the name given up to letter case, and when no tag of the list has such
    a name it raises an error whose message names the tag and asks to
    create it in Monarch first. On a ledger the list is that of the first
    500 tags of the household: the resolver returns the identifier of the
    first of them with the name and raises that error when none of them
    has it, and so searches the whole household when it has 500 tags at
    most; the ledger, and so the tags of the household, are left as they
    are. *)
Theorem ensure_tag_id_resolves :
  (forall (Remote : Type) (service : Gql Remote) (name : string)
          (w : world Remote),
     requests (snd (ensure_tag_id name w))
       = requests w ++ [GetHouseholdTransactionTags 500] /\
     mutations (snd (ensure_tag_id name w)) = mutations w /\
     stdout (snd (ensure_tag_id name w)) = stdout w /\
     remote (snd (ensure_tag_id name w))
       = snd (householdTransactionTags 500 (remote w)) /\
     (forall e, fst (householdTransactionTags 500 (remote w)) = Raise e ->
        fst (ensure_tag_id name w) = Raise e) /\
     (forall data, fst (householdTransactionTags 500 (remote w)) = Ok data ->
        (forall t, In t (default [] data) ->
           PyStr.same_letters (tg_name t) name = true ->
           exists before t0 after,
             default [] data = before ++ t0 :: after /\
             PyStr.same_letters (tg_name t0) name = true /\
             (forall x, In x before -> PyStr.same_letters (tg_name x) name = false) /\
             fst (ensure_tag_id name w) = Ok (tg_id t0)) /\
        ((forall t, In t (default [] data) ->
            PyStr.same_letters (tg_name t) name = false) ->
         fst (ensure_tag_id name w)
         = Raise (RuntimeError
             ("Tag '" +:+ name +:+ "' not found in householdTransactionTags. "
              +:+ "Please create it in Monarch first (e.g. as a transaction tag) and rerun."))))) /\
  (forall (name : string) (w : world Ledger.ledger),
     remote (snd (ensure_tag_id name w)) = remote w /\
     (forall t, In t (take 500 (Ledger.household_tags (remote w))) ->
        PyStr.same_letters (tg_name t) name = true ->
        exists before t0 after,
          take 500 (Ledger.household_tags (remote w)) = before ++ t0 :: after /\
          PyStr.same_letters (tg_name t0) name = true /\
          (forall x, In x before -> PyStr.same_letters (tg_name x) name = false) /\
          fst (ensure_tag_id name w) = Ok (tg_id t0)) /\
     ((forall t, In t (take 500 (Ledger.household_tags (remote w))) ->
         PyStr.same_letters (tg_name t) name = false) ->
      fst (ensure_tag_id name w) = Raise (RuntimeError (tag_not_found name))) /\
     (length (Ledger.household_tags (remote w)) <= 500 ->
      (forall t, In t (Ledger.household_tags (remote w)) ->
         PyStr.same_letters (tg_name t) name = true ->
         exists t0,
           In t0 (Ledger.household_tags (remote w)) /\
           PyStr.same_letters (tg_name t0) name = true /\
           fst (ensure_tag_id name w) = Ok (tg_id t0)) /\
      ((forall t, In t (Ledger.household_tags (remote w)) ->
          PyStr.same_letters (tg_name t) name = false) ->
       fst (ensure_tag_id name w) = Raise (RuntimeError (tag_not_found name))))).
Proof.
  assert (Hgen : forall (Remote : Type) (service : Gql Remote) (name : string)
                        (w : world Remote) data,
            fst (householdTransactionTags 500 (remote w)) = Ok data ->
            (forall t, In t (default [] data) ->
               PyStr.same_letters (tg_name t) name = true ->
               exists before t0 after,
                 default [] data = before ++ t0 :: after /\
                 PyStr.same_letters (tg_name t0) name = true /\
                 (forall x, In x before ->
                    PyStr.same_letters (tg_name x) name = false) /\
                 fst (ensure_tag_id name w) = Ok (tg_id t0)) /\
            ((forall t, In t (default [] data) ->
                PyStr.same_letters (tg_name t) name = false) ->
             fst (ensure_tag_id name w) = Raise (RuntimeError (tag_not_found name)))).
  { intros Remote service name w data. unfold ensure_tag_id, bind, gql.
    destruct (householdTransactionTags 500 (remote w)) as [[data'|e] s]; simpl;
      [|discriminate].
    intros [= <-].
    pose proof (find_first
        (fun t => String.eqb (PyStr.lower (tg_name t)) (PyStr.lower name))
        (default [] data')) as Hfind.
    destruct (find _ (default [] data')) as [t0|]; unfold ret, raise; simpl.
    - destruct Hfind as (before & after & Hl & Ht0 & Hbefore).
      rewrite eqb_lower_same_letters in Ht0. split.
      + intros _ _ _. exists before, t0, after. split; [exact Hl|].
        split; [exact Ht0|]. split; [|reflexivity].
        intros x Hx. rewrite <- eqb_lower_same_letters. now apply Hbefore.
      + intros Hnone. rewrite Hnone in Ht0; [discriminate|].
        rewrite Hl. apply in_elt.
    - split; [|reflexivity].
      intros t Hin Hsame. apply Hfind in Hin.
      rewrite eqb_lower_same_letters in Hin. congruence. }
  split.
  - intros Remote service name w.
    assert (Hworld :
              requests (snd (ensure_tag_id name w))
              = requests w ++ [GetHouseholdTransactionTags 500] /\
              mutations (snd (ensure_tag_id name w)) = mutations w /\
              stdout (snd (ensure_tag_id name w)) = stdout w /\
              remote (snd (ensure_tag_id name w))
              = snd (householdTransactionTags 500 (remote w)) /\
              (forall e, fst (householdTransactionTags 500 (remote w)) = Raise e ->
                 fst (ensure_tag_id name w) = Raise e)).
    { unfold ensure_tag_id, bind, gql, mutations.
      destruct (householdTransactionTags 500 (remote w)) as [[data|e] s]; simpl.
      - destruct (find _ (default [] data)); unfold ret, raise; simpl;
          rewrite List.filter_app, app_nil_r; repeat (split; [reflexivity|]);
          discriminate.
      - rewrite List.filter_app, app_nil_r. repeat (split; [reflexivity|]).
        now intros e' [= <-]. }
    destruct Hworld as (H1 & H2 & H3 & H4 & H5).
    split; [exact H1|]. split; [exact H2|]. split; [exact H3|].
    split; [exact H4|]. split; [exact H5|].
    intros data Hdata. exact (Hgen Remote service name w data Hdata).
  - intros name w.
    assert (Hquery : fst (householdTransactionTags 500 (remote w))
                     = Ok (Some (take 500 (Ledger.household_tags (remote w)))))
      by reflexivity.
    destruct (Hgen Ledger.ledger _ name w _ Hquery) as [Hfound Hnone].
    cbn [default from_option id] in Hfound, Hnone.
    split.
    { unfold ensure_tag_id, bind, gql. simpl. now destruct (find _ _). }
    split; [exact Hfound|]. split; [exact Hnone|].
    intros Hlen.
    assert (Htake : take 500 (Ledger.household_tags (remote w))
                    = Ledger.household_tags (remote w))
      by (apply firstn_all2; exact Hlen).
    split.
    + intros t Hin Hsame. rewrite <- Htake in Hin.
      destruct (Hfound t Hin Hsame) as (before & t0 & after & Hl & Ht0 & _ & Hres).
      exists t0. split; [rewrite <- Htake, Hl; apply in_elt|].
      split; [exact Ht0 | exact Hres].
    + intros Hall. apply Hnone. intros t Hin. apply Hall. now rewrite <- Htake.
Qed.

(** ** The fetcher *)

Section Fetch.
Context {Remote : Type} `{!Gql Remote}.

(** A fetch that returns has read successive pages up to the first that
    ends the loop, and returns their records in order after those it
    started with. *)
Lemma fetch_loop_pages (account_id : string) (fuel : nat) :
  forall (offset : Z) (acc : list txn) (w : world Remote) txns w',
    fetch_loop fuel account_id offset acc w = Some (Ok txns, w') ->
    exists pages,
      fetches account_id offset w pages w' /\ txns = acc ++ records pages.
Proof.
  induction fuel as [|fuel IH]; intros offset acc w txns w' Hrun; [discriminate|].
  simpl in Hrun.
  destruct (gql _ _ w) as [[data|e] w1] eqn:Hpage; [|discriminate].
  fold (reported_total data) in Hrun. fold (last_page data offset) in Hrun.
  destruct (last_page data offset) eqn:Hlast.
  - injection Hrun as <- <-. exists [data]. split.
    + now apply fetches_last.
    + unfold records. simpl. now rewrite app_nil_r.
  - apply IH in Hrun as (pages & Hpages & ->).
    exists (data :: pages). split.
    + now apply fetches_next with (w' := w1).
    + unfold records. simpl. now rewrite <- app_assoc.
Qed.

(** With the reported totals bounded in the states the source goes
    through, the loop ends within the fuel left above the offset. *)
Lemma fetch_loop_terminates (account_id : string) (bound : Z)
    (inv : Remote -> Prop) :
  (forall offset s,
     inv s ->
     inv (snd (allTransactions account_id offset 200 s)) /\
     forall data, fst (allTransactions account_id offset 200 s) = Ok data ->
                  (reported_total data <= bound)%Z) ->
  forall (fuel : nat) (offset : Z) (acc : list txn) (w : world Remote),
    inv (remote w) ->
    Z.to_nat (bound - offset) < fuel ->
    exists res w', fetch_loop fuel account_id offset acc w = Some (res, w').
Proof.
  intros Hbound. induction fuel as [|fuel IH]; intros offset acc w Hinv Hfuel; [lia|].
  simpl. unfold gql.
  destruct (Hbound offset (remote w) Hinv) as [Hinv' Htotal].
  destruct (allTransactions account_id offset 200 (remote w)) as [[data|e] s];
    [|eauto].
  specialize (Htotal data eq_refl). unfold reported_total in Htotal.
  destruct (Z.leb_spec (or_int (totalSelectableCount data)
                               (or_int (totalCount data) 0))
                       (offset + Z.of_nat (length (results data)))) as [Hle|Hgt];
    simpl; [eauto|].
  destruct (results data) as [|t batch] eqn:Hbatch; simpl; [eauto|].
  apply IH; [exact Hinv'|]. simpl length in *. lia.
Qed.

End Fetch.

(** C7, as the script has it: for every source whose reported totals do
    not exceed some bound in the states it goes through during the fetch,
    the fetch returns or raises within as many iterations as the bound
    plus one; when it returns, it has requested successive pages, each at
    the offset advanced by the number of records of the pages before, has
    stopped at the first page that brings the offset to the reported total
    or holds no record, and returns the records of all the pages in the
    order fetched. *)
Theorem fetch_transactions_terminates {Remote : Type} `{!Gql Remote}
    (account_id : string) (bound : Z) (inv : Remote -> Prop)
    (w : world Remote) :
  inv (remote w) ->
  (forall offset s,
     inv s ->
     inv (snd (allTransactions account_id offset 200 s)) /\
     forall data, fst (allTransactions account_id offset 200 s) = Ok data ->
                  (reported_total data <= bound)%Z) ->
  exists res w',
    fetch_transactions (S (Z.to_nat bound)) account_id w = Some (res, w') /\
    (forall txns, res = Ok txns ->
       exists pages, fetches account_id 0 w pages w' /\ txns = records pages).
Proof.
  intros Hinv Hbound. unfold fetch_transactions.
  destruct (fetch_loop_terminates account_id bound inv Hbound
              (S (Z.to_nat bound)) 0 [] w Hinv) as (res & w' & Hrun).
  { rewrite Z.sub_0_r. lia. }
  exists res, w'. split; [exact Hrun|].
  intros txns ->. now apply fetch_loop_pages in Hrun.
Qed.

Lemma fetch_transactions_terminates_witness :
  exists res w',
    fetch_transactions 3 "main" (Ledger.start Example.two_individual)
    = Some (res, w') /\
    (forall txns, res = Ok txns ->
       exists pages,
         fetches "main" 0 (Ledger.start Example.two_individual) pages w' /\
         txns = records pages).
Proof.
  apply (fetch_transactions_terminates "main" 2
           (fun s => s = Example.two_individual)
           (Ledger.start Example.two_individual) eq_refl).
  intros offset s ->. split; [reflexivity|].
  intros data [= <-]. vm_compute. discriminate.
Defined.

Lemma fetch_ahead_never_ends (fuel : nat) :
  forall (offset : Z) (acc : list txn) (w : world Ahead.source),
    (0 <= offset)%Z -> fetch_loop fuel "main" offset acc w = None.
Proof.
  induction fuel as [|fuel IH]; intros offset acc w Hoff; [reflexivity|].
  simpl. unfold or_int.
  destruct (Z.eqb_spec (offset + 2) 0) as [H0|_]; [lia|].
  destruct (Z.leb_spec (offset + 2) (offset + Z.of_nat 1)) as [Hle|_]; [lia|].
  simpl. apply IH. lia.
Qed.

(** A source that answers every request with one record and a total two
    above the offset: no amount of fuel lets the fetch end. *)
Lemma fetch_ahead_diverges :
  ~ exists fuel res, fetch_transactions fuel "main" Ahead.start = Some res.
Proof.
  intros (fuel & res & Hrun). unfold fetch_transactions in Hrun.
  rewrite fetch_ahead_never_ends in Hrun by lia. discriminate.
Qed.

(** ** Runs on a ledger *)

Module LedgerFacts.
Import Ledger.

Lemma apply_ledger (r : request) (L : ledger) :
  apply r L
  = {| transactions :=
         map (fun p => (fst p, step (household_tags L) r (snd p))) (transactions L);
       household_tags := household_tags L |}.
Proof.
  assert (Hid : forall l : list (string * raw_txn),
            map (fun p => (fst p, snd p)) l = l).
  { induction l as [|[a t] l IH]; simpl; congruence. }
  destruct L as [txns cat].
  destruct r as [a o l|l|txn_id|txn_id tag_ids]; simpl; unfold update; simpl;
    rewrite ?Hid; try reflexivity; f_equal; apply map_ext; intros [a t]; simpl;
    now destruct (String.eqb (r_id t) txn_id).
Qed.

Lemma apply_all_ledger (rs : list request) : forall L : ledger,
  apply_all rs L
  = {| transactions :=
         map (fun p => (fst p, steps (household_tags L) rs (snd p))) (transactions L);
       household_tags := household_tags L |}.
Proof.
  unfold apply_all, steps.
  induction rs as [|r rs IH]; intros L; simpl.
  - destruct L as [txns cat]. simpl. f_equal.
    induction txns as [|[a t] l IHl]; simpl; congruence.
  - rewrite IH, apply_ledger. simpl. now rewrite map_map.
Qed.

Lemma account_apply_all (rs : list request) (L : ledger) (account_id : string) :
  account (apply_all rs L) account_id
  = map (steps (household_tags L) rs) (account L account_id).
Proof.
  rewrite apply_all_ledger. unfold account. simpl.
  induction (transactions L) as [|[a t] l IH]; simpl; [reflexivity|].
  destruct (String.eqb a account_id); simpl; now rewrite IH.
Qed.

Lemma snapshot_apply_all (rs : list request) (L : ledger) (account_id : string) :
  snapshot (apply_all rs L) account_id
  = map (fun t => normalized (steps (household_tags L) rs t)) (account L account_id).
Proof. unfold snapshot. now rewrite account_apply_all, map_map. Qed.

Lemma household_tags_apply_all (rs : list request) (L : ledger) :
  household_tags (apply_all rs L) = household_tags L.
Proof. now rewrite apply_all_ledger. Qed.

Section Steps.
Variable catalog : list tag.

Lemma steps_snoc (rs : list request) (r : request) (t : raw_txn) :
  steps catalog (rs ++ [r]) t = step catalog r (steps catalog rs t).
Proof. unfold steps. now rewrite fold_left_app. Qed.

(** A request leaves the identifier, the date, the amount and the merchant
    of a transaction as they are. *)
Lemma step_same (r : request) (t : raw_txn) :
  r_id (step catalog r t) = r_id t /\
  r_date (step catalog r t) = r_date t /\
  r_amount (step catalog r t) = r_amount t /\
  r_merchant (step catalog r t) = r_merchant t.
Proof.
  destruct r as [a o l|l|txn_id|txn_id tag_ids]; simpl; auto;
    destruct (String.eqb (r_id t) txn_id); simpl; auto.
Qed.

Lemma steps_same (rs : list request) (t : raw_txn) :
  r_id (steps catalog rs t) = r_id t /\
  r_date (steps catalog rs t) = r_date t /\
  r_amount (steps catalog rs t) = r_amount t /\
  r_merchant (steps catalog rs t) = r_merchant t.
Proof.
  induction rs as [|r rs IH] using rev_ind; [auto|].
  rewrite steps_snoc.
  destruct (step_same r (steps catalog rs t)) as (H1 & H2 & H3 & H4).
  destruct IH as (I1 & I2 & I3 & I4). repeat split; congruence.
Qed.

Lemma steps_key (rs : list request) (t : raw_txn) :
  key_for (normalized (steps catalog rs t)) = key_for (normalized t).
Proof.
  destruct (steps_same rs t) as (_ & H2 & H3 & H4).
  unfold key_for, merchant_name, normalized. simpl. now rewrite H2, H3, H4.
Qed.

(** A transaction without owner stays so. *)
Lemma steps_owner_none (rs : list request) (t : raw_txn) :
  r_ownedByUser t = None -> r_ownedByUser (steps catalog rs t) = None.
Proof.
  intros Hnone. induction rs as [|r rs IH] using rev_ind; [exact Hnone|].
  rewrite steps_snoc.
  destruct r as [a o l|l|txn_id|txn_id tag_ids]; simpl; auto;
    destruct (String.eqb _ txn_id); simpl; auto.
Qed.

(** A transaction whose owner a request clears has no owner afterwards. *)
Lemma steps_owner_cleared (rs : list request) (t : raw_txn) :
  In (Web_UpdateTransactionOverview (r_id t)) rs ->
  r_ownedByUser (steps catalog rs t) = None.
Proof.
  induction rs as [|r rs IH] using rev_ind; [intros []|].
  intros Hin. rewrite steps_snoc. apply in_app_or in Hin as [Hin|[Hr|[]]].
  - specialize (IH Hin).
    destruct r as [a o l|l|txn_id|txn_id tag_ids]; simpl; auto;
      destruct (String.eqb _ txn_id); simpl; auto.
  - subst r. simpl. destruct (steps_same rs t) as (-> & _).
    now rewrite String.eqb_refl.
Qed.

(** The tags of a transaction stay as they are when no request sets
    them. *)
Lemma steps_tags_kept (rs : list request) (t : raw_txn) :
  (forall tag_ids, ~ In (Web_SetTransactionTags (r_id t) tag_ids) rs) ->
  r_tags (steps catalog rs t) = r_tags t.
Proof.
  induction rs as [|r rs IH] using rev_ind; [reflexivity|].
  intros Hnot. rewrite steps_snoc.
  assert (Hrs : forall tag_ids, ~ In (Web_SetTransactionTags (r_id t) tag_ids) rs).
  { intros tag_ids Hin. apply (Hnot tag_ids), in_or_app. now left. }
  specialize (IH Hrs).
  destruct r as [a o l|l|txn_id|txn_id tag_ids]; simpl; auto.
  - destruct (String.eqb _ txn_id); simpl; auto.
  - destruct (String.eqb_spec (r_id (steps catalog rs t)) txn_id) as [Heq|_]; auto.
    exfalso. destruct (steps_same rs t) as (Hid & _). rewrite Hid in Heq.
    apply (Hnot tag_ids), in_or_app. right. left. now rewrite Heq.
Qed.

(** The tags of a transaction that some request sets are those of the
    identifiers of one of the requests. *)
Lemma steps_tags_set (rs : list request) (t : raw_txn) :
  (exists tag_ids, In (Web_SetTransactionTags (r_id t) tag_ids) rs) ->
  exists tag_ids,
    In (Web_SetTransactionTags (r_id t) tag_ids) rs /\
    r_tags (steps catalog rs t) = Some (tags_of_ids catalog tag_ids).
Proof.
  induction rs as [|r rs IH] using rev_ind; [intros (? & [])|].
  intros (tag_ids & Hin). rewrite steps_snoc.
  destruct (steps_same rs t) as (Hid & _).
  assert (Hkeep : r_tags (step catalog r (steps catalog rs t))
                  = r_tags (steps catalog rs t) \/
                  exists ids, r = Web_SetTransactionTags (r_id t) ids /\
                    r_tags (step catalog r (steps catalog rs t))
                    = Some (tags_of_ids catalog ids)).
  { destruct r as [a o l|l|txn_id|txn_id ids]; simpl; auto.
    - destruct (String.eqb _ txn_id); simpl; auto.
    - destruct (String.eqb_spec (r_id (steps catalog rs t)) txn_id) as [Heq|_]; auto.
      right. exists ids. rewrite <- Heq, Hid. auto. }
  destruct Hkeep as [Hkeep|(ids & -> & Hset)].
  - apply in_app_or in Hin as [Hin|[Hr|[]]].
    + destruct (IH (ex_intro _ tag_ids Hin)) as (ids & Hids & Htags).
      exists ids. split; [apply in_or_app; now left | congruence].
    + subst r. simpl in Hkeep. rewrite Hid, String.eqb_refl in Hkeep. simpl in Hkeep.
      exists tag_ids. split; [apply in_or_app; right; now left|].
      simpl. now rewrite Hid, String.eqb_refl.
  - exists ids. split; [apply in_or_app; right; now left | exact Hset].
Qed.

End Steps.

Lemma has_sync_tag_in (t : txn) (name : string) :
  has_sync_tag t name = true <->
  exists g, In g (t_tags t) /\ PyStr.same_letters (tg_name g) name = true.
Proof.
  unfold has_sync_tag. rewrite existsb_exists.
  split; intros (g & Hin & Hg); exists g; split; auto;
    now rewrite eqb_lower_same_letters in *.
Qed.

Lemma in_plans (tag_id : string) (main_txns candidates : list txn) (r : request) :
  In r (plans tag_id main_txns candidates) <->
  exists a, In a candidates /\ In r (plan tag_id main_txns a).
Proof.
  unfold plans. rewrite in_concat. split.
  - intros (l & Hl & Hr). apply in_map_iff in Hl as (a & <- & Ha). eauto.
  - intros (a & Ha & Hr). exists (plan tag_id main_txns a). split; [|exact Hr].
    apply in_map_iff. eauto.
Qed.

Lemma in_tagging (tag_id : string) (a : txn) (r : request) :
  In r (tagging tag_id a) <->
  r = add_sync_tag tag_id a /\ ~ In tag_id (map tg_id (t_tags a)).
Proof.
  unfold tagging. case_bool_decide as Hid; rewrite list_elem_of_In in Hid; simpl.
  - split; [intros [] | intros [_ Hn]; contradiction].
  - split; [intros [<-|[]]; auto | intros [-> _]; auto].
Qed.

(** A request of a plan that sets tags sets them to a list that holds the
    identifier of the sync tag. *)
Lemma plan_set_tags (tag_id : string) (main_txns : list txn) (a : txn)
    (txn_id : string) (tag_ids : list string) :
  In (Web_SetTransactionTags txn_id tag_ids) (plan tag_id main_txns a) ->
  In tag_id tag_ids.
Proof.
  assert (Htag : In (Web_SetTransactionTags txn_id tag_ids) (tagging tag_id a) ->
                 In tag_id tag_ids).
  { intros Hin. apply in_tagging in Hin as [[= _ ->] _].
    apply in_or_app. right. now left. }
  unfold plan. destruct (classify main_txns a); [intros [] | exact Htag |].
  intros Hin. apply in_app_or in Hin as [Hin|Hin]; [|auto].
  apply in_map_iff in Hin as (m & [=] & _).
Qed.

Lemma plan_tagged (tag_id : string) (main_txns : list txn) (a : txn) :
  classify main_txns a <> NO_MATCH ->
  ~ In tag_id (map tg_id (t_tags a)) ->
  In (add_sync_tag tag_id a) (plan tag_id main_txns a).
Proof.
  intros Hcls Hid.
  assert (Htag : In (add_sync_tag tag_id a) (tagging tag_id a))
    by now apply in_tagging.
  unfold plan. destruct (classify main_txns a); [congruence | exact Htag |].
  apply in_or_app. now right.
Qed.

Lemma plan_owner (tag_id : string) (main_txns : list txn) (a m : txn) :
  classify main_txns a = NEW_SHARED ->
  In m (bucket main_txns a) ->
  In (Web_UpdateTransactionOverview (t_id m)) (plan tag_id main_txns a).
Proof.
  intros Hcls Hin. unfold plan. rewrite Hcls. apply in_or_app. left.
  apply in_map_iff. eauto.
Qed.

Lemma NoDup_map_eq {A B} (f : A -> B) (l : list A) (x y : A) :
  List.NoDup (map f l) -> In x l -> In y l -> f x = f y -> x = y.
Proof.
  induction l as [|a l IH]; simpl; [intros _ []|].
  intros Hnd Hx Hy Hf. inversion Hnd as [|? ? Hnotin Hnd']; subst.
  destruct Hx as [->|Hx], Hy as [->|Hy]; auto.
  - exfalso. apply Hnotin. rewrite Hf. now apply in_map.
  - exfalso. apply Hnotin. rewrite <- Hf. now apply in_map.
Qed.

(** With distinct identifiers in the household, the identifier the
    resolver returns is, in the ledger, that of a tag with the name. *)
Lemma resolved_on_ledger (name : string) (w : world ledger) (tag_id : string) :
  fst (ensure_tag_id name w) = Ok tag_id ->
  List.NoDup (map tg_id (household_tags (remote w))) ->
  exists g, tag_of_id (household_tags (remote w)) tag_id = Some g /\
            PyStr.same_letters (tg_name g) name = true.
Proof.
  unfold ensure_tag_id, bind, gql. simpl.
  set (cat := household_tags (remote w)).
  destruct (find _ (take _ cat)) as [g0|] eqn:Hfind; [|discriminate].
  unfold ret. simpl. intros [= <-] Hnd.
  apply find_some in Hfind as [Hin0 Hname].
  rewrite eqb_lower_same_letters in Hname.
  assert (Hcat : In g0 cat).
  { rewrite <- (take_drop (Z.to_nat 500) cat). apply in_or_app. now left. }
  unfold tag_of_id.
  destruct (find (fun g => String.eqb (tg_id g) (tg_id g0)) cat) as [g1|] eqn:Hid.
  - apply find_some in Hid as [Hin1 Heq]. apply String.eqb_eq in Heq.
    assert (g1 = g0) by (eapply NoDup_map_eq; eauto). subst g1. eauto.
  - apply find_none with (x := g0) in Hid; [|exact Hcat].
    now rewrite String.eqb_refl in Hid.
Qed.

Lemma in_tags_of_ids (catalog : list tag) (tag_ids : list string)
    (tag_id : string) (g : tag) :
  tag_of_id catalog tag_id = Some g -> In tag_id tag_ids ->
  In g (tags_of_ids catalog tag_ids).
Proof.
  intros Hg Hin. unfold tags_of_ids.
  apply list_elem_of_In, list_elem_of_omap. exists tag_id.
  split; [now apply list_elem_of_In | exact Hg].
Qed.

Lemma is_shared_normalized (t : raw_txn) :
  is_shared (normalized t) = true <-> r_ownedByUser t = None.
Proof.
  rewrite is_shared_owner. unfold normalized. simpl.
  destruct (r_ownedByUser t); split; congruence.
Qed.

Lemma filter_map_comm {A B} (f : B -> bool) (h : A -> B) (l : list A) :
  List.filter f (map h l) = map h (List.filter (fun x => f (h x)) l).
Proof.
  induction l as [|x l IH]; simpl; [reflexivity|].
  destruct (f (h x)); simpl; now rewrite IH.
Qed.

(** After a live run on a ledger, a second run with the lists as the
    ledger then has them plans no mutation for any candidate. *)
Lemma second_run_plans_nothing (L : ledger) (name tag_id : string)
    (main_account addl_account : string) (g : tag) :
  tag_of_id (household_tags L) tag_id = Some g ->
  PyStr.same_letters (tg_name g) name = true ->
  forall a',
    In a' (addl_candidates name
             (snapshot (apply_all
                          (plans tag_id (snapshot L main_account)
                             (addl_candidates name (snapshot L addl_account)))
                          L) addl_account)) ->
    plan tag_id
      (snapshot (apply_all
                   (plans tag_id (snapshot L main_account)
                      (addl_candidates name (snapshot L addl_account)))
                   L) main_account) a' = [].
Proof.
  intros Hg Hname a' Ha'.
  set (cat := household_tags L) in *.
  set (main0 := snapshot L main_account) in *.
  set (cands0 := addl_candidates name (snapshot L addl_account)) in *.
  set (R := plans tag_id main0 cands0) in *.
  unfold addl_candidates in Ha'. apply filter_In in Ha' as [Hin Hno].
  apply negb_true_iff in Hno.
  rewrite snapshot_apply_all in Hin. fold cat in Hin.
  apply in_map_iff in Hin as (ta & <- & Hta).
  set (h := fun t => normalized (steps cat R t)) in *.
  set (a := normalized ta).
  (* no request of the first run has set the tags of the candidate *)
  assert (Hnoset : forall ids, ~ In (Web_SetTransactionTags (r_id ta) ids) R).
  { intros ids Hset.
    destruct (steps_tags_set cat R ta (ex_intro _ ids Hset))
      as (ids' & Hin' & Htags).
    apply in_plans in Hin' as (x & _ & Hx). apply plan_set_tags in Hx.
    assert (Hhas : has_sync_tag (normalized (steps cat R ta)) name = true).
    { apply has_sync_tag_in. exists g. split; [|exact Hname].
      unfold normalized. simpl. rewrite Htags. simpl.
      now apply in_tags_of_ids with (tag_id := tag_id). }
    congruence. }
  assert (Htags : t_tags (h ta) = t_tags a).
  { unfold h, a, normalized. simpl. now rewrite steps_tags_kept. }
  assert (Hcand : In a cands0).
  { apply filter_In. split; [unfold snapshot; now apply in_map|].
    apply negb_true_iff. unfold has_sync_tag in *. now rewrite <- Htags. }
  (* the buckets of the two runs *)
  set (B := List.filter
              (fun t => bool_decide (key_for (normalized t) = key_for a))
              (account L main_account)).
  assert (Hb0 : bucket main0 a = map normalized B).
  { unfold bucket, main0, snapshot. now rewrite filter_map_comm. }
  assert (Hb1 : bucket (snapshot (apply_all R L) main_account) (h ta) = map h B).
  { unfold bucket. rewrite snapshot_apply_all. fold cat. fold h.
    rewrite filter_map_comm. f_equal. apply filter_ext. intros t.
    unfold h. now rewrite !steps_key. }
  change (normalized (steps cat R ta)) with (h ta).
  unfold plan, classify. rewrite Hb1.
  destruct B as [|t B'] eqn:HB; [reflexivity|]. cbn [map is_nil].
  (* the bucket is not empty: the tag request was skipped in the first run *)
  assert (Hcls0 : classify main0 a <> NO_MATCH).
  { unfold classify. rewrite Hb0. simpl.
    now destruct (is_shared (normalized t) || _). }
  assert (Hid : In tag_id (map tg_id (t_tags a))).
  { destruct (in_dec string_dec tag_id (map tg_id (t_tags a))) as [H|H]; [exact H|].
    exfalso. apply (Hnoset (map tg_id (t_tags a) ++ [tag_id])).
    apply in_plans. exists a. split; [exact Hcand|].
    exact (plan_tagged tag_id main0 a Hcls0 H). }
  assert (Hnotag : tagging tag_id (h ta) = []).
  { unfold tagging. rewrite Htags.
    rewrite bool_decide_eq_true_2; [reflexivity | now apply list_elem_of_In]. }
  rewrite Hnotag.
  (* and some transaction of the bucket is shared by now *)
  assert (Hshared : existsb is_shared (h t :: map h B') = true).
  { destruct (classify main0 a) eqn:Hc; [congruence| |].
    - unfold classify in Hc. rewrite Hb0 in Hc. cbn [map is_nil] in Hc.
      destruct (existsb is_shared (normalized t :: map normalized B')) eqn:Hex;
        [|discriminate].
      apply existsb_exists in Hex as (m & Hm & Hsh).
      change (normalized t :: map normalized B') with (map normalized (t :: B')) in Hm.
      apply in_map_iff in Hm as (t0 & <- & Ht0).
      apply existsb_exists. exists (h t0). split.
      + change (h t :: map h B') with (map h (t :: B')). now apply in_map.
      + unfold h. apply is_shared_normalized, steps_owner_none.
        now apply is_shared_normalized.
    - apply existsb_exists. exists (h t). split; [now left|].
      unfold h. apply is_shared_normalized, steps_owner_cleared.
      apply in_plans. exists a. split; [exact Hcand|].
      change (r_id t) with (t_id (normalized t)).
      apply plan_owner; [exact Hc|]. rewrite Hb0. now left. }
  rewrite Hshared. reflexivity.
Qed.

Lemma or_int_length {A} (l : list A) :
  or_int (Some (Z.of_nat (length l))) (or_int (Some (Z.of_nat (length l))) 0)
  = Z.of_nat (length l).
Proof.
  unfold or_int. destruct (Z.eqb_spec (Z.of_nat (length l)) 0) as [H0|_]; auto.
Qed.

(** On a ledger the loop of the fetcher reads the rest of the account
    page by page. *)
Lemma fetch_loop_ledger (account_id : string) (fuel : nat) :
  forall (k : nat) (w : world ledger),
    k <= length (account (remote w) account_id) ->
    length (account (remote w) account_id) - k < fuel ->
    exists w',
      fetch_loop fuel account_id (Z.of_nat k)
        (map normalized (take k (account (remote w) account_id))) w
      = Some (Ok (snapshot (remote w) account_id), w') /\
      remote w' = remote w /\ stdout w' = stdout w /\
      mutations w' = mutations w.
Proof.
  induction fuel as [|fuel IH]; intros k w Hk Hfuel; [lia|].
  set (l := account (remote w) account_id) in *.
  cbn [fetch_loop]. unfold gql. cbn [allTransactions ledger_gql].
  fold l. unfold page_of. cbn [results totalSelectableCount totalCount].
  rewrite or_int_length, Nat2Z.id. change (Z.to_nat 200) with 200.
  set (batch := take 200 (drop k l)).
  set (w1 := {| remote := remote w;
                requests := requests w
                  ++ [Web_GetTransactionsList account_id (Z.of_nat k) 200];
                stdout := stdout w |}).
  assert (Hmut : mutations w1 = mutations w).
  { unfold mutations, w1. simpl. now rewrite List.filter_app, app_nil_r. }
  assert (Hlen : length batch = Nat.min 200 (length l - k)).
  { unfold batch. now rewrite length_take, length_drop. }
  assert (Hacc : map normalized (take k l) ++ map normalized batch
                 = map normalized (take (k + 200) l)).
  { unfold batch. now rewrite <- map_app, take_take_drop. }
  rewrite Hacc.
  destruct (Z.leb_spec (Z.of_nat (length l)) (Z.of_nat k + Z.of_nat (length batch)))
    as [Hle|Hgt].
  - simpl. exists w1. split; [|auto].
    unfold snapshot. fold l. rewrite take_ge by lia. reflexivity.
  - destruct batch as [|t batch'] eqn:Hbatch; cbn [length] in Hlen, Hgt; [lia|].
    cbn [orb is_nil].
    replace (Z.of_nat k + Z.of_nat (length (t :: batch')))%Z
      with (Z.of_nat (k + 200)) by (cbn [length]; lia).
    destruct (IH (k + 200) w1) as (w' & Hrun & Hrem & Hout & Hmut');
      [simpl; fold l; lia ..|].
    exists w'. split; [exact Hrun|]. split; [exact Hrem|].
    split; [exact Hout | congruence].
Qed.

(** The fetcher returns the transactions of the account as the ledger
    has them, and changes nothing. *)
Lemma fetch_transactions_ledger (fuel : nat) (account_id : string)
    (w : world ledger) :
  length (account (remote w) account_id) < fuel ->
  exists w',
    fetch_transactions fuel account_id w
    = Some (Ok (snapshot (remote w) account_id), w') /\
    remote w' = remote w /\ stdout w' = stdout w /\
    mutations w' = mutations w.
Proof.
  intros Hfuel. unfold fetch_transactions.
  apply (fetch_loop_ledger account_id fuel 0 w); lia.
Qed.

Lemma ledger_accepts : accepts_mutations ledger.
Proof. intros s. split; reflexivity. Qed.

Lemma concat_map_nil {A B} (f : A -> list B) (l : list A) :
  (forall x, In x l -> f x = []) -> concat (map f l) = [].
Proof.
  induction l as [|x l IH]; intros Hall; simpl; [reflexivity|].
  rewrite (Hall x) by now left. apply IH. intros y Hy. apply Hall. now right.
Qed.

Lemma resolver_reads_tags (name : string) (w1 w2 : world ledger) :
  household_tags (remote w1) = household_tags (remote w2) ->
  fst (ensure_tag_id name w1) = fst (ensure_tag_id name w2).
Proof.
  intros Htags. unfold ensure_tag_id, bind, gql. simpl. rewrite Htags.
  now destruct (find _ _).
Qed.

(** On a ledger whose tags have distinct identifiers, a run with the
    identifier the resolver returns, on the accounts as the ledger has
    them, returns; and a run on the accounts as it has left them returns
    without sending any request. *)
Lemma rerun_sends_nothing (cfg : config) (w : world ledger)
    (main_account addl_account tag_id : string) :
  fst (ensure_tag_id (SYNC_TAG_NAME cfg) w) = Ok tag_id ->
  List.NoDup (map tg_id (household_tags (remote w))) ->
  exists c1 w1,
    reconcile cfg tag_id (snapshot (remote w) main_account)
              (snapshot (remote w) addl_account) w
    = (Ok c1, w1) /\
    household_tags (remote w1) = household_tags (remote w) /\
    (forall account_id,
       length (account (remote w1) account_id)
       = length (account (remote w) account_id)) /\
    forall w1' : world ledger,
      remote w1' = remote w1 ->
      exists c2 w2,
        reconcile cfg tag_id (snapshot (remote w1) main_account)
                  (snapshot (remote w1) addl_account) w1'
        = (Ok c2, w2) /\
        requests w2 = requests w1' /\
        remote w2 = remote w1'.
Proof.
  intros Hres Hnd.
  destruct (resolved_on_ledger _ _ _ Hres Hnd) as (g & Hg & Hname).
  destruct (reconcile_total cfg tag_id (snapshot (remote w) main_account)
              (snapshot (remote w) addl_account) w
              (or_intror ledger_accepts)) as (c1 & w1 & Hrun1).
  exists c1, w1. split; [exact Hrun1|].
  destruct (reconcile_ok _ _ _ _ _ _ _ Hrun1) as (_ & _ & _ & Hrem1).
  split; [rewrite Hrem1; apply household_tags_apply_all|].
  split; [intros account_id; now rewrite Hrem1, account_apply_all, length_map|].
  intros w1' Hw1'.
  destruct (reconcile_total cfg tag_id (snapshot (remote w1) main_account)
              (snapshot (remote w1) addl_account) w1'
              (or_intror ledger_accepts)) as (c2 & w2 & Hrun2).
  exists c2, w2. split; [exact Hrun2|].
  destruct (reconcile_ok _ _ _ _ _ _ _ Hrun2) as (_ & _ & Hreq2 & Hrem2).
  assert (Hnone : all_planned cfg tag_id
                    (snapshot (remote w1) main_account)
                    (addl_candidates (SYNC_TAG_NAME cfg)
                       (snapshot (remote w1) addl_account)) = []).
  { destruct (DRY_RUN cfg) eqn:Hmode.
    - now apply all_planned_dry.
    - rewrite all_planned_live by exact Hmode. unfold plans.
      apply concat_map_nil. intros a' Ha'.
      rewrite all_planned_live in Hrem1 by exact Hmode.
      rewrite Hrem1 in *.
      now apply second_run_plans_nothing
        with (name := SYNC_TAG_NAME cfg) (addl_account := addl_account) (g := g). }
  rewrite Hnone in Hreq2, Hrem2. rewrite app_nil_r in Hreq2. auto.
Qed.

(** On a ledger the resolver changes nothing. *)
Lemma ensure_tag_id_ledger (name : string) (w : world ledger) :
  remote (snd (ensure_tag_id name w)) = remote w /\
  mutations (snd (ensure_tag_id name w)) = mutations w.
Proof.
  unfold ensure_tag_id, bind, gql, mutations. simpl.
  destruct (find _ _); simpl; now rewrite List.filter_app, app_nil_r.
Qed.

(** With the configuration complete and fuel above the lengths of the two
    accounts, [main] on a ledger fetches the two accounts as the ledger has
    them, resolves the tag and reconciles. *)
Lemma main_on_ledger (fuel : nat) (cfg : config) (w : world ledger) :
  missing cfg = [] ->
  length (account (remote w) (or_str (MAIN_ACCOUNT_ID cfg) "")) < fuel ->
  length (account (remote w) (or_str (ADDL_ACCOUNT_ID cfg) "")) < fuel ->
  exists w0,
    remote w0 = remote w /\ mutations w0 = mutations w /\
    main fuel cfg w
    = Some (bind (ensure_tag_id (SYNC_TAG_NAME cfg))
              (fun tag_id =>
                 reconcile cfg tag_id
                   (snapshot (remote w) (or_str (MAIN_ACCOUNT_ID cfg) ""))
                   (snapshot (remote w) (or_str (ADDL_ACCOUNT_ID cfg) "")))
              w0).
Proof.
  intros Hcfg Hmain Haddl. unfold main. rewrite Hcfg. cbn [is_nil negb].
  unfold print at 1.
  set (w_ := {| remote := remote w; requests := requests w;
                stdout := stdout w ++ [Fetching] |}).
  destruct (fetch_transactions_ledger fuel (or_str (MAIN_ACCOUNT_ID cfg) "") w_ Hmain)
    as (w1 & -> & Hrem1 & _ & Hmut1).
  assert (Haddl1 : length (account (remote w1) (or_str (ADDL_ACCOUNT_ID cfg) ""))
                   < fuel) by now rewrite Hrem1.
  destruct (fetch_transactions_ledger fuel (or_str (ADDL_ACCOUNT_ID cfg) "") w1 Haddl1)
    as (w2 & -> & Hrem2 & _ & Hmut2).
  exists w2. rewrite Hrem1. simpl.
  split; [now rewrite Hrem2, Hrem1|]. split; [|reflexivity].
  rewrite Hmut2, Hmut1. reflexivity.
Qed.

(** Two runs of [main] in a row on a ledger whose tags have distinct
    identifiers and hold the sync tag: both return, and the second sends
    no mutation and leaves the ledger as the first left it. *)
Lemma main_twice (fuel : nat) (cfg : config) (L : ledger) (tag_id : string) :
  missing cfg = [] ->
  length (account L (or_str (MAIN_ACCOUNT_ID cfg) "")) < fuel ->
  length (account L (or_str (ADDL_ACCOUNT_ID cfg) "")) < fuel ->
  fst (ensure_tag_id (SYNC_TAG_NAME cfg) (start L)) = Ok tag_id ->
  List.NoDup (map tg_id (household_tags L)) ->
  exists c1 w1 c2 w2,
    main fuel cfg (start L) = Some (Ok c1, w1) /\
    main fuel cfg w1 = Some (Ok c2, w2) /\
    mutations w2 = mutations w1 /\
    remote w2 = remote w1.
Proof.
  intros Hcfg Hmain Haddl Hres Hnd.
  (* the first run *)
  destruct (main_on_ledger fuel cfg (start L) Hcfg Hmain Haddl)
    as (w0 & Hrem0 & _ & Hrun1).
  simpl in Hrem0.
  destruct (ensure_tag_id_ledger (SYNC_TAG_NAME cfg) w0) as (Hrem0' & _).
  assert (Hres0 : fst (ensure_tag_id (SYNC_TAG_NAME cfg) w0) = Ok tag_id).
  { rewrite <- Hres. apply resolver_reads_tags. now rewrite Hrem0. }
  unfold bind in Hrun1.
  destruct (ensure_tag_id (SYNC_TAG_NAME cfg) w0) as [r0 w0'] eqn:He0.
  simpl in Hres0, Hrem0'. subst r0.
  destruct (rerun_sends_nothing cfg w0'
              (or_str (MAIN_ACCOUNT_ID cfg) "") (or_str (ADDL_ACCOUNT_ID cfg) "")
              tag_id)
    as (c1 & w1 & Hrec1 & Htags & Hlen & Hrerun).
  { rewrite <- Hres. apply resolver_reads_tags. now rewrite Hrem0', Hrem0. }
  { now rewrite Hrem0', Hrem0. }
  rewrite Hrem0', Hrem0 in Hrec1, Htags, Hlen. simpl in Hrun1.
  rewrite Hrec1 in Hrun1.
  exists c1, w1.
  (* the second run *)
  destruct (main_on_ledger fuel cfg w1 Hcfg) as (v0 & Hremv & Hmutv & Hrun2);
    [now rewrite Hlen ..|].
  destruct (ensure_tag_id_ledger (SYNC_TAG_NAME cfg) v0) as (Hremv' & Hmutv').
  assert (Hresv : fst (ensure_tag_id (SYNC_TAG_NAME cfg) v0) = Ok tag_id).
  { rewrite <- Hres. apply resolver_reads_tags. now rewrite Hremv, Htags. }
  unfold bind in Hrun2.
  destruct (ensure_tag_id (SYNC_TAG_NAME cfg) v0) as [rv v0'] eqn:Hev.
  simpl in Hresv, Hremv', Hmutv'. subst rv.
  destruct (Hrerun v0') as (c2 & w2 & Hrec2 & Hreq2 & Hrem2); [congruence|].
  rewrite Hrec2 in Hrun2.
  exists c2, w2. split; [exact Hrun1|]. split; [exact Hrun2|].
  split; [|congruence].
  unfold mutations in *. rewrite Hreq2. congruence.
Qed.

End LedgerFacts.

(** ** Transactions already tagged *)

(** C3: an additional-card transaction one of whose tags has the name of
    the sync tag up to letter case is not a candidate, and the run is the
    run on the list without it: it logs and sends nothing for it. And on a
    ledger whose tags have distinct identifiers, with the identifier the
    resolver returns, a run on the two accounts returns, and a second run,
    on the accounts as the first run has left them, returns without
    sending any request and leaves the ledger as it is; the resolver
    returns the same identifier for it. *)
Theorem synced_excluded_and_idempotent :
  (forall (Remote : Type) (service : Gql Remote) (cfg : config)
          (tag_id : string) (main_txns before after : list txn) (t : txn)
          (w : world Remote),
     (exists g, In g (t_tags t) /\
                PyStr.same_letters (tg_name g) (SYNC_TAG_NAME cfg) = true) ->
     ~ In t (addl_candidates (SYNC_TAG_NAME cfg) (before ++ t :: after)) /\
     reconcile cfg tag_id main_txns (before ++ t :: after) w
     = reconcile cfg tag_id main_txns (before ++ after) w) /\
  (forall (cfg : config) (L : Ledger.ledger) (main_account addl_account : string)
          (tag_id : string),
     fst (ensure_tag_id (SYNC_TAG_NAME cfg) (Ledger.start L)) = Ok tag_id ->
     List.NoDup (map tg_id (Ledger.household_tags L)) ->
     exists c1 w1 c2 w2,
       reconcile cfg tag_id (Ledger.snapshot L main_account)
                 (Ledger.snapshot L addl_account) (Ledger.start L)
       = (Ok c1, w1) /\
       fst (ensure_tag_id (SYNC_TAG_NAME cfg) w1) = Ok tag_id /\
       reconcile cfg tag_id (Ledger.snapshot (remote w1) main_account)
                 (Ledger.snapshot (remote w1) addl_account) w1
       = (Ok c2, w2) /\
       requests w2 = requests w1 /\
       remote w2 = remote w1).
Proof.
  split.
  - intros Remote HGql cfg tag_id main_txns before after t w Htag.
    apply LedgerFacts.has_sync_tag_in in Htag.
    assert (Hcands : addl_candidates (SYNC_TAG_NAME cfg) (before ++ t :: after)
                     = addl_candidates (SYNC_TAG_NAME cfg) (before ++ after)).
    { unfold addl_candidates. rewrite !List.filter_app. simpl. now rewrite Htag. }
    split.
    + unfold addl_candidates. rewrite filter_In, Htag. now intros [_ H].
    + unfold reconcile. now rewrite Hcands.
  - intros cfg L main_account addl_account tag_id Hres Hnd.
    destruct (LedgerFacts.rerun_sends_nothing cfg (Ledger.start L)
                main_account addl_account tag_id Hres Hnd)
      as (c1 & w1 & Hrun1 & Htags & _ & Hrerun).
    destruct (Hrerun w1 eq_refl) as (c2 & w2 & Hrun2 & Hreq & Hrem).
    exists c1, w1, c2, w2. split; [exact Hrun1|]. split; [|auto].
    rewrite <- Hres. now apply LedgerFacts.resolver_reads_tags.
Qed.

Lemma synced_excluded_and_idempotent_witness :
  (~ In (normalized Example.a3)
        (addl_candidates "synced"
           ([normalized Example.a1] ++ normalized Example.a3 :: [])) /\
   reconcile (Example.cfg false) "T"
     (Ledger.snapshot Example.two_individual "main")
     ([normalized Example.a1] ++ normalized Example.a3 :: [])
     (Ledger.start Example.two_individual)
   = reconcile (Example.cfg false) "T"
       (Ledger.snapshot Example.two_individual "main")
       ([normalized Example.a1] ++ [])
       (Ledger.start Example.two_individual)) /\
  (exists c1 w1 c2 w2,
     reconcile (Example.cfg false) "T"
       (Ledger.snapshot Example.two_individual "main")
       (Ledger.snapshot Example.two_individual "addl")
       (Ledger.start Example.two_individual)
     = (Ok c1, w1) /\
     fst (ensure_tag_id "synced" w1) = Ok "T" /\
     reconcile (Example.cfg false) "T"
       (Ledger.snapshot (remote w1) "main") (Ledger.snapshot (remote w1) "addl") w1
     = (Ok c2, w2) /\
     requests w2 = requests w1 /\
     remote w2 = remote w1).
Proof.
  split.
  - apply (proj1 synced_excluded_and_idempotent Ledger.ledger _
             (Example.cfg false) "T"
             (Ledger.snapshot Example.two_individual "main")
             [normalized Example.a1] [] (normalized Example.a3)
             (Ledger.start Example.two_individual)).
    exists Example.synced. split; [now left | reflexivity].
  - apply (proj2 synced_excluded_and_idempotent (Example.cfg false)
             Example.two_individual "main" "addl" "T" eq_refl).
    repeat constructor; simpl; intuition discriminate.
Defined.

(** ** Instances on the example ledgers *)

Lemma key_for_normalised_witness :
  PyStr.equal_up_to_space_and_case " amazon " "AMAZON" /\
  key_for (normalized Example.m2) = key_for (normalized Example.a1) /\
  In (normalized Example.m2)
     (default [] (main_index (Ledger.snapshot Example.two_individual "main")
                  !! key_for (normalized Example.a1))).
Proof.
  assert (H : PyStr.equal_up_to_space_and_case " amazon " "AMAZON").
  { exists " ", "amazon", " ", "", "AMAZON", "". repeat split. }
  split; [exact H|].
  destruct (key_for_normalised (normalized Example.m2) (normalized Example.a1)
              (Ledger.snapshot Example.two_individual "main")
              eq_refl eq_refl H) as (_ & Hkey & _ & Hin).
  split; [exact Hkey|]. apply Hin. right. left. reflexivity.
Defined.

Lemma key_for_without_merchant_witness :
  key_for (normalized (Example.cash "a9")) = ("2024-05-02", Q2Qc (-5 # 1), "") /\
  key_for (normalized (Example.cash "m9")) = key_for (normalized (Example.cash "a9")) /\
  classify [normalized (Example.cash "m9")] (normalized (Example.cash "a9"))
  <> NO_MATCH.
Proof.
  destruct (key_for_without_merchant (normalized (Example.cash "a9"))
              (normalized (Example.cash "m9")) [normalized (Example.cash "m9")]
              (or_introl eq_refl) (or_introl eq_refl) eq_refl eq_refl
              (or_introl eq_refl)) as (Hk & Hkey & _ & Hcls).
  split; [exact Hk|]. split; [exact Hkey | exact Hcls].
Defined.

Lemma new_shared_mutations_witness :
  (exists w',
     process (Example.cfg false) "T"
       (main_index (Ledger.snapshot Example.two_individual "main"))
       (normalized Example.a1) zero (Ledger.start Example.two_individual)
     = (Ok (count NEW_SHARED zero), w') /\
     requests w'
     = [Web_UpdateTransactionOverview "m1"; Web_UpdateTransactionOverview "m2";
        Web_SetTransactionTags "a1" ["F"; "T"]]) /\
  (exists w',
     reconcile (Example.cfg false) "T"
       [normalized Example.m1; normalized Example.m2] [normalized Example.a1]
       (Ledger.start Example.two_individual)
     = (Ok (count NEW_SHARED zero), w') /\
     requests w'
     = [Web_UpdateTransactionOverview "m1"; Web_UpdateTransactionOverview "m2";
        Web_SetTransactionTags "a1" ["F"; "T"]]).
Proof.
  split.
  - assert (Hne : bucket (Ledger.snapshot Example.two_individual "main")
                         (normalized Example.a1) <> [])
      by (vm_compute; discriminate).
    assert (Hind : Forall (fun m => t_owner m = INDIVIDUAL)
                     (bucket (Ledger.snapshot Example.two_individual "main")
                             (normalized Example.a1)))
      by (vm_compute; repeat constructor).
    destruct (proj2 (proj1 (new_shared_mutations (Example.cfg false) "T"
                              (Ledger.start Example.two_individual))
                       (Ledger.snapshot Example.two_individual "main")
                       (normalized Example.a1) zero Hne Hind)
                eq_refl LedgerFacts.ledger_accepts) as (w' & Hrun & Hreq).
    exists w'. split; [exact Hrun|]. rewrite Hreq. vm_compute. reflexivity.
  - apply (proj2 (new_shared_mutations (Example.cfg false) "T"
                    (Ledger.start Example.two_individual))
             (normalized Example.m1) (normalized Example.m2)
             (normalized Example.a1));
      try reflexivity.
    + simpl. intros [H|[]]. discriminate H.
    + exact LedgerFacts.ledger_accepts.
Defined.

Lemma existing_shared_mutations_witness :
  exists w',
    process (Example.cfg false) "T"
      (main_index (Ledger.snapshot Example.one_shared "main"))
      (normalized Example.a1) zero (Ledger.start Example.one_shared)
    = (Ok (count EXISTING_SHARED zero), w') /\
    requests w' = [Web_SetTransactionTags "a1" ["F"; "T"]].
Proof.
  apply (proj2 (existing_shared_mutations (Example.cfg false) "T"
                  (Ledger.snapshot Example.one_shared "main")
                  (normalized Example.a1) (normalized Example.m3) zero
                  (Ledger.start Example.one_shared)
                  (or_introl eq_refl) eq_refl)
           eq_refl LedgerFacts.ledger_accepts).
Defined.

Lemma counters_add_up_witness :
  exists c w',
    reconcile (Example.cfg false) "T"
      (Ledger.snapshot Example.two_individual "main")
      (Ledger.snapshot Example.two_individual "addl")
      (Ledger.start Example.two_individual)
    = (Ok c, w') /\
    count_synced_existing_shared c + count_synced_new_shared c + count_no_match c
    = 1 /\
    classifications (stdout w') = [NEW_SHARED].
Proof.
  destruct (counters_add_up (Example.cfg false) "T"
              (Ledger.snapshot Example.two_individual "main")
              (Ledger.snapshot Example.two_individual "addl")
              (Ledger.start Example.two_individual)) as [Hret Hsum].
  destruct (Hret (or_intror LedgerFacts.ledger_accepts)) as (c & w' & Hrun).
  destruct (Hsum c w' Hrun) as [Htotal Hcls].
  exists c, w'. split; [exact Hrun|]. split; [exact Htotal | exact Hcls].
Defined.

(** A candidate of a bucket of two individually owned transactions that
    carries the identifier of the sync tag under another name: the live
    run sends the two requests that clear the owner and no tag request. *)
Lemma new_shared_tag_request_skipped :
  addl_candidates "synced" (Ledger.snapshot Example.two_individual_renamed "addl")
  = [normalized Example.a2] /\
  bucket (Ledger.snapshot Example.two_individual_renamed "main")
         (normalized Example.a2)
  = [normalized Example.m1; normalized Example.m2] /\
  t_owner (normalized Example.m1) = INDIVIDUAL /\
  t_owner (normalized Example.m2) = INDIVIDUAL /\
  fst (Example.run false Example.two_individual_renamed)
  = Ok (count NEW_SHARED zero) /\
  requests (snd (Example.run false Example.two_individual_renamed))
  = [Web_UpdateTransactionOverview "m1"; Web_UpdateTransactionOverview "m2"].
Proof. vm_compute. repeat split. Qed.

(** The same candidate with a shared transaction in its bucket: the live
    run sends no request at all. *)
Lemma existing_shared_tag_request_skipped :
  addl_candidates "synced" (Ledger.snapshot Example.one_shared_renamed "addl")
  = [normalized Example.a2] /\
  bucket (Ledger.snapshot Example.one_shared_renamed "main")
         (normalized Example.a2)
  = [normalized Example.m3] /\
  t_owner (normalized Example.m3) = SHARED /\
  fst (Example.run false Example.one_shared_renamed)
  = Ok (count EXISTING_SHARED zero) /\
  requests (snd (Example.run false Example.one_shared_renamed)) = [].
Proof. vm_compute. repeat split. Qed.

Lemma dry_run_same_outcome_witness :
  exists c wd wl,
    reconcile (with_dry_run true (Example.cfg false)) "T"
      (Ledger.snapshot Example.two_individual "main")
      (Ledger.snapshot Example.two_individual "addl")
      (Ledger.start Example.two_individual)
    = (Ok c, wd) /\
    requests wd = [] /\
    reconcile (with_dry_run false (Example.cfg false)) "T"
      (Ledger.snapshot Example.two_individual "main")
      (Ledger.snapshot Example.two_individual "addl")
      (Ledger.start Example.two_individual)
    = (Ok c, wl) /\
    classifications (stdout wl) = classifications (stdout wd).
Proof.
  destruct (dry_run_same_outcome (Example.cfg false) "T"
              (Ledger.snapshot Example.two_individual "main")
              (Ledger.snapshot Example.two_individual "addl")
              (Ledger.start Example.two_individual))
    as (c & wd & Hdry & Hreq & _ & Hsame & Hlive).
  destruct (Hlive LedgerFacts.ledger_accepts) as (c' & wl & Hrun).
  destruct (Hsame c' wl Hrun) as [-> Hcls].
  exists c, wd, wl. auto.
Defined.

Lemma ensure_tag_id_resolves_witness :
  requests (snd (ensure_tag_id "SYNCED" (Ledger.start Example.one_shared)))
  = [GetHouseholdTransactionTags 500] /\
  exists t0,
    In t0 (Ledger.household_tags Example.one_shared) /\
    PyStr.same_letters (tg_name t0) "SYNCED" = true /\
    fst (ensure_tag_id "SYNCED" (Ledger.start Example.one_shared))
    = Ok (tg_id t0).
Proof.
  destruct ensure_tag_id_resolves as [Hany Hledger].
  destruct (Hany Ledger.ledger _ "SYNCED" (Ledger.start Example.one_shared))
    as (Hreq & _).
  split; [exact Hreq|].
  destruct (Hledger "SYNCED" (Ledger.start Example.one_shared))
    as (_ & _ & _ & Hsmall).
  destruct Hsmall as [Hfound _]; [simpl; lia|].
  exact (Hfound Example.synced (or_intror (or_introl eq_refl)) eq_refl).
Defined.

(** A household of 501 tags whose last tag is the sync tag: the tag is in
    the household, with the name looked for, and the resolver raises the
    error that it was not found. *)
Lemma ensure_tag_id_misses_tag_past_500 :
  In Example.synced (Ledger.household_tags Example.many_tags) /\
  PyStr.same_letters (tg_name Example.synced) "synced" = true /\
  fst (ensure_tag_id "synced" (Ledger.start Example.many_tags))
  = Raise (RuntimeError (tag_not_found "synced")).
Proof.
  split; [apply in_or_app; right; now left|].
  split; [reflexivity|]. vm_compute. reflexivity.
Qed.

Lemma dry_run_by_default_witness :
  DRY_RUN (load_config {[ "DRY_RUN" := "False" ]}) = false /\
  requests (snd (reconcile (load_config ∅) "T"
                   (Ledger.snapshot Example.two_individual "main")
                   (Ledger.snapshot Example.two_individual "addl")
                   (Ledger.start Example.two_individual)))
  = [].
Proof.
  split.
  - apply (proj1 (dry_run_by_default {[ "DRY_RUN" := "False" ]})).
    exists "False". split; reflexivity.
  - destruct (dry_run_by_default ∅) as (_ & _ & _ & _ & _ & _ & Hdry).
    apply (Hdry eq_refl).
Defined.

(** * Further properties of the script *)

(** ** Keys, buckets and candidates *)

Lemma lstrip_split (s : string) :
  exists l, PyStr.all_space l = true /\ s = l +:+ PyStr.lstrip s.
Proof.
  induction s as [|c s IH]; simpl.
  - exists "". auto.
  - destruct (PyStr.isspace c) eqn:Hc.
    + destruct IH as (l & Hl & Hs). exists (String c l). simpl.
      rewrite Hc, Hl. split; [reflexivity|].
      change (String c l +:+ PyStr.lstrip s) with (String c (l +:+ PyStr.lstrip s)).
      now rewrite <- Hs.
    + exists "". auto.
Qed.

Lemma rstrip_split (s : string) :
  exists r, PyStr.all_space r = true /\ s = PyStr.rstrip s +:+ r.
Proof.
  induction s as [|c s IH]; simpl.
  - exists "". auto.
  - destruct IH as (r & Hr & Hs).
    destruct (PyStr.isspace c && PyStr.is_empty (PyStr.rstrip s)) eqn:Hc.
    + apply andb_true_iff in Hc as [Hc He].
      destruct (PyStr.rstrip s); [|discriminate]. simpl in Hs. subst s.
      exists (String c r). simpl. rewrite Hc, Hr. auto.
    + exists r. split; [exact Hr|].
      change (String c (PyStr.rstrip s) +:+ r)
        with (String c (PyStr.rstrip s +:+ r)).
      now rewrite <- Hs.
Qed.

(** A string is its stripped form between two runs of white space. *)
Lemma strip_split (s : string) :
  exists l r, PyStr.all_space l = true /\ PyStr.all_space r = true /\
              s = l +:+ PyStr.strip s +:+ r.
Proof.
  destruct (lstrip_split s) as (l & Hl & Hs).
  destruct (rstrip_split (PyStr.lstrip s)) as (r & Hr & Hs').
  exists l, r. split; [exact Hl|]. split; [exact Hr|].
  unfold PyStr.strip. now rewrite <- Hs'.
Qed.

(** Two transactions have the same matching key exactly when they have the
    same date, the same amount, and merchant names equal up to leading and
    trailing white space and letter case. *)
Theorem key_for_equal_iff (a b : txn) :
  key_for a = key_for b <->
  t_date a = t_date b /\ t_amount a = t_amount b /\
  PyStr.equal_up_to_space_and_case (merchant_name a) (merchant_name b).
Proof.
  unfold key_for. split.
  - intros [= Hdate Hamount Hname]. split; [exact Hdate|]. split; [exact Hamount|].
    destruct (strip_split (merchant_name a)) as (la & ra & Hla & Hra & Ha).
    destruct (strip_split (merchant_name b)) as (lb & rb & Hlb & Hrb & Hb).
    exists la, (PyStr.strip (merchant_name a)), ra,
           lb, (PyStr.strip (merchant_name b)), rb.
    repeat (split; [assumption|]). now apply lower_eq_same_letters.
  - intros (Hdate & Hamount & Hname).
    now rewrite Hdate, Hamount, (PyStrFacts.normalise_equal _ _ Hname).
Qed.

Lemma index_fold_lookup_exact (l : list txn) (k : key) :
  forall idx : gmap key (list txn),
    fold_left
      (fun idx t => <[key_for t := default [] (idx !! key_for t) ++ [t]]> idx)
      l idx !! k
    = match List.filter (fun m => bool_decide (key_for m = k)) l with
      | [] => idx !! k
      | b => Some (default [] (idx !! k) ++ b)
      end.
Proof.
  induction l as [|t l IH]; intros idx; simpl; [reflexivity|].
  rewrite IH. destruct (decide (key_for t = k)) as [Heq|Hne].
  - rewrite bool_decide_eq_true_2 by exact Heq.
    rewrite Heq, lookup_insert_eq. simpl.
    destruct (List.filter _ l); simpl; now rewrite <- ?app_assoc.
  - rewrite bool_decide_eq_false_2 by exact Hne.
    now rewrite lookup_insert_ne.
Qed.

(** The lookup built from the main-card list has a key exactly when some
    transaction of the list has it, never holds an empty list, and holds
    under each key the transactions of the list with that key, in the
    order of the list; so every transaction of the list is found under its
    own key. *)
Theorem main_index_buckets (main_txns : list txn) :
  (forall k,
     main_index main_txns !! k = None <->
     forall m, In m main_txns -> key_for m <> k) /\
  (forall k b,
     main_index main_txns !! k = Some b ->
     b <> [] /\
     b = List.filter (fun m => bool_decide (key_for m = k)) main_txns) /\
  (forall m,
     In m main_txns ->
     exists b, main_index main_txns !! key_for m = Some b /\ In m b).
Proof.
  assert (Hlookup : forall k,
            main_index main_txns !! k
            = match List.filter (fun m => bool_decide (key_for m = k)) main_txns with
              | [] => None
              | b => Some b
              end).
  { intros k. unfold main_index. rewrite index_fold_lookup_exact, lookup_empty.
    now destruct (List.filter _ main_txns). }
  split; [|split].
  - intros k. rewrite Hlookup. split.
    + intros Hnone m Hin Hk.
      assert (Hm : In m (List.filter (fun m => bool_decide (key_for m = k)) main_txns)).
      { apply filter_In. split; [exact Hin | now apply bool_decide_eq_true]. }
      destruct (List.filter _ main_txns); [destruct Hm | discriminate].
    + intros Hall.
      destruct (List.filter _ main_txns) as [|m b] eqn:Hf; [reflexivity|].
      assert (Hm : In m (List.filter (fun m => bool_decide (key_for m = k)) main_txns))
        by (rewrite Hf; now left).
      apply filter_In in Hm as [Hin Hk]. apply bool_decide_eq_true in Hk.
      now destruct (Hall m Hin).
  - intros k b. rewrite Hlookup.
    destruct (List.filter _ main_txns) as [|m b'] eqn:Hf; [discriminate|].
    intros [= <-]. split; [discriminate | reflexivity].
  - intros m Hin. rewrite Hlookup.
    assert (Hm : In m (List.filter (fun x => bool_decide (key_for x = key_for m))
                         main_txns)).
    { apply filter_In. split; [exact Hin | now apply bool_decide_eq_true]. }
    destruct (List.filter _ main_txns) as [|x b] eqn:Hf; [destruct Hm|].
    exists (x :: b). auto.
Qed.

Lemma main_index_buckets_witness :
  main_index (Ledger.snapshot Example.two_individual "main")
    !! key_for (normalized Example.a1)
  = Some [normalized Example.m1; normalized Example.m2].
Proof.
  destruct (main_index_buckets (Ledger.snapshot Example.two_individual "main"))
    as (_ & Hsome & Hin).
  destruct (Hin (normalized Example.m1) (or_introl eq_refl)) as (b & Hb & _).
  change (key_for (normalized Example.m1))
    with (key_for (normalized Example.a1)) in Hb.
  rewrite Hb. destruct (Hsome _ _ Hb) as [_ ->]. reflexivity.
Defined.

Lemma has_sync_tag_same_name (t : txn) (name name' : string) :
  PyStr.same_letters name name' = true ->
  has_sync_tag t name = has_sync_tag t name'.
Proof.
  intros Hname. apply lower_eq_same_letters in Hname.
  unfold has_sync_tag. now rewrite Hname.
Qed.

(** The candidates are the transactions of the additional-card list none
    of whose tags has the name of the sync tag up to letter case, in the
    order of the list; a transaction without tags is one; and the letter
    case of the configured name does not matter. *)
Theorem addl_candidates_spec (name : string) (addl_txns : list txn) :
  (forall a,
     In a (addl_candidates name addl_txns) <->
     In a addl_txns /\
     forall g, In g (t_tags a) -> PyStr.same_letters (tg_name g) name = false) /\
  addl_candidates name addl_txns `sublist_of` addl_txns /\
  (forall a, In a addl_txns -> t_tags a = [] -> In a (addl_candidates name addl_txns)) /\
  (forall name', PyStr.same_letters name name' = true ->
     addl_candidates name' addl_txns = addl_candidates name addl_txns).
Proof.
  assert (Hno : forall a,
            has_sync_tag a name = false <->
            forall g, In g (t_tags a) -> PyStr.same_letters (tg_name g) name = false).
  { intros a. split.
    - intros Hfalse g Hg.
      destruct (PyStr.same_letters (tg_name g) name) eqn:Hsame; [|reflexivity].
      assert (has_sync_tag a name = true)
        by (apply LedgerFacts.has_sync_tag_in; eauto).
      congruence.
    - intros Hall. destruct (has_sync_tag a name) eqn:Hhas; [|reflexivity].
      apply LedgerFacts.has_sync_tag_in in Hhas as (g & Hg & Hsame).
      rewrite (Hall g Hg) in Hsame. discriminate. }
  split; [|split; [|split]].
  - intros a. unfold addl_candidates.
    now rewrite filter_In, negb_true_iff, Hno.
  - unfold addl_candidates. induction addl_txns as [|a l IH]; simpl.
    + constructor.
    + destruct (negb (has_sync_tag a name)); now constructor.
  - intros a Hin Htags. unfold addl_candidates. apply filter_In.
    split; [exact Hin|]. unfold has_sync_tag. now rewrite Htags.
  - intros name' Hname. unfold addl_candidates. apply filter_ext.
    intros a. f_equal. symmetry. now apply has_sync_tag_same_name.
Qed.

Lemma addl_candidates_spec_witness :
  addl_candidates "SYNCED"
    [normalized Example.a1; normalized Example.a3;
     normalized (Example.cash "a9")]
  = addl_candidates "synced"
      [normalized Example.a1; normalized Example.a3;
       normalized (Example.cash "a9")] /\
  In (normalized (Example.cash "a9"))
     (addl_candidates "synced"
        [normalized Example.a1; normalized Example.a3;
         normalized (Example.cash "a9")]).
Proof.
  destruct (addl_candidates_spec "synced"
              [normalized Example.a1; normalized Example.a3;
               normalized (Example.cash "a9")]) as (_ & _ & Hnotags & Hname).
  split.
  - apply Hname. reflexivity.
  - apply Hnotags; [right; right; left|]; reflexivity.
Defined.

(** ** What a run prints and sends *)

Section MoreRuns.
Context {Remote : Type} `{!Gql Remote}.
Implicit Types (w : world Remote) (rs : list request).

Lemma send_all_stdout rs w :
  stdout (snd (send_all rs w)) = stdout w.
Proof.
  unfold send_all. revert w. induction rs as [|r rs IH]; intros w; [reflexivity|].
  simpl. unfold bind.
  assert (Hr : stdout (snd (send r w)) = stdout w).
  { destruct (is_mutation r) eqn:Hmut; [now apply send_run|].
    destruct r; try discriminate; reflexivity. }
  destruct (send r w) as [[[]|e] w1]; simpl in *; [|exact Hr].
  now rewrite IH.
Qed.

Lemma decide_and_apply_ok_stdout (cfg : config) (tag_id : string)
    (main_txns : list txn) (addl : txn) (c c' : counters) w w' :
  decide_and_apply cfg tag_id main_txns addl c w = (Ok c', w') ->
  stdout w' = stdout w ++ log cfg main_txns addl.
Proof.
  unfold decide_and_apply, log, bind, print, ret. simpl.
  destruct (classify main_txns addl) eqn:Hcls.
  - intros [= _ <-]. reflexivity.
  - destruct (DRY_RUN cfg).
    + intros [= _ <-]. simpl. now rewrite <- app_assoc.
    + pose proof (send_all_stdout (plan tag_id main_txns addl)
        {| remote := remote w; requests := requests w;
           stdout := stdout w ++ [Classified EXISTING_SHARED (t_date addl)
             (t_amount addl) (merchant_name addl) (t_description addl)] |}) as Hout.
      destruct (send_all _ _) as [[[]|e] w1]; [|discriminate].
      intros [= _ <-]. simpl in *. rewrite Hout. now rewrite <- app_assoc.
  - destruct (DRY_RUN cfg).
    + intros [= _ <-]. simpl. now rewrite <- app_assoc.
    + pose proof (send_all_stdout (plan tag_id main_txns addl)
        {| remote := remote w; requests := requests w;
           stdout := stdout w ++ [Classified NEW_SHARED (t_date addl)
             (t_amount addl) (merchant_name addl) (t_description addl)] |}) as Hout.
      destruct (send_all _ _) as [[[]|e] w1]; [|discriminate].
      intros [= _ <-]. simpl in *. rewrite Hout. now rewrite <- app_assoc.
Qed.

Lemma loop_ok_stdout (cfg : config) (tag_id : string) (main_txns : list txn)
    (candidates : list txn) : forall c w c' w',
  for_each (process cfg tag_id (main_index main_txns)) candidates c w = (Ok c', w') ->
  stdout w' = stdout w ++ concat (map (log cfg main_txns) candidates).
Proof.
  induction candidates as [|a l IH]; intros c w c' w' Hrun; simpl in Hrun.
  - injection Hrun as _ <-. simpl. now rewrite app_nil_r.
  - unfold bind in Hrun. rewrite process_decide_and_apply in Hrun.
    destruct (decide_and_apply cfg tag_id main_txns a c w) as [[c1|e] w1] eqn:Hone;
      [|discriminate].
    apply decide_and_apply_ok_stdout in Hone. apply IH in Hrun.
    rewrite Hrun, Hone. simpl. now rewrite <- app_assoc.
Qed.

(** A mutation that raises is the last request of the run so far. *)
Lemma send_all_raise rs : forall w e w',
  Forall (fun r => is_mutation r = true) rs ->
  send_all rs w = (Raise e, w') ->
  exists sent r rest,
    rs = sent ++ r :: rest /\
    requests w' = requests w ++ sent ++ [r] /\
    answer r (apply_all sent (remote w)) = Raise e.
Proof.
  unfold send_all. induction rs as [|r rs IH]; intros w e w' Hmut Hrun;
    [discriminate|].
  apply Forall_cons in Hmut as [Hr Hrs].
  destruct (send_run r w Hr) as (_ & Hreq & Hrem).
  assert (Hans : fst (send r w) = answer r (remote w)).
  { destruct r as [a o l|l|txn_id|txn_id tag_ids]; try discriminate; simpl;
      unfold set_owner_shared, update_tags_replace, gql.
    - now destruct (updateTransaction txn_id (remote w)).
    - now destruct (setTransactionTags txn_id tag_ids (remote w)). }
  simpl in Hrun. unfold bind in Hrun.
  destruct (send r w) as [[[]|e1] w1]; simpl in Hreq, Hrem, Hans.
  - destruct (IH w1 e w' Hrs Hrun) as (sent & r' & rest & -> & Hreq' & Hans').
    exists (r :: sent), r', rest. split; [reflexivity|].
    split; [rewrite Hreq', Hreq, <- !app_assoc; reflexivity|].
    simpl. now rewrite <- Hrem.
  - injection Hrun as <- <-. exists [], r, rs. auto.
Qed.

Lemma decide_and_apply_raise (cfg : config) (tag_id : string)
    (main_txns : list txn) (addl : txn) (c : counters) w e w' :
  decide_and_apply cfg tag_id main_txns addl c w = (Raise e, w') ->
  DRY_RUN cfg = false /\
  (exists sent r rest,
     plan tag_id main_txns addl = sent ++ r :: rest /\
     requests w' = requests w ++ sent ++ [r] /\
     answer r (apply_all sent (remote w)) = Raise e) /\
  exists out, stdout w' = stdout w ++ out /\ ~ In Summary out.
Proof.
  unfold decide_and_apply, bind, print, ret. simpl.
  pose proof (plan_mutations tag_id main_txns addl) as Hmut.
  destruct (classify main_txns addl) eqn:Hcls; [discriminate| |];
    (destruct (DRY_RUN cfg); [discriminate|]);
    match goal with
    | |- context [send_all ?rs ?w0] =>
        pose proof (send_all_stdout rs w0) as Hout;
        destruct (send_all rs w0) as [[[]|e1] w1] eqn:Hsend; [discriminate|];
        apply send_all_raise in Hsend as (sent & r & rest & Hplan & Hreq & Hans);
        [|exact Hmut]
    end;
    intros [= <- <-]; simpl in *;
    (split; [reflexivity|]);
    (split; [exists sent, r, rest; auto|]);
    eexists; (split; [exact Hout|]); intros [H|[]]; discriminate H.
Qed.

(** A run that raises is a live run; the request that raised is the last
    it has sent, the requests sent are the first of those planned, and the
    summary has not been printed. *)
Lemma loop_raise (cfg : config) (tag_id : string) (main_txns : list txn)
    (candidates : list txn) : forall c w e w',
  for_each (process cfg tag_id (main_index main_txns)) candidates c w
  = (Raise e, w') ->
  DRY_RUN cfg = false /\
  (exists sent r rest,
     plans tag_id main_txns candidates = sent ++ r :: rest /\
     requests w' = requests w ++ sent ++ [r] /\
     answer r (apply_all sent (remote w)) = Raise e) /\
  exists out, stdout w' = stdout w ++ out /\ ~ In Summary out.
Proof.
  induction candidates as [|a l IH]; intros c w e w' Hrun; simpl in Hrun;
    [discriminate|].
  unfold bind in Hrun. rewrite process_decide_and_apply in Hrun.
  destruct (decide_and_apply cfg tag_id main_txns a c w) as [[c1|e1] w1] eqn:Hone.
  - pose proof (decide_and_apply_ok_stdout _ _ _ _ _ _ _ _ Hone) as Hout1.
    apply decide_and_apply_run in Hone as (_ & (sent1 & _ & Hreq1 & Hrem1 & Hok1) & _).
    specialize (Hok1 eq_refl).
    destruct (IH _ _ _ _ Hrun)
      as (Hlive & (sent & r & rest & Hplans & Hreq & Hans) & out & Hout & Hsum).
    unfold planned in Hok1. rewrite Hlive in Hok1. subst sent1.
    split; [exact Hlive|]. split.
    + exists (plan tag_id main_txns a ++ sent), r, rest.
      split; [unfold plans in *; simpl; rewrite Hplans, <- app_assoc; reflexivity|].
      split; [rewrite Hreq, Hreq1, <- !app_assoc; reflexivity|].
      now rewrite apply_all_app, <- Hrem1.
    + exists (log cfg main_txns a ++ out).
      split; [rewrite Hout, Hout1, <- app_assoc; reflexivity|].
      intros Hin. apply in_app_or in Hin as [Hin|Hin]; [|auto].
      unfold log in Hin. destruct Hin as [H|Hin]; [discriminate H|].
      destruct (classify main_txns a); simpl in Hin;
        try (destruct (DRY_RUN cfg)); intuition discriminate.
  - injection Hrun as <- <-.
    apply decide_and_apply_raise in Hone
      as (Hlive & (sent & r & rest & Hplan & Hreq & Hans) & out & Hout & Hsum).
    split; [exact Hlive|]. split; [|eauto].
    exists sent, r, (rest ++ plans tag_id main_txns l).
    split; [|auto]. unfold plans. simpl.
    fold (plans tag_id main_txns l). rewrite Hplan, <- app_assoc. reflexivity.
Qed.

End MoreRuns.

Lemma classify_new_shared_inv (main_txns : list txn) (addl : txn) :
  classify main_txns addl = NEW_SHARED ->
  bucket main_txns addl <> [] /\
  Forall (fun m => t_owner m = INDIVIDUAL) (bucket main_txns addl).
Proof.
  unfold classify. destruct (bucket main_txns addl) as [|x l] eqn:Hb; [discriminate|].
  cbn [is_nil]. destruct (existsb is_shared (x :: l)) eqn:Hex; [discriminate|].
  intros _. split; [discriminate|].
  apply Forall_forall. intros m Hm. apply list_elem_of_In in Hm.
  destruct (t_owner m) eqn:Ho; [|reflexivity].
  assert (existsb is_shared (x :: l) = true).
  { apply existsb_exists. exists m. split; [exact Hm | now apply is_shared_owner]. }
  congruence.
Qed.

Lemma classify_match_inv (main_txns : list txn) (addl : txn) :
  classify main_txns addl <> NO_MATCH -> bucket main_txns addl <> [].
Proof.
  unfold classify. destruct (bucket main_txns addl); [simpl; congruence|discriminate].
Qed.

(** The requests of a plan: one that clears the owner of a transaction of
    a bucket without shared transaction, or the one that adds the sync tag
    to the tags of a matched candidate that has not its identifier. *)
Lemma in_plan (tag_id : string) (main_txns : list txn) (a : txn) (r : request) :
  In r (plan tag_id main_txns a) ->
  (exists m, In m (bucket main_txns a) /\
             Forall (fun m => t_owner m = INDIVIDUAL) (bucket main_txns a) /\
             r = Web_UpdateTransactionOverview (t_id m)) \/
  (bucket main_txns a <> [] /\
   ~ In tag_id (map tg_id (t_tags a)) /\
   r = Web_SetTransactionTags (t_id a) (map tg_id (t_tags a) ++ [tag_id])).
Proof.
  unfold plan. destruct (classify main_txns a) eqn:Hcls; [intros []| |].
  - intros Hin. apply LedgerFacts.in_tagging in Hin as [-> Hid]. right.
    split; [apply classify_match_inv; congruence | auto].
  - intros Hin. apply classify_new_shared_inv in Hcls as [Hne Hind].
    apply in_app_or in Hin as [Hin|Hin].
    + apply in_map_iff in Hin as (m & <- & Hm). left. eauto.
    + apply LedgerFacts.in_tagging in Hin as [-> Hid]. right. auto.
Qed.

(** A candidate whose key no main-card transaction has: the script logs
    NO_MATCH and counts it, in either mode and whatever the service; it
    sends no request and does not raise. *)
Theorem no_match_sends_nothing {Remote : Type} `{!Gql Remote}
    (cfg : config) (tag_id : string) (main_txns : list txn) (addl : txn)
    (c : counters) (w : world Remote) :
  (forall m, In m main_txns -> key_for m <> key_for addl) ->
  main_index main_txns !! key_for addl = None /\
  process cfg tag_id (main_index main_txns) addl c w
  = (Ok {| count_synced_existing_shared := count_synced_existing_shared c;
           count_synced_new_shared := count_synced_new_shared c;
           count_no_match := count_no_match c + 1 |},
     {| remote := remote w; requests := requests w;
        stdout := stdout w
          ++ [Classified NO_MATCH (t_date addl) (t_amount addl)
                (merchant_name addl) (t_description addl)] |}).
Proof.
  intros Hnone.
  assert (Hb : bucket main_txns addl = []).
  { unfold bucket. induction main_txns as [|m l IH]; simpl; [reflexivity|].
    rewrite bool_decide_eq_false_2 by (apply Hnone; now left).
    apply IH. intros x Hx. apply Hnone. now right. }
  split.
  - unfold main_index. rewrite index_fold_lookup_exact, lookup_empty.
    fold (bucket main_txns addl). now rewrite Hb.
  - rewrite process_decide_and_apply. unfold decide_and_apply, classify.
    now rewrite Hb.
Qed.

Lemma no_match_sends_nothing_witness :
  process (Example.cfg false) "T"
    (main_index (Ledger.snapshot Example.two_individual "main"))
    (normalized (Example.cash "a9")) zero Refusing.start
  = (Ok (count NO_MATCH zero),
     {| remote := Refusing.Service; requests := [];
        stdout := [Classified NO_MATCH "2024-05-02" (Q2Qc (-5 # 1)) "" "cash"] |}).
Proof.
  apply (no_match_sends_nothing (Example.cfg false) "T"
           (Ledger.snapshot Example.two_individual "main")
           (normalized (Example.cash "a9")) zero Refusing.start).
  intros m [<-|[<-|[]]]; discriminate.
Defined.

(** A live run on a service that accepts the mutations sends, for each
    candidate in the order of the list, the requests planned for it from
    the lists as fetched, and counts the candidates so classified. The
    mutations sent earlier in the run do not change what is planned: two
    candidates with the key of one individually owned main-card
    transaction are both NEW_SHARED, and the request that clears its owner
    is sent once for each. *)
Theorem candidates_judged_on_fetched_lists {Remote : Type} `{!Gql Remote}
    (cfg : config) (tag_id : string) (w : world Remote) :
  DRY_RUN cfg = false ->
  accepts_mutations Remote ->
  (forall main_txns addl_txns,
     exists w',
       reconcile cfg tag_id main_txns addl_txns w
       = (Ok (tally main_txns (addl_candidates (SYNC_TAG_NAME cfg) addl_txns) zero),
          w') /\
       requests w' = requests w
         ++ concat (map (plan tag_id main_txns)
                        (addl_candidates (SYNC_TAG_NAME cfg) addl_txns))) /\
  (forall m a1 a2 : txn,
     key_for a1 = key_for m -> key_for a2 = key_for m ->
     t_owner m = INDIVIDUAL ->
     t_tags a1 = [] -> t_tags a2 = [] ->
     exists w',
       reconcile cfg tag_id [m] [a1; a2] w
       = (Ok {| count_synced_existing_shared := 0;
                count_synced_new_shared := 2;
                count_no_match := 0 |}, w') /\
       requests w' = requests w
         ++ [Web_UpdateTransactionOverview (t_id m);
             Web_SetTransactionTags (t_id a1) [tag_id];
             Web_UpdateTransactionOverview (t_id m);
             Web_SetTransactionTags (t_id a2) [tag_id]]).
Proof.
  intros Hlive Hacc.
  assert (Hgen : forall main_txns addl_txns,
     exists w',
       reconcile cfg tag_id main_txns addl_txns w
       = (Ok (tally main_txns (addl_candidates (SYNC_TAG_NAME cfg) addl_txns) zero),
          w') /\
       requests w' = requests w
         ++ concat (map (plan tag_id main_txns)
                        (addl_candidates (SYNC_TAG_NAME cfg) addl_txns))).
  { intros main_txns addl_txns.
    destruct (reconcile_total cfg tag_id main_txns addl_txns w (or_intror Hacc))
      as (c & w' & Hrun).
    destruct (reconcile_ok _ _ _ _ _ _ _ Hrun) as (-> & _ & Hreq & _).
    rewrite all_planned_live in Hreq by exact Hlive. eauto. }
  split; [exact Hgen|].
  intros m a1 a2 Hk1 Hk2 Hown Ht1 Ht2.
  destruct (Hgen [m] [a1; a2]) as (w' & Hrun & Hreq).
  assert (Hcands : addl_candidates (SYNC_TAG_NAME cfg) [a1; a2] = [a1; a2]).
  { unfold addl_candidates, has_sync_tag. simpl. now rewrite Ht1, Ht2. }
  assert (Hb : forall a, key_for a = key_for m -> bucket [m] a = [m]).
  { intros a Ha. unfold bucket. simpl. now rewrite bool_decide_eq_true_2. }
  assert (Hcls : forall a, key_for a = key_for m -> classify [m] a = NEW_SHARED).
  { intros a Ha. apply classify_new_shared; rewrite (Hb a Ha); [discriminate|].
    now repeat constructor. }
  rewrite Hcands in Hrun, Hreq. exists w'. split.
  - rewrite Hrun. unfold tally. simpl. now rewrite (Hcls a1 Hk1), (Hcls a2 Hk2).
  - rewrite Hreq. f_equal. simpl. unfold plan, tagging, add_sync_tag.
    rewrite (Hcls a1 Hk1), (Hcls a2 Hk2), (Hb a1 Hk1), (Hb a2 Hk2), Ht1, Ht2.
    reflexivity.
Qed.

Lemma candidates_judged_on_fetched_lists_witness :
  exists w',
    reconcile (Example.cfg false) "T" [normalized Example.m1]
      [normalized (Example.purchase "a4" "amazon" None []);
       normalized (Example.purchase "a5" "AMAZON " None [])]
      (Ledger.start Example.two_individual)
    = (Ok {| count_synced_existing_shared := 0;
             count_synced_new_shared := 2;
             count_no_match := 0 |}, w') /\
    requests w'
    = [Web_UpdateTransactionOverview "m1"; Web_SetTransactionTags "a4" ["T"];
       Web_UpdateTransactionOverview "m1"; Web_SetTransactionTags "a5" ["T"]].
Proof.
  apply (proj2 (candidates_judged_on_fetched_lists (Example.cfg false) "T"
                  (Ledger.start Example.two_individual) eq_refl
                  LedgerFacts.ledger_accepts)
           (normalized Example.m1)
           (normalized (Example.purchase "a4" "amazon" None []))
           (normalized (Example.purchase "a5" "AMAZON " None [])));
    reflexivity.
Defined.

(** Whatever happens in a run, every request it sends is a mutation of one
    of two kinds: it clears the owner of a main-card transaction in the
    bucket of a candidate, a bucket that holds no shared transaction; or it
    sets the tags of a candidate with a main-card match to its existing
    identifiers, all kept and in order, followed by the identifier of the
    sync tag, which was not among them. A dry run sends none. *)
Theorem requests_of_a_run {Remote : Type} `{!Gql Remote}
    (cfg : config) (tag_id : string) (main_txns addl_txns : list txn)
    (w : world Remote) :
  exists sent,
    requests (snd (reconcile cfg tag_id main_txns addl_txns w))
    = requests w ++ sent /\
    (DRY_RUN cfg = true -> sent = []) /\
    forall r, In r sent ->
      exists a, In a (addl_candidates (SYNC_TAG_NAME cfg) addl_txns) /\
        ((exists m, In m (bucket main_txns a) /\
                    In m main_txns /\ key_for m = key_for a /\
                    Forall (fun m => t_owner m = INDIVIDUAL) (bucket main_txns a) /\
                    r = Web_UpdateTransactionOverview (t_id m)) \/
         (bucket main_txns a <> [] /\
          ~ In tag_id (map tg_id (t_tags a)) /\
          r = Web_SetTransactionTags (t_id a)
                (map tg_id (t_tags a) ++ [tag_id]))).
Proof.
  destruct (reconcile cfg tag_id main_txns addl_txns w) as [res w'] eqn:Hrun.
  apply reconcile_run in Hrun as (seen & sent & _ & _ & Hpre & Hreq & _).
  exists sent. split; [exact Hreq|]. split.
  - intros Hdry. rewrite all_planned_dry in Hpre by exact Hdry.
    now apply prefix_nil_inv in Hpre.
  - intros r Hr. destruct Hpre as [rest Hall].
    assert (Hin : In r (all_planned cfg tag_id main_txns
                          (addl_candidates (SYNC_TAG_NAME cfg) addl_txns))).
    { rewrite Hall. apply in_or_app. now left. }
    unfold all_planned in Hin. apply in_concat in Hin as (l & Hl & Hrl).
    apply in_map_iff in Hl as (a & <- & Ha). exists a. split; [exact Ha|].
    unfold planned in Hrl. destruct (DRY_RUN cfg); [destruct Hrl|].
    apply in_plan in Hrl as [(m & Hm & Hind & ->)|H]; [left|now right].
    exists m. pose proof Hm as Hm'. apply in_bucket in Hm' as [Hin Hk]. auto 6.
Qed.

(** A run that raises is a live run in which a mutation raised: that
    mutation is the last request sent, the requests sent are the first of
    those planned for the candidates, the error is the one the service
    answered, and the summary is not printed. *)
Theorem run_aborts_at_first_failure {Remote : Type} `{!Gql Remote}
    (cfg : config) (tag_id : string) (main_txns addl_txns : list txn)
    (w : world Remote) (e : error) (w' : world Remote) :
  reconcile cfg tag_id main_txns addl_txns w = (Raise e, w') ->
  DRY_RUN cfg = false /\
  (exists sent r rest,
     plans tag_id main_txns (addl_candidates (SYNC_TAG_NAME cfg) addl_txns)
     = sent ++ r :: rest /\
     requests w' = requests w ++ sent ++ [r] /\
     answer r (apply_all sent (remote w)) = Raise e) /\
  exists out, stdout w' = stdout w ++ out /\ ~ In Summary out.
Proof.
  rewrite reconcile_loop. cbv zeta.
  destruct (for_each _ _ _ _) as [[c|e1] w1] eqn:Hloop; [discriminate|].
  intros [= <- <-].
  apply loop_raise in Hloop as (Hlive & Hsent & out & Hout & Hsum).
  simpl in Hsent, Hout. split; [exact Hlive|]. split; [exact Hsent|].
  eexists. split; [rewrite Hout, <- app_assoc; reflexivity|].
  intros [H|Hin]; [discriminate H | auto].
Qed.

Lemma run_aborts_at_first_failure_witness :
  exists w',
    reconcile (Example.cfg false) "T"
      (Ledger.snapshot Example.two_individual "main")
      (Ledger.snapshot Example.two_individual "addl") Refusing.start
    = (Raise (HTTPError 500), w') /\
    requests w'
    = [Web_UpdateTransactionOverview "m1"; Web_UpdateTransactionOverview "m2";
       Web_SetTransactionTags "a1" ["F"; "T"]] /\
    exists out, stdout w' = [] ++ out /\ ~ In Summary out.
Proof.
  eexists. split; [vm_compute; reflexivity|]. split; [reflexivity|].
  apply (run_aborts_at_first_failure (Example.cfg false) "T"
           (Ledger.snapshot Example.two_individual "main")
           (Ledger.snapshot Example.two_individual "addl") Refusing.start
           (HTTPError 500)).
  vm_compute. reflexivity.
Defined.

(** A run that returns has printed, after what was printed before, the
    line with the number of candidates, then for each candidate in order
    its classification with its date, amount, merchant name and
    description, followed, unless it has no match, by the line of the dry
    run or of the update, and then the summary with the three counters,
    with the line of the dry run at the end in a dry run. *)
Theorem run_prints {Remote : Type} `{!Gql Remote}
    (cfg : config) (tag_id : string) (main_txns addl_txns : list txn)
    (w : world Remote) (c : counters) (w' : world Remote) :
  reconcile cfg tag_id main_txns addl_txns w = (Ok c, w') ->
  stdout w'
  = stdout w
    ++ [Candidates (SYNC_TAG_NAME cfg)
          (length (addl_candidates (SYNC_TAG_NAME cfg) addl_txns))]
    ++ concat (map (fun addl =>
                 Classified (classify main_txns addl) (t_date addl) (t_amount addl)
                            (merchant_name addl) (t_description addl)
                 :: match classify main_txns addl with
                    | NO_MATCH => []
                    | cls => [if DRY_RUN cfg then DryRunWould cls else Updated cls]
                    end)
               (addl_candidates (SYNC_TAG_NAME cfg) addl_txns))
    ++ [Summary; SummaryExisting (count_synced_existing_shared c);
        SummaryNew (count_synced_new_shared c);
        SummaryNoMatch (count_no_match c)]
    ++ (if DRY_RUN cfg then [DryRunWasEnabled] else []).
Proof.
  rewrite reconcile_loop. cbv zeta.
  destruct (for_each _ _ _ _) as [[c1|e1] w1] eqn:Hloop; [|discriminate].
  intros [= <- <-]. apply loop_ok_stdout in Hloop. simpl in *.
  rewrite Hloop. unfold summary, log. now rewrite <- !app_assoc.
Qed.

Lemma run_prints_witness :
  stdout (snd (Example.run true Example.one_shared))
  = [] ++ [Candidates "synced" 1]
    ++ [Classified EXISTING_SHARED "2024-05-01" (Q2Qc (-1234 # 100))
          "AMAZON" "AMZN Mktp";
        DryRunWould EXISTING_SHARED]
    ++ [Summary; SummaryExisting 1; SummaryNew 0; SummaryNoMatch 0]
    ++ [DryRunWasEnabled].
Proof.
  apply (run_prints (Example.cfg true) "T"
           (Ledger.snapshot Example.one_shared "main")
           (Ledger.snapshot Example.one_shared "addl")
           (Ledger.start Example.one_shared) (count EXISTING_SHARED zero)
           (snd (Example.run true Example.one_shared))).
  vm_compute. reflexivity.
Defined.

(** ** What a fetch sends *)

Section MoreFetch.
Context {Remote : Type} `{!Gql Remote}.

Lemma apply_all_cons (r : request) (rs : list request) (s : Remote) :
  apply_all (r :: rs) s = apply_all rs (apply r s).
Proof. reflexivity. Qed.

Lemma fetch_loop_requests (account_id : string) (fuel : nat) :
  forall (offset : Z) (acc : list txn) (w : world Remote) res w',
    fetch_loop fuel account_id offset acc w = Some (res, w') ->
    stdout w' = stdout w /\
    exists offsets,
      requests w' = requests w ++ map (page_query account_id) (offset :: offsets) /\
      StronglySorted Z.lt (offset :: offsets) /\
      remote w' = apply_all (map (page_query account_id) (offset :: offsets))
                            (remote w) /\
      (forall e, res = Raise e ->
         exists before last,
           offset :: offsets = before ++ [last] /\
           fst (allTransactions account_id last 200
                  (apply_all (map (page_query account_id) before) (remote w)))
           = Raise e).
Proof.
  induction fuel as [|fuel IH]; intros offset acc w res w' Hrun; [discriminate|].
  simpl in Hrun. unfold gql in Hrun.
  destruct (allTransactions account_id offset 200 (remote w)) as [[data|e] s] eqn:Hpage.
  - set (w1 := {| remote := s;
                  requests := requests w
                    ++ [Web_GetTransactionsList account_id offset 200];
                  stdout := stdout w |}) in *.
    assert (Hs : s = apply (page_query account_id offset) (remote w))
      by (simpl; now rewrite Hpage).
    destruct ((_ <=? _)%Z || is_nil (results data)) eqn:Hlast.
    + injection Hrun as <- <-. split; [reflexivity|]. exists [].
      split; [reflexivity|]. split; [repeat constructor|].
      split; [exact Hs | discriminate].
    + apply orb_false_iff in Hlast as [_ Hnil].
      destruct (IH _ _ _ _ _ Hrun) as (Hout & offsets & Hreq & Hsorted & Hrem & Hraise).
      split; [exact Hout|].
      exists ((offset + Z.of_nat (length (results data)))%Z :: offsets).
      split; [rewrite Hreq; simpl; now rewrite <- app_assoc|].
      split.
      { constructor; [exact Hsorted|].
        assert (Hlt : (offset < offset + Z.of_nat (length (results data)))%Z).
        { destruct (results data); [discriminate | simpl length; lia]. }
        constructor; [exact Hlt|].
        apply StronglySorted_inv in Hsorted as [_ Hall].
        eapply Forall_impl; [exact Hall|]. simpl. intros x Hx. lia. }
      split.
      { rewrite Hrem. simpl map. rewrite (apply_all_cons (page_query account_id offset)).
        now rewrite <- Hs. }
      intros e He. destruct (Hraise e He) as (before & last & Hsplit & Hans).
      exists (offset :: before), last. split; [now rewrite Hsplit|].
      simpl map. rewrite apply_all_cons, <- Hs. exact Hans.
  - injection Hrun as <- <-. split; [reflexivity|]. exists [].
    split; [reflexivity|]. split; [repeat constructor|].
    split; [simpl; now rewrite Hpage|].
    intros e' [= <-]. exists [], offset. split; [reflexivity|].
    simpl. now rewrite Hpage.
Qed.

End MoreFetch.

(** Whatever the service and the fuel, a fetch that ends has printed none
    of the lines of [main] and sent no mutation: it has only sent queries
    for pages of 200 of the account, the first at offset 0 and each at an
    offset above the one before; and when it raises, the error is the
    answer of the service to the last of them. *)
Theorem fetch_sends_only_page_queries {Remote : Type} `{!Gql Remote}
    (fuel : nat) (account_id : string) (w : world Remote)
    (res : result (list txn)) (w' : world Remote) :
  fetch_transactions fuel account_id w = Some (res, w') ->
  stdout w' = stdout w /\
  mutations w' = mutations w /\
  exists offsets,
    requests w' = requests w
      ++ map (fun offset => Web_GetTransactionsList account_id offset 200)
             (0%Z :: offsets) /\
    StronglySorted Z.lt (0%Z :: offsets) /\
    (forall e, res = Raise e ->
       exists before last,
         0%Z :: offsets = before ++ [last] /\
         fst (allTransactions account_id last 200
                (apply_all
                   (map (fun offset => Web_GetTransactionsList account_id offset 200)
                        before)
                   (remote w)))
         = Raise e).
Proof.
  unfold fetch_transactions. intros Hrun.
  apply fetch_loop_requests in Hrun
    as (Hout & offsets & Hreq & Hsorted & _ & Hraise).
  split; [exact Hout|]. split.
  - unfold mutations. rewrite Hreq, List.filter_app.
    assert (Hq : forall l, List.filter is_mutation (map (page_query account_id) l) = []).
    { induction l; simpl; auto. }
    now rewrite Hq, app_nil_r.
  - exists offsets. auto.
Qed.

Lemma fetch_sends_only_page_queries_witness :
  exists offsets (w' : world Ledger.ledger),
    fetch_transactions 3 "main" (Ledger.start Example.two_individual)
    = Some (Ok (Ledger.snapshot Example.two_individual "main"), w') /\
    mutations w' = [] /\
    requests w'
    = [] ++ map (fun offset => Web_GetTransactionsList "main" offset 200)
               (0%Z :: offsets).
Proof.
  destruct (LedgerFacts.fetch_transactions_ledger 3 "main"
              (Ledger.start Example.two_individual)) as (w' & Hrun & _);
    [vm_compute; lia|].
  destruct (fetch_sends_only_page_queries 3 "main"
              (Ledger.start Example.two_individual) _ w' Hrun)
    as (_ & Hmut & offsets & Hreq & _).
  exists offsets, w'. split; [exact Hrun|]. split; [exact Hmut | exact Hreq].
Defined.

(** ** Fetching from a ledger *)

Lemma pages_of_small (d : nat) : d <= 200 -> pages_of d = 1.
Proof.
  intros Hd. unfold pages_of. rewrite Nat.div_small by lia. reflexivity.
Qed.

Lemma pages_of_next (d : nat) : 200 < d -> pages_of d = S (pages_of (d - 200)).
Proof.
  intros Hd. unfold pages_of. f_equal.
  replace (d - 1) with ((d - 200 - 1) + 1 * 200) by lia.
  rewrite Nat.div_add by lia. lia.
Qed.

Lemma fetch_loop_ledger_requests (account_id : string) (fuel : nat) :
  forall (k : nat) (acc : list txn) (w : world Ledger.ledger) res w',
    k <= length (Ledger.account (remote w) account_id) ->
    fetch_loop fuel account_id (Z.of_nat k) acc w = Some (res, w') ->
    requests w'
    = requests w
      ++ map (fun i => Web_GetTransactionsList account_id
                         (Z.of_nat k + 200 * Z.of_nat i) 200)
             (seq 0 (pages_of (length (Ledger.account (remote w) account_id) - k))).
Proof.
  induction fuel as [|fuel IH]; intros k acc w res w' Hk Hrun; [discriminate|].
  set (l := Ledger.account (remote w) account_id) in *.
  cbn [fetch_loop] in Hrun. unfold gql in Hrun.
  cbn [allTransactions Ledger.ledger_gql] in Hrun.
  fold l in Hrun. unfold Ledger.page_of in Hrun.
  cbn [results totalSelectableCount totalCount] in Hrun.
  rewrite LedgerFacts.or_int_length, Nat2Z.id in Hrun.
  change (Z.to_nat 200) with 200 in Hrun.
  set (batch := take 200 (drop k l)) in *.
  assert (Hlen : length batch = Nat.min 200 (length l - k)).
  { unfold batch. now rewrite length_take, length_drop. }
  set (w1 := {| remote := remote w;
                requests := requests w
                  ++ [Web_GetTransactionsList account_id (Z.of_nat k) 200];
                stdout := stdout w |}) in *.
  destruct (Z.leb_spec (Z.of_nat (length l)) (Z.of_nat k + Z.of_nat (length batch)))
    as [Hle|Hgt].
  - simpl in Hrun. injection Hrun as _ <-.
    rewrite pages_of_small by lia. simpl. now rewrite Z.add_0_r.
  - destruct batch as [|t batch'] eqn:Hbatch; cbn [length] in Hlen, Hgt; [lia|].
    cbn [orb is_nil] in Hrun.
    replace (Z.of_nat k + Z.of_nat (length (t :: batch')))%Z
      with (Z.of_nat (k + 200)) in Hrun by (cbn [length]; lia).
    apply IH in Hrun; [|simpl; fold l; lia].
    subst w1. cbn [remote requests] in Hrun. fold l in Hrun. rewrite Hrun.
    assert (Hmore : 200 < length l - k)
      by (destruct (Nat.min_spec 200 (length l - k)) as [[_ Hm]|[_ Hm]];
          rewrite Hm in Hlen; lia).
    rewrite (pages_of_next _ Hmore). rewrite <- app_assoc. f_equal.
    cbn [seq map app]. rewrite Z.mul_0_r, Z.add_0_r. f_equal.
    rewrite <- seq_shift, map_map.
    replace (length l - (k + 200)) with (length l - k - 200) by lia.
    apply map_ext. intros i. f_equal. lia.
Qed.

(** From a ledger at rest, with fuel above the number of transactions of
    the account, the fetch returns all the transactions of the account,
    normalised, in the order of the ledger; it has sent one query for each
    page of 200, at the offsets 0, 200, 400 and so on (a single query when
    the account is empty), and has left the ledger as it is. *)
Theorem fetch_reads_whole_account (fuel : nat) (account_id : string)
    (w : world Ledger.ledger) :
  length (Ledger.account (remote w) account_id) < fuel ->
  exists w',
    fetch_transactions fuel account_id w
    = Some (Ok (map normalized (Ledger.account (remote w) account_id)), w') /\
    remote w' = remote w /\
    stdout w' = stdout w /\
    requests w'
    = requests w
      ++ map (fun i => Web_GetTransactionsList account_id (200 * Z.of_nat i) 200)
             (seq 0 (pages_of (length (Ledger.account (remote w) account_id)))).
Proof.
  intros Hfuel.
  destruct (LedgerFacts.fetch_transactions_ledger fuel account_id w Hfuel)
    as (w' & Hrun & Hrem & Hout & _).
  exists w'. split; [exact Hrun|]. split; [exact Hrem|]. split; [exact Hout|].
  unfold fetch_transactions in Hrun.
  apply (fetch_loop_ledger_requests account_id fuel 0) in Hrun; [|lia].
  rewrite Hrun, Nat.sub_0_r. reflexivity.
Qed.

Lemma fetch_reads_whole_account_witness :
  exists w',
    fetch_transactions 3 "main" (Ledger.start Example.two_individual)
    = Some (Ok [normalized Example.m1; normalized Example.m2], w') /\
    remote w' = Example.two_individual /\
    stdout w' = [] /\
    requests w' = [Web_GetTransactionsList "main" 0 200].
Proof.
  apply (fetch_reads_whole_account 3 "main" (Ledger.start Example.two_individual)).
  vm_compute. lia.
Defined.

(** ** The whole of [main] *)

(** [main] reports as missing, in this order, the main account when
    [MAIN_ACCOUNT_ID] is unset or empty, the additional account when
    [ADDL_ACCOUNT_ID] is, and the token when both [MONARCH_API_TOKEN] and
    [MONARCH_BEARER_TOKEN] are; and when one is missing it exits with a
    message that lists them, before it prints anything or sends any
    request, whatever the fuel and the service. *)
Theorem main_checks_configuration {Remote : Type} `{!Gql Remote}
    (environ : gmap string string) (fuel : nat) (w : world Remote) :
  missing (load_config environ)
  = (if is_set environ "MAIN_ACCOUNT_ID" then [] else ["MAIN_ACCOUNT_ID"])
    ++ (if is_set environ "ADDL_ACCOUNT_ID" then [] else ["ADDL_ACCOUNT_ID"])
    ++ (if is_set environ "MONARCH_API_TOKEN"
           || is_set environ "MONARCH_BEARER_TOKEN"
        then [] else ["MONARCH_API_TOKEN (or MONARCH_BEARER_TOKEN)"]) /\
  (missing (load_config environ) <> [] ->
   main fuel (load_config environ) w
   = Some (Raise (SystemExit ("Missing required environment variables: "
                              +:+ join_comma (missing (load_config environ)))),
           w)).
Proof.
  split.
  - unfold missing, load_config, is_set, or_opt. cbn [MAIN_ACCOUNT_ID ADDL_ACCOUNT_ID API_TOKEN].
    destruct (environ !! "MAIN_ACCOUNT_ID") as [[|? ?]|];
      destruct (environ !! "ADDL_ACCOUNT_ID") as [[|? ?]|];
      destruct (environ !! "MONARCH_API_TOKEN") as [[|? ?]|];
      destruct (environ !! "MONARCH_BEARER_TOKEN") as [[|? ?]|];
      reflexivity.
  - intros Hmissing. unfold main.
    destruct (missing (load_config environ)); [congruence | reflexivity].
Qed.

Lemma main_checks_configuration_witness :
  main 5 (load_config {[ "MAIN_ACCOUNT_ID" := "main"; "ADDL_ACCOUNT_ID" := "" ]})
       (Ledger.start Example.two_individual)
  = Some (Raise (SystemExit
            ("Missing required environment variables: "
             +:+ join_comma
                   (missing (load_config
                      {[ "MAIN_ACCOUNT_ID" := "main"; "ADDL_ACCOUNT_ID" := "" ]})))),
          Ledger.start Example.two_individual) /\
  missing (load_config {[ "MAIN_ACCOUNT_ID" := "main"; "ADDL_ACCOUNT_ID" := "" ]})
  = ["ADDL_ACCOUNT_ID"; "MONARCH_API_TOKEN (or MONARCH_BEARER_TOKEN)"].
Proof.
  destruct (main_checks_configuration
              {[ "MAIN_ACCOUNT_ID" := "main"; "ADDL_ACCOUNT_ID" := "" ]} 5
              (Ledger.start Example.two_individual)) as [Hmissing Hexit].
  split.
  - apply Hexit. rewrite Hmissing. vm_compute. discriminate.
  - rewrite Hmissing. vm_compute. reflexivity.
Defined.

Section MoreMain.
Context {Remote : Type} `{!Gql Remote}.

Lemma fetch_transactions_mutations (fuel : nat) (account_id : string)
    (w : world Remote) res w' :
  fetch_transactions fuel account_id w = Some (res, w') ->
  mutations w' = mutations w.
Proof.
  unfold fetch_transactions. intros Hrun.
  apply fetch_loop_requests in Hrun as (_ & offsets & Hreq & _).
  unfold mutations. rewrite Hreq, List.filter_app.
  assert (Hq : forall l, List.filter is_mutation (map (page_query account_id) l) = []).
  { induction l; simpl; auto. }
  now rewrite Hq, app_nil_r.
Qed.

Lemma ensure_tag_id_mutations (name : string) (w : world Remote) :
  mutations (snd (ensure_tag_id name w)) = mutations w.
Proof.
  unfold ensure_tag_id, bind, gql, mutations.
  destruct (householdTransactionTags 500 (remote w)) as [[data|e] s]; simpl.
  - destruct (find _ _); simpl; now rewrite List.filter_app, app_nil_r.
  - now rewrite List.filter_app, app_nil_r.
Qed.

Lemma reconcile_dry_requests (cfg : config) (tag_id : string)
    (main_txns addl_txns : list txn) (w : world Remote) :
  DRY_RUN cfg = true ->
  requests (snd (reconcile cfg tag_id main_txns addl_txns w)) = requests w.
Proof.
  intros Hdry.
  destruct (reconcile cfg tag_id main_txns addl_txns w) as [res w'] eqn:Hrun.
  apply reconcile_run in Hrun as (seen & sent & _ & _ & Hpre & Hreq & _).
  rewrite all_planned_dry in Hpre by exact Hdry.
  apply prefix_nil_inv in Hpre. subst sent. simpl. now rewrite Hreq, app_nil_r.
Qed.

End MoreMain.

(** A dry run of [main] sends no mutation, whatever the service answers
    and however the run ends. *)
Theorem dry_main_sends_no_mutation {Remote : Type} `{!Gql Remote}
    (fuel : nat) (cfg : config) (w : world Remote)
    (res : result counters) (w' : world Remote) :
  DRY_RUN cfg = true ->
  main fuel cfg w = Some (res, w') ->
  mutations w' = mutations w.
Proof.
  intros Hdry. unfold main.
  destruct (negb (is_nil (missing cfg))); [now intros [= _ <-]|].
  unfold print at 1.
  set (w0 := {| remote := remote w; requests := requests w;
                stdout := stdout w ++ [Fetching] |}).
  assert (H0 : mutations w0 = mutations w) by reflexivity.
  destruct (fetch_transactions fuel _ w0) as [[[main_txns|e] w1]|] eqn:Hmain;
    [|intros [= _ <-]|discriminate].
  - apply fetch_transactions_mutations in Hmain.
    destruct (fetch_transactions fuel _ w1) as [[[addl_txns|e] w2]|] eqn:Haddl;
      [|intros [= _ <-]|discriminate].
    + apply fetch_transactions_mutations in Haddl.
      unfold bind.
      pose proof (ensure_tag_id_mutations (SYNC_TAG_NAME cfg) w2) as Htag.
      destruct (ensure_tag_id (SYNC_TAG_NAME cfg) w2) as [[tag_id|e] w3];
        simpl in Htag.
      * pose proof (reconcile_dry_requests cfg tag_id main_txns addl_txns w3 Hdry)
          as Hrec.
        intros [= Hrun]. rewrite Hrun in Hrec. simpl in Hrec.
        unfold mutations in *. rewrite Hrec. congruence.
      * intros [= _ <-]. congruence.
    + apply fetch_transactions_mutations in Haddl. congruence.
  - apply fetch_transactions_mutations in Hmain. congruence.
Qed.

Lemma dry_main_sends_no_mutation_witness :
  exists res w',
    main 3 (Example.cfg true) (Ledger.start Example.two_individual)
    = Some (res, w') /\
    mutations w' = mutations (Ledger.start Example.two_individual).
Proof.
  eexists _, _. split; [vm_compute; reflexivity|].
  apply (dry_main_sends_no_mutation 3 (Example.cfg true)
           (Ledger.start Example.two_individual)
           (Ok (count NEW_SHARED zero))); [reflexivity|].
  vm_compute. reflexivity.
Defined.

(** ** Runs of [main] on a ledger *)

Lemma find_none_of {A} (f : A -> bool) (l : list A) :
  (forall y, In y l -> f y = false) -> find f l = None.
Proof.
  induction l as [|a l IH]; simpl; [reflexivity|]. intros Hall.
  rewrite (Hall a) by now left. apply IH. intros y Hy. apply Hall. now right.
Qed.

(** On a ledger none of whose first 500 tags has the name of the sync tag
    up to letter case, [main] fetches the two accounts and then stops with
    the error that the tag was not found: it has sent no mutation and the
    ledger is as it was. *)
Theorem main_stops_without_sync_tag (fuel : nat) (cfg : config)
    (L : Ledger.ledger) :
  missing cfg = [] ->
  length (Ledger.account L (or_str (MAIN_ACCOUNT_ID cfg) "")) < fuel ->
  length (Ledger.account L (or_str (ADDL_ACCOUNT_ID cfg) "")) < fuel ->
  (forall g, In g (take 500 (Ledger.household_tags L)) ->
             PyStr.same_letters (tg_name g) (SYNC_TAG_NAME cfg) = false) ->
  exists w',
    main fuel cfg (Ledger.start L)
    = Some (Raise (RuntimeError (tag_not_found (SYNC_TAG_NAME cfg))), w') /\
    mutations w' = [] /\
    remote w' = L.
Proof.
  intros Hcfg Hmain Haddl Hnone.
  destruct (LedgerFacts.main_on_ledger fuel cfg (Ledger.start L) Hcfg Hmain Haddl)
    as (w0 & Hrem0 & Hmut0 & Hrun).
  simpl in Hrem0.
  assert (Hres : ensure_tag_id (SYNC_TAG_NAME cfg) w0
                 = (Raise (RuntimeError (tag_not_found (SYNC_TAG_NAME cfg))),
                    {| remote := remote w0;
                       requests := requests w0 ++ [GetHouseholdTransactionTags 500];
                       stdout := stdout w0 |})).
  { unfold ensure_tag_id, bind, gql. simpl. rewrite Hrem0.
    rewrite find_none_of; [reflexivity|].
    intros g Hg. rewrite eqb_lower_same_letters. now apply Hnone. }
  unfold bind in Hrun. rewrite Hres in Hrun.
  eexists. split; [exact Hrun|]. split; [|exact Hrem0].
  unfold mutations in *. simpl. rewrite List.filter_app, Hmut0. reflexivity.
Qed.

Lemma main_stops_without_sync_tag_witness :
  exists w',
    main 3 {| MAIN_ACCOUNT_ID := Some "main"; ADDL_ACCOUNT_ID := Some "addl";
              API_TOKEN := Some "token"; SYNC_TAG_NAME := "shared";
              DRY_RUN := false |}
         (Ledger.start Example.two_individual)
    = Some (Raise (RuntimeError (tag_not_found "shared")), w') /\
    mutations w' = [] /\
    remote w' = Example.two_individual.
Proof.
  apply (main_stops_without_sync_tag 3
           {| MAIN_ACCOUNT_ID := Some "main"; ADDL_ACCOUNT_ID := Some "addl";
              API_TOKEN := Some "token"; SYNC_TAG_NAME := "shared";
              DRY_RUN := false |}
           Example.two_individual).
  - reflexivity.
  - vm_compute. lia.
  - vm_compute. lia.
  - intros g [<-|[<-|[]]]; reflexivity.
Defined.

(** Two runs of [main] in a row, on a ledger whose tags have distinct
    identifiers and whose first 500 tags hold the sync tag, with fuel above
    the lengths of the two accounts: both return their counts, and the
    second sends no mutation and leaves the ledger as the first left it. *)
Theorem main_rerun_changes_nothing (fuel : nat) (cfg : config)
    (L : Ledger.ledger) (tag_id : string) :
  missing cfg = [] ->
  length (Ledger.account L (or_str (MAIN_ACCOUNT_ID cfg) "")) < fuel ->
  length (Ledger.account L (or_str (ADDL_ACCOUNT_ID cfg) "")) < fuel ->
  fst (ensure_tag_id (SYNC_TAG_NAME cfg) (Ledger.start L)) = Ok tag_id ->
  List.NoDup (map tg_id (Ledger.household_tags L)) ->
  exists c1 w1 c2 w2,
    main fuel cfg (Ledger.start L) = Some (Ok c1, w1) /\
    main fuel cfg w1 = Some (Ok c2, w2) /\
    mutations w2 = mutations w1 /\
    remote w2 = remote w1.
Proof. exact (LedgerFacts.main_twice fuel cfg L tag_id). Qed.

Lemma main_rerun_changes_nothing_witness :
  exists c1 w1 c2 w2,
    main 3 (Example.cfg false) (Ledger.start Example.two_individual)
    = Some (Ok c1, w1) /\
    main 3 (Example.cfg false) w1 = Some (Ok c2, w2) /\
    mutations w2 = mutations w1 /\
    remote w2 = remote w1.
Proof.
  apply (main_rerun_changes_nothing 3 (Example.cfg false)
           Example.two_individual "T").
  - reflexivity.
  - vm_compute. lia.
  - vm_compute. lia.
  - reflexivity.
  - repeat constructor; simpl; intuition discriminate.
Defined.

(** ** What a live run leaves on a ledger *)

Lemma steps_tags_cases (catalog : list tag) (rs : list request) (t : raw_txn) :
  r_tags (Ledger.steps catalog rs t) = r_tags t \/
  exists tag_ids,
    In (Web_SetTransactionTags (r_id t) tag_ids) rs /\
    r_tags (Ledger.steps catalog rs t)
    = Some (Ledger.tags_of_ids catalog tag_ids).
Proof.
  induction rs as [|r rs IH] using rev_ind; [now left|].
  rewrite LedgerFacts.steps_snoc.
  destruct (LedgerFacts.steps_same catalog rs t) as (Hid & _).
  assert (Hweak : r_tags (Ledger.steps catalog rs t) = r_tags t \/
                  exists tag_ids,
                    In (Web_SetTransactionTags (r_id t) tag_ids) (rs ++ [r]) /\
                    r_tags (Ledger.steps catalog rs t)
                    = Some (Ledger.tags_of_ids catalog tag_ids)).
  { destruct IH as [IH|(ids & Hin & IH)]; [now left|].
    right. exists ids. split; [apply in_or_app; now left | exact IH]. }
  destruct r as [a o l|l|txn_id|txn_id ids]; simpl; try exact Hweak.
  - destruct (String.eqb _ txn_id); simpl; exact Hweak.
  - destruct (String.eqb_spec (r_id (Ledger.steps catalog rs t)) txn_id)
      as [Heq|_]; [|exact Hweak].
    right. exists ids. simpl. split; [|reflexivity].
    apply in_or_app. right. left. now rewrite <- Heq, Hid.
Qed.

Lemma ledger_bucket (L : Ledger.ledger) (account_id : string) (a : txn) :
  bucket (Ledger.snapshot L account_id) a
  = map normalized
      (List.filter (fun t => bool_decide (key_for (normalized t) = key_for a))
                   (Ledger.account L account_id)).
Proof. unfold bucket, Ledger.snapshot. apply LedgerFacts.filter_map_comm. Qed.

Lemma ledger_bucket_after (L : Ledger.ledger) (rs : list request)
    (account_id : string) (ta : raw_txn) :
  bucket (Ledger.snapshot (apply_all rs L) account_id)
         (normalized (Ledger.steps (Ledger.household_tags L) rs ta))
  = map (fun t => normalized (Ledger.steps (Ledger.household_tags L) rs t))
      (List.filter
         (fun t => bool_decide (key_for (normalized t) = key_for (normalized ta)))
         (Ledger.account L account_id)).
Proof.
  unfold bucket. rewrite LedgerFacts.snapshot_apply_all, LedgerFacts.filter_map_comm.
  f_equal. apply filter_ext. intros t. now rewrite !LedgerFacts.steps_key.
Qed.

(** The identifier the resolver returns is that of a tag of the ledger. *)
Lemma resolved_tag_of_id (name : string) (w : world Ledger.ledger)
    (tag_id : string) :
  fst (ensure_tag_id name w) = Ok tag_id ->
  exists g, Ledger.tag_of_id (Ledger.household_tags (remote w)) tag_id = Some g /\
            tg_id g = tag_id.
Proof.
  unfold ensure_tag_id, bind, gql. simpl.
  set (cat := Ledger.household_tags (remote w)).
  destruct (find _ (take _ cat)) as [g0|] eqn:Hfind; [|discriminate].
  unfold ret. simpl. intros [= <-].
  apply find_some in Hfind as [Hin0 _].
  assert (Hcat : In g0 cat).
  { rewrite <- (take_drop (Z.to_nat 500) cat). apply in_or_app. now left. }
  unfold Ledger.tag_of_id.
  destruct (find (fun g => String.eqb (tg_id g) (tg_id g0)) cat) as [g1|] eqn:Hid.
  - apply find_some in Hid as [_ Heq]. apply String.eqb_eq in Heq. eauto.
  - apply find_none with (x := g0) in Hid; [|exact Hcat].
    now rewrite String.eqb_refl in Hid.
Qed.

(** The ledger after the requests of a live run, seen from a matched
    candidate. *)
Lemma plans_effect (L : Ledger.ledger) (name tag_id : string)
    (main_account addl_account : string) (g : tag) (ta : raw_txn) :
  Ledger.tag_of_id (Ledger.household_tags L) tag_id = Some g ->
  tg_id g = tag_id ->
  In ta (Ledger.account L addl_account) ->
  has_sync_tag (normalized ta) name = false ->
  classify (Ledger.snapshot L main_account) (normalized ta) <> NO_MATCH ->
  forall R ta',
    R = plans tag_id (Ledger.snapshot L main_account)
          (addl_candidates name (Ledger.snapshot L addl_account)) ->
    ta' = Ledger.steps (Ledger.household_tags L) R ta ->
    In tag_id (map tg_id (t_tags (normalized ta'))) /\
    classify (Ledger.snapshot (apply_all R L) main_account) (normalized ta')
    = EXISTING_SHARED /\
    (classify (Ledger.snapshot L main_account) (normalized ta) = NEW_SHARED ->
     forallb is_shared
       (bucket (Ledger.snapshot (apply_all R L) main_account) (normalized ta'))
     = true).
Proof.
  intros Hg Hgid Hta Hno Hcls R ta' HR Hta'.
  set (cat := Ledger.household_tags L) in *.
  set (main0 := Ledger.snapshot L main_account) in *.
  set (cands0 := addl_candidates name (Ledger.snapshot L addl_account)) in *.
  set (a := normalized ta) in *.
  assert (Hcand : In a cands0).
  { apply filter_In. split; [unfold Ledger.snapshot; now apply in_map|].
    now apply negb_true_iff. }
  split.
  { assert (Hfrom : forall ids,
              In (Web_SetTransactionTags (r_id ta) ids) R ->
              r_tags ta' = Some (Ledger.tags_of_ids cat ids) ->
              In tag_id (map tg_id (t_tags (normalized ta')))).
    { intros ids Hin E. unfold normalized. simpl. rewrite E. simpl.
      apply in_map_iff. exists g. split; [exact Hgid|].
      apply LedgerFacts.in_tags_of_ids with (tag_id := tag_id); [exact Hg|].
      rewrite HR in Hin. apply LedgerFacts.in_plans in Hin as (x & _ & Hx).
      now apply LedgerFacts.plan_set_tags in Hx. }
    destruct (in_dec string_dec tag_id (map tg_id (t_tags a))) as [Hin|Hnin].
    - destruct (steps_tags_cases cat R ta) as [Hkept|(ids & Hin' & E)].
      + unfold normalized. simpl. rewrite Hta', Hkept. exact Hin.
      + apply (Hfrom ids Hin'). now rewrite Hta'.
    - destruct (LedgerFacts.steps_tags_set cat R ta) as (ids & Hin' & E).
      { exists (map tg_id (t_tags a) ++ [tag_id]). rewrite HR.
        apply LedgerFacts.in_plans. exists a. split; [exact Hcand|].
        exact (LedgerFacts.plan_tagged tag_id main0 a Hcls Hnin). }
      apply (Hfrom ids Hin'). now rewrite Hta'. }
  pose proof (ledger_bucket L main_account a) as Hb0. fold main0 in Hb0.
  pose proof (ledger_bucket_after L R main_account ta) as Hb1.
  fold cat in Hb1. fold a in Hb1. rewrite <- Hta' in Hb1.
  set (B := List.filter (fun t => bool_decide (key_for (normalized t) = key_for a))
                        (Ledger.account L main_account)) in *.
  set (h := fun t => normalized (Ledger.steps cat R t)) in *.
  assert (Hall : classify main0 a = NEW_SHARED ->
                 forallb is_shared (map h B) = true).
  { intros Hc. apply forallb_forall. intros x Hx.
    apply in_map_iff in Hx as (t & <- & Ht).
    unfold h. apply LedgerFacts.is_shared_normalized, LedgerFacts.steps_owner_cleared.
    rewrite HR. apply LedgerFacts.in_plans. exists a. split; [exact Hcand|].
    change (r_id t) with (t_id (normalized t)).
    apply LedgerFacts.plan_owner; [exact Hc|]. rewrite Hb0. now apply in_map. }
  split; [|intros Hc; rewrite Hb1; auto].
  unfold classify. rewrite Hb1.
  destruct B as [|t B'] eqn:HB.
  { exfalso. apply Hcls. unfold classify. now rewrite Hb0. }
  cbn [map is_nil].
  assert (Hshared : existsb is_shared (h t :: map h B') = true).
  { destruct (classify main0 a) eqn:Hc; [congruence| |].
    - unfold classify in Hc. rewrite Hb0 in Hc. cbn [map is_nil] in Hc.
      destruct (existsb is_shared (normalized t :: map normalized B')) eqn:Hex;
        [|discriminate].
      apply existsb_exists in Hex as (m & Hm & Hsh).
      change (normalized t :: map normalized B') with (map normalized (t :: B')) in Hm.
      apply in_map_iff in Hm as (t0 & <- & Ht0).
      apply existsb_exists. exists (h t0). split.
      + change (h t :: map h B') with (map h (t :: B')). now apply in_map.
      + unfold h. apply LedgerFacts.is_shared_normalized, LedgerFacts.steps_owner_none.
        now apply LedgerFacts.is_shared_normalized.
    - specialize (Hall eq_refl). cbn [map forallb] in Hall.
      apply andb_prop in Hall as [Hfirst _]. simpl. now rewrite Hfirst. }
  now rewrite Hshared.
Qed.

(** [main] on a ledger, with the configuration complete, fuel above the
    lengths of the two accounts and the sync tag resolved. *)
Lemma main_run_on_ledger (fuel : nat) (cfg : config) (L : Ledger.ledger)
    (tag_id : string) :
  missing cfg = [] ->
  length (Ledger.account L (or_str (MAIN_ACCOUNT_ID cfg) "")) < fuel ->
  length (Ledger.account L (or_str (ADDL_ACCOUNT_ID cfg) "")) < fuel ->
  fst (ensure_tag_id (SYNC_TAG_NAME cfg) (Ledger.start L)) = Ok tag_id ->
  exists w1,
    main fuel cfg (Ledger.start L)
    = Some (Ok (tally (Ledger.snapshot L (or_str (MAIN_ACCOUNT_ID cfg) ""))
                  (addl_candidates (SYNC_TAG_NAME cfg)
                     (Ledger.snapshot L (or_str (ADDL_ACCOUNT_ID cfg) "")))
                  zero), w1) /\
    mutations w1
    = all_planned cfg tag_id (Ledger.snapshot L (or_str (MAIN_ACCOUNT_ID cfg) ""))
        (addl_candidates (SYNC_TAG_NAME cfg)
           (Ledger.snapshot L (or_str (ADDL_ACCOUNT_ID cfg) ""))) /\
    remote w1
    = apply_all
        (all_planned cfg tag_id (Ledger.snapshot L (or_str (MAIN_ACCOUNT_ID cfg) ""))
           (addl_candidates (SYNC_TAG_NAME cfg)
              (Ledger.snapshot L (or_str (ADDL_ACCOUNT_ID cfg) ""))))
        L.
Proof.
  intros Hcfg Hmain Haddl Hres.
  destruct (LedgerFacts.main_on_ledger fuel cfg (Ledger.start L) Hcfg Hmain Haddl)
    as (w0 & Hrem0 & Hmut0 & Hrun).
  simpl in Hrem0.
  destruct (LedgerFacts.ensure_tag_id_ledger (SYNC_TAG_NAME cfg) w0)
    as (Hrem0' & Hmut0').
  assert (Hres0 : fst (ensure_tag_id (SYNC_TAG_NAME cfg) w0) = Ok tag_id).
  { rewrite <- Hres. apply LedgerFacts.resolver_reads_tags. now rewrite Hrem0. }
  unfold bind in Hrun.
  destruct (ensure_tag_id (SYNC_TAG_NAME cfg) w0) as [r0 w0'] eqn:He0.
  simpl in Hres0, Hrem0', Hmut0'. subst r0. simpl in Hrun.
  destruct (reconcile_total cfg tag_id
              (Ledger.snapshot L (or_str (MAIN_ACCOUNT_ID cfg) ""))
              (Ledger.snapshot L (or_str (ADDL_ACCOUNT_ID cfg) "")) w0'
              (or_intror LedgerFacts.ledger_accepts)) as (c & w1 & Hrec).
  rewrite Hrec in Hrun.
  destruct (reconcile_ok _ _ _ _ _ _ _ Hrec) as (-> & _ & Hreq & Hrem).
  exists w1. split; [exact Hrun|]. split.
  - unfold mutations in *. rewrite Hreq, List.filter_app, Hmut0', Hmut0. simpl.
    apply forallb_filter_id, forallb_forall. intros r Hr.
    pose proof (all_planned_mutations cfg tag_id
                  (Ledger.snapshot L (or_str (MAIN_ACCOUNT_ID cfg) ""))
                  (addl_candidates (SYNC_TAG_NAME cfg)
                     (Ledger.snapshot L (or_str (ADDL_ACCOUNT_ID cfg) "")))) as Hall.
    rewrite List.Forall_forall in Hall. now apply Hall.
  - rewrite Hrem. congruence.
Qed.

(** After a live run of [main] on a ledger, every additional-card
    transaction that was a candidate with a match carries a tag with the
    identifier of the sync tag, and a fetch of the ledger finds a shared
    transaction for it on the main card; when it was NEW_SHARED, all the
    main-card transactions with its key are shared. *)
Theorem live_main_shares_and_tags (fuel : nat) (cfg : config)
    (L : Ledger.ledger) (tag_id : string) :
  missing cfg = [] ->
  length (Ledger.account L (or_str (MAIN_ACCOUNT_ID cfg) "")) < fuel ->
  length (Ledger.account L (or_str (ADDL_ACCOUNT_ID cfg) "")) < fuel ->
  DRY_RUN cfg = false ->
  fst (ensure_tag_id (SYNC_TAG_NAME cfg) (Ledger.start L)) = Ok tag_id ->
  exists c w1,
    main fuel cfg (Ledger.start L) = Some (Ok c, w1) /\
    forall ta,
      In ta (Ledger.account L (or_str (ADDL_ACCOUNT_ID cfg) "")) ->
      has_sync_tag (normalized ta) (SYNC_TAG_NAME cfg) = false ->
      classify (Ledger.snapshot L (or_str (MAIN_ACCOUNT_ID cfg) "")) (normalized ta)
      <> NO_MATCH ->
      exists ta',
        In ta' (Ledger.account (remote w1) (or_str (ADDL_ACCOUNT_ID cfg) "")) /\
        r_id ta' = r_id ta /\
        In tag_id (map tg_id (t_tags (normalized ta'))) /\
        classify (Ledger.snapshot (remote w1) (or_str (MAIN_ACCOUNT_ID cfg) ""))
                 (normalized ta')
        = EXISTING_SHARED /\
        (classify (Ledger.snapshot L (or_str (MAIN_ACCOUNT_ID cfg) ""))
                  (normalized ta) = NEW_SHARED ->
         forallb is_shared
           (bucket (Ledger.snapshot (remote w1) (or_str (MAIN_ACCOUNT_ID cfg) ""))
                   (normalized ta'))
         = true).
Proof.
  intros Hcfg Hmain Haddl Hlive Hres.
  destruct (main_run_on_ledger fuel cfg L tag_id Hcfg Hmain Haddl Hres)
    as (w1 & Hrun & _ & Hrem).
  destruct (resolved_tag_of_id _ _ _ Hres) as (g & Hg & Hgid). simpl in Hg.
  rewrite all_planned_live in Hrem by exact Hlive.
  eexists _, w1. split; [exact Hrun|].
  intros ta Hta Hno Hcls.
  exists (Ledger.steps (Ledger.household_tags L)
            (plans tag_id (Ledger.snapshot L (or_str (MAIN_ACCOUNT_ID cfg) ""))
               (addl_candidates (SYNC_TAG_NAME cfg)
                  (Ledger.snapshot L (or_str (ADDL_ACCOUNT_ID cfg) ""))))
            ta).
  rewrite Hrem.
  split; [rewrite LedgerFacts.account_apply_all; now apply in_map|].
  split; [apply LedgerFacts.steps_same|].
  exact (plans_effect L (SYNC_TAG_NAME cfg) tag_id _ _ g ta Hg Hgid Hta Hno Hcls
           _ _ eq_refl eq_refl).
Qed.

Lemma live_main_shares_and_tags_witness :
  exists c w1,
    main 3 (Example.cfg false) (Ledger.start Example.two_individual)
    = Some (Ok c, w1) /\
    forall ta,
      In ta (Ledger.account Example.two_individual "addl") ->
      has_sync_tag (normalized ta) "synced" = false ->
      classify (Ledger.snapshot Example.two_individual "main") (normalized ta)
      <> NO_MATCH ->
      exists ta',
        In ta' (Ledger.account (remote w1) "addl") /\
        r_id ta' = r_id ta /\
        In "T" (map tg_id (t_tags (normalized ta'))) /\
        classify (Ledger.snapshot (remote w1) "main") (normalized ta')
        = EXISTING_SHARED /\
        (classify (Ledger.snapshot Example.two_individual "main") (normalized ta)
         = NEW_SHARED ->
         forallb is_shared
           (bucket (Ledger.snapshot (remote w1) "main") (normalized ta'))
         = true).
Proof.
  apply (live_main_shares_and_tags 3 (Example.cfg false)
           Example.two_individual "T").
  - reflexivity.
  - vm_compute. lia.
  - vm_compute. lia.
  - reflexivity.
  - reflexivity.
Defined.

(** [main] from end to end on a ledger, with the configuration complete,
    fuel above the lengths of the two accounts and the sync tag among the
    first 500 tags: it returns the counts of the classifications of the
    candidates of the additional account against the main account, the
    mutations it has sent are those planned for the candidates, in order
    (none in a dry run), and the ledger is the one they give. *)
Theorem main_result_on_ledger (fuel : nat) (cfg : config) (L : Ledger.ledger)
    (tag_id : string) :
  missing cfg = [] ->
  length (Ledger.account L (or_str (MAIN_ACCOUNT_ID cfg) "")) < fuel ->
  length (Ledger.account L (or_str (ADDL_ACCOUNT_ID cfg) "")) < fuel ->
  fst (ensure_tag_id (SYNC_TAG_NAME cfg) (Ledger.start L)) = Ok tag_id ->
  exists w1,
    main fuel cfg (Ledger.start L)
    = Some (Ok (tally (Ledger.snapshot L (or_str (MAIN_ACCOUNT_ID cfg) ""))
                  (addl_candidates (SYNC_TAG_NAME cfg)
                     (Ledger.snapshot L (or_str (ADDL_ACCOUNT_ID cfg) "")))
                  zero), w1) /\
    mutations w1
    = (if DRY_RUN cfg then []
       else plans tag_id (Ledger.snapshot L (or_str (MAIN_ACCOUNT_ID cfg) ""))
              (addl_candidates (SYNC_TAG_NAME cfg)
                 (Ledger.snapshot L (or_str (ADDL_ACCOUNT_ID cfg) "")))) /\
    remote w1 = apply_all (mutations w1) L.
Proof.
  intros Hcfg Hmain Haddl Hres.
  destruct (main_run_on_ledger fuel cfg L tag_id Hcfg Hmain Haddl Hres)
    as (w1 & Hrun & Hmut & Hrem).
  exists w1. split; [exact Hrun|]. split; [|now rewrite Hmut].
  rewrite Hmut. destruct (DRY_RUN cfg) eqn:Hmode.
  - now apply all_planned_dry.
  - now apply all_planned_live.
Qed.

Lemma main_result_on_ledger_witness :
  exists w1,
    main 3 (Example.cfg false) (Ledger.start Example.two_individual)
    = Some (Ok (count NEW_SHARED zero), w1) /\
    mutations w1
    = [Web_UpdateTransactionOverview "m1"; Web_UpdateTransactionOverview "m2";
       Web_SetTransactionTags "a1" ["F"; "T"]] /\
    remote w1 = apply_all (mutations w1) Example.two_individual.
Proof.
  apply (main_result_on_ledger 3 (Example.cfg false) Example.two_individual "T").
  - reflexivity.
  - vm_compute. lia.
  - vm_compute. lia.
  - reflexivity.
Defined.

(** On a ledger where a transaction of the additional account is
    NEW_SHARED, once the first [k] of its owner requests ([0 < k]) have
    been applied and nothing else, as when a live run stops between its
    requests, a fetch finds the transaction with its tags as they were and
    classifies it EXISTING_SHARED: the requests planned for it are then
    those of its tag alone, and none for the owners of the rest of its
    bucket. *)
Theorem interrupted_candidate_resumes (L : Ledger.ledger)
    (main_account addl_account tag_id : string) (ta : raw_txn) (k : nat) :
  In ta (Ledger.account L addl_account) ->
  classify (Ledger.snapshot L main_account) (normalized ta) = NEW_SHARED ->
  0 < k ->
  forall R,
    R = map (fun m => Web_UpdateTransactionOverview (t_id m))
          (take k (bucket (Ledger.snapshot L main_account) (normalized ta))) ->
    exists ta',
      In ta' (Ledger.account (apply_all R L) addl_account) /\
      r_id ta' = r_id ta /\
      t_tags (normalized ta') = t_tags (normalized ta) /\
      classify (Ledger.snapshot (apply_all R L) main_account) (normalized ta')
      = EXISTING_SHARED /\
      plan tag_id (Ledger.snapshot (apply_all R L) main_account) (normalized ta')
      = tagging tag_id (normalized ta).
Proof.
  intros Hta Hc Hk R HR.
  set (cat := Ledger.household_tags L).
  exists (Ledger.steps cat R ta).
  destruct (LedgerFacts.steps_same cat R ta) as (Hid & _).
  assert (Htags : t_tags (normalized (Ledger.steps cat R ta))
                  = t_tags (normalized ta)).
  { unfold normalized. simpl. rewrite LedgerFacts.steps_tags_kept; [reflexivity|].
    intros ids Hin. rewrite HR in Hin. apply in_map_iff in Hin as (m & [=] & _). }
  split; [rewrite LedgerFacts.account_apply_all; now apply in_map|].
  split; [exact Hid|]. split; [exact Htags|].
  pose proof (ledger_bucket L main_account (normalized ta)) as Hb0.
  pose proof (ledger_bucket_after L R main_account ta) as Hb1. fold cat in Hb1.
  set (B := List.filter
              (fun t => bool_decide (key_for (normalized t) = key_for (normalized ta)))
              (Ledger.account L main_account)) in *.
  assert (Hcls : classify (Ledger.snapshot (apply_all R L) main_account)
                          (normalized (Ledger.steps cat R ta)) = EXISTING_SHARED).
  { unfold classify. rewrite Hb1.
    destruct B as [|t B'] eqn:HB.
    { unfold classify in Hc. rewrite Hb0 in Hc. discriminate. }
    cbn [map is_nil existsb].
    assert (Hfirst : is_shared (normalized (Ledger.steps cat R t)) = true).
    { apply LedgerFacts.is_shared_normalized, LedgerFacts.steps_owner_cleared.
      rewrite HR, Hb0. destruct k as [|k']; [lia|]. now left. }
    now rewrite Hfirst. }
  split; [exact Hcls|].
  unfold plan. rewrite Hcls. unfold tagging, add_sync_tag. rewrite Htags.
  cbn [normalized t_id]. now rewrite Hid.
Qed.

Lemma interrupted_candidate_resumes_witness :
  exists ta',
    In ta' (Ledger.account
              (apply_all [Web_UpdateTransactionOverview "m1"] Example.two_individual)
              "addl") /\
    r_id ta' = "a1" /\
    t_tags (normalized ta') = [Example.food] /\
    classify (Ledger.snapshot
                (apply_all [Web_UpdateTransactionOverview "m1"]
                           Example.two_individual) "main")
             (normalized ta')
    = EXISTING_SHARED /\
    plan "T" (Ledger.snapshot
                (apply_all [Web_UpdateTransactionOverview "m1"]
                           Example.two_individual) "main")
         (normalized ta')
    = [Web_SetTransactionTags "a1" ["F"; "T"]].
Proof.
  apply (interrupted_candidate_resumes Example.two_individual "main" "addl" "T"
           Example.a1 1).
  - now left.
  - reflexivity.
  - lia.
  - reflexivity.
Defined.
